(** * Labor-law LINE bot: the reply pipeline of [src/index.js] and
      [src/articles.js]

    A shallow embedding of the parts of the bot that decide what a user is
    answered: the text helpers, the article-reference extractors, the keyword
    lookup, the overtime-pay calculator, the OpenAI gateway with its retry
    loop and degradation ladder, and the webhook handler that orders them.

    Conventions of the embedding.
    - A JavaScript string is the list of its UTF-16 code units ([jsstring]);
      [String.length], [slice] and character classes work on code units, as
      they do in the engine.
    - A JavaScript number is an exact rational, or NaN; [jsval] adds
      [undefined] for an absent property. Binary64 rounding and overflow are
      not modelled.
    - [toLowerCase] folds the ASCII letters only; the source's keys, commands
      and prefixes that depend on case are ASCII. *)

From Stdlib Require Import String Ascii.
From Stdlib Require Import List ZArith QArith Qround Qminmax Qpower Bool Lia Lqa.
From Stdlib Require Import DecimalString Sorted.
Import ListNotations.

Local Open Scope Z_scope.

(* ================================================================== *)
(** ** JavaScript strings as UTF-16 code units *)

Definition jsstring := list Z.

(** Source literals are written as UTF-8 text and decoded to code units:
    one unit for a code point of the basic plane, a surrogate pair above. *)

Definition units_of_code_point (cp : Z) : jsstring :=
  if cp <? 65536 then [cp]
  else [55296 + (cp - 65536) / 1024; 56320 + (cp - 65536) mod 1024].

Fixpoint decode_utf8 (bs : list Z) : jsstring :=
  match bs with
  | [] => []
  | b :: r1 =>
    if b <? 192 then b :: decode_utf8 r1
    else match r1 with
    | [] => [b]
    | b1 :: r2 =>
      if b <? 224 then
        units_of_code_point ((b - 192) * 64 + (b1 - 128)) ++ decode_utf8 r2
      else match r2 with
      | [] => [b]
      | b2 :: r3 =>
        if b <? 240 then
          units_of_code_point
            ((b - 224) * 4096 + (b1 - 128) * 64 + (b2 - 128)) ++ decode_utf8 r3
        else match r3 with
        | [] => [b]
        | b3 :: r4 =>
          units_of_code_point
            ((b - 240) * 262144 + (b1 - 128) * 4096
             + (b2 - 128) * 64 + (b3 - 128)) ++ decode_utf8 r4
        end
      end
    end
  end.

Definition utf16 (s : string) : jsstring :=
  decode_utf8 (map (fun a => Z.of_N (N_of_ascii a)) (list_ascii_of_string s)).
Arguments utf16 s%_string.

Definition unit_eqb (a b : Z) : bool := a =? b.

Fixpoint str_eqb (a b : jsstring) : bool :=
  match a, b with
  | [], [] => true
  | x :: a', y :: b' => unit_eqb x y && str_eqb a' b'
  | _, _ => false
  end.

(** [\s] of a regular expression, which is also what [trim] removes:
    WhiteSpace and LineTerminator of the language definition. *)
Definition is_ws (c : Z) : bool :=
  ((9 <=? c) && (c <=? 13)) || (c =? 32) || (c =? 160) || (c =? 5760)
  || ((8192 <=? c) && (c <=? 8202)) || (c =? 8232) || (c =? 8233)
  || (c =? 8239) || (c =? 8287) || (c =? 12288) || (c =? 65279).

(** [\d] and the class [[0-9]]. *)
Definition is_digit (c : Z) : bool := (48 <=? c) && (c <=? 57).

(** The full-width digits [０-９]. *)
Definition is_fullwidth_digit (c : Z) : bool := (65296 <=? c) && (c <=? 65305).

Definition lower_unit (c : Z) : Z :=
  if (65 <=? c) && (c <=? 90) then c + 32 else c.

Definition toLowerCase (s : jsstring) : jsstring := map lower_unit s.

(** [s.replace(/\s+/g, "")]: every run of white space is deleted. *)
Definition remove_ws (s : jsstring) : jsstring :=
  filter (fun c => negb (is_ws c)) s.

Fixpoint trimStart (s : jsstring) : jsstring :=
  match s with
  | c :: s' => if is_ws c then trimStart s' else s
  | [] => []
  end.

Definition trimEnd (s : jsstring) : jsstring := rev (trimStart (rev s)).

Definition trim (s : jsstring) : jsstring := trimEnd (trimStart s).

(** [strip_prefix p s] is the rest of [s] after the literal [p], when [s]
    starts with it. *)
Fixpoint strip_prefix (p s : jsstring) : option jsstring :=
  match p with
  | [] => Some s
  | x :: p' =>
    match s with
    | y :: s' => if unit_eqb x y then strip_prefix p' s' else None
    | [] => None
    end
  end.

Definition startsWith (s p : jsstring) : bool :=
  match strip_prefix p s with Some _ => true | None => false end.

(** [s.includes(p)]: [p] occurs in [s] at some index. *)
Fixpoint includes (s p : jsstring) : bool :=
  startsWith s p ||
  match s with
  | [] => false
  | _ :: s' => includes s' p
  end.

(** [s.slice(0, limit)] and [s.slice(n)] for indices inside [0, +oo). *)
Definition slice_to (s : jsstring) (limit : nat) : jsstring := firstn limit s.
Definition slice_from (s : jsstring) (n : nat) : jsstring := skipn n s.

(* ================================================================== *)
(** ** Reply-length guard ([ensureLineLength]) *)

Definition line_limit : nat := 4500.

(** The literal ["\n…（已截斷）"]. *)
Definition truncation_marker : jsstring := 10 :: utf16 "…（已截斷）".

(** [function ensureLineLength(s, limit = 4500)]: the falsy string is the
    empty one. *)
Definition ensureLineLength_at (s : jsstring) (limit : nat) : jsstring :=
  match s with
  | [] => s
  | _ =>
    if (limit <? length s)%nat then slice_to s limit ++ truncation_marker
    else s
  end.

Definition ensureLineLength (s : jsstring) : jsstring :=
  ensureLineLength_at s line_limit.

(* ================================================================== *)
(** ** JavaScript numbers *)

Inductive jsval : Type :=
| Undefined
| NaN
| Num (q : Q).

Definition ToNumber (v : jsval) : jsval :=
  match v with Undefined => NaN | _ => v end.

(** Truthiness of a number or [undefined]: only a non-zero number is truthy. *)
Definition truthy (v : jsval) : bool :=
  match v with
  | Num q => negb (Qeq_bool q 0)
  | _ => false
  end.

(** [a || b]. *)
Definition js_or (a b : jsval) : jsval := if truthy a then a else b.

Definition Number_isNaN (v : jsval) : bool :=
  match v with NaN => true | _ => false end.

Definition lift2 (f : Q -> Q -> Q) (a b : jsval) : jsval :=
  match ToNumber a, ToNumber b with
  | Num x, Num y => Num (f x y)
  | _, _ => NaN
  end.

Definition js_add : jsval -> jsval -> jsval := lift2 Qplus.
Definition js_sub : jsval -> jsval -> jsval := lift2 Qminus.
Definition js_mul : jsval -> jsval -> jsval := lift2 Qmult.
Definition Math_max : jsval -> jsval -> jsval := lift2 Qmax.
Definition Math_min : jsval -> jsval -> jsval := lift2 Qmin.

(** [a <= b] and [a > b]; a comparison with NaN is false. *)
Definition js_le (a b : jsval) : bool :=
  match ToNumber a, ToNumber b with
  | Num x, Num y => Qle_bool x y
  | _, _ => false
  end.

Definition js_gt (a b : jsval) : bool :=
  match ToNumber a, ToNumber b with
  | Num x, Num y => negb (Qle_bool x y)
  | _, _ => false
  end.

(** [Math.round]: the nearest integer, a half rounded up. *)
Definition Math_round (v : jsval) : jsval :=
  match ToNumber v with
  | Num x => Num (inject_Z (Qfloor (x + (1 # 2))))
  | _ => NaN
  end.

(** The same number, up to the representation of the fraction. *)
Definition same_value (a b : jsval) : Prop :=
  match a, b with
  | Undefined, Undefined => True
  | NaN, NaN => True
  | Num x, Num y => x == y
  | _, _ => False
  end.

(** Digits of a decimal numeral, most significant first. *)
Fixpoint take_while (p : Z -> bool) (s : jsstring) : jsstring * jsstring :=
  match s with
  | c :: s' =>
    if p c then let (a, r) := take_while p s' in (c :: a, r) else ([], s)
  | [] => ([], [])
  end.

Definition digits_value (ds : jsstring) : Z :=
  fold_left (fun acc d => acc * 10 + (d - 48)) ds 0.

Definition is_empty (s : jsstring) : bool :=
  match s with [] => true | _ => false end.

(** An optional sign: [true] for a minus. *)
Definition read_sign (s : jsstring) : bool * jsstring :=
  match s with
  | c :: r =>
    if c =? 45 then (true, r) else if c =? 43 then (false, r) else (false, s)
  | [] => (false, s)
  end.

(** The digits after a decimal point, when there is one. *)
Definition read_fraction (s : jsstring) : jsstring * jsstring :=
  match s with
  | c :: r => if c =? 46 then take_while is_digit r else ([], s)
  | [] => ([], s)
  end.

(** The exponent part [e] or [E], sign, digits; [0] when there is none. *)
Definition read_exponent (s : jsstring) : Z :=
  match s with
  | c :: r =>
    if (c =? 101) || (c =? 69) then
      let '(eneg, r') := read_sign r in
      let '(ed, _) := take_while is_digit r' in
      if is_empty ed then 0
      else if eneg then - digits_value ed else digits_value ed
    else 0
  | [] => 0
  end.

(** [parseFloat(s)]: leading white space, an optional sign, the longest
    prefix that is a decimal literal (digits, an optional fraction, an
    optional exponent); NaN when there is none. The literal [Infinity] has
    no value among the rationals and is not covered. *)
Definition parseFloat (s : jsstring) : jsval :=
  let '(neg, s1) := read_sign (trimStart s) in
  let '(ip, r1) := take_while is_digit s1 in
  let '(fp, r2) := read_fraction r1 in
  if is_empty ip && is_empty fp then NaN
  else
    let e := read_exponent r2 in
    let m := inject_Z (digits_value (ip ++ fp)) in
    let v := (m * Qpower 10 (e - Z.of_nat (length fp)))%Q in
    Num (if neg then - v else v)%Q.

(** [parseInt(s, 10)] as an integer, [None] for NaN. *)
Definition parseInt10 (s : jsstring) : option Z :=
  let '(neg, s1) := read_sign (trimStart s) in
  let '(ds, _) := take_while is_digit s1 in
  if is_empty ds then None
  else Some (if neg then - digits_value ds else digits_value ds).

(* ================================================================== *)
(** ** Overtime-pay calculator ([parseOtArgs], [computeOtPay]) *)

Record ot_params : Type := mkParams {
  hourly : jsval;
  weekday : jsval;
  rest : jsval;
  holiday : jsval;
  weekdayRate1 : jsval;
  weekdayRate2 : jsval;
  restRate : jsval;
  holidayRate : jsval
}.

(** The object literal [params] of [parseOtArgs]. *)
Definition default_params : ot_params :=
  {| hourly := NaN;
     weekday := Num 0;
     rest := Num 0;
     holiday := Num 0;
     weekdayRate1 := Num (133 # 100);
     weekdayRate2 := Num (166 # 100);
     restRate := Num 2;
     holidayRate := Num 2 |}.

Definition ot_command : jsstring := utf16 "試算加班費".

(** [text.replace(/^試算加班費/i, "")]. *)
Definition strip_command (text : jsstring) : jsstring :=
  match strip_prefix ot_command text with
  | Some r => r
  | None => text
  end.

(** [s.split(/\s+/)]: the pieces between maximal runs of white space.
    [prev_ws] tells that the run before the current position is open. The
    last case of the match cannot occur: the recursive call never returns
    the empty list. *)
Fixpoint split_ws_from (s : jsstring) (prev_ws : bool) : list jsstring :=
  match s with
  | [] => [[]]
  | c :: s' =>
    if is_ws c then
      if prev_ws then split_ws_from s' true else [] :: split_ws_from s' true
    else
      match split_ws_from s' false with
      | t :: ts => (c :: t) :: ts
      | [] => [[c]]
      end
  end.

Definition split_ws (s : jsstring) : list jsstring := split_ws_from s false.

(** [.filter(Boolean)] on strings keeps the non-empty ones. *)
Definition filter_Boolean (l : list jsstring) : list jsstring :=
  filter (fun t => negb (is_empty t)) l.

(** [t.split(sep)] for a one-unit separator. *)
Fixpoint split_unit (sep : Z) (s : jsstring) : list jsstring :=
  match s with
  | [] => [[]]
  | c :: s' =>
    if unit_eqb c sep then [] :: split_unit sep s'
    else
      match split_unit sep s' with
      | t :: ts => (c :: t) :: ts
      | [] => [[c]]
      end
  end.

Definition any_includes (kk : jsstring) (alts : list jsstring) : bool :=
  existsb (includes kk) alts.

(** The arrow function [mapKeys]: each test is an unanchored alternation,
    tried in the order of the source. *)
Definition mapKeys (k : jsstring) : jsstring :=
  let kk := toLowerCase k in
  if any_includes kk [utf16 "時薪"; utf16 "hour"; utf16 "hourly"; utf16 "wage"]
  then utf16 "hourly"
  else if any_includes kk [utf16 "平日加班"; utf16 "平日"]
  then utf16 "weekday"
  else if any_includes kk [utf16 "休息日加班"; utf16 "休息日"; utf16 "休假日"]
  then utf16 "rest"
  else if any_includes kk
            [utf16 "假日加班"; utf16 "國定假日"; utf16 "國假"; utf16 "假日"]
  then utf16 "holiday"
  else if any_includes kk [utf16 "平日倍數1"; utf16 "weekdayrate1"; utf16 "wkr1"]
  then utf16 "weekdayRate1"
  else if any_includes kk [utf16 "平日倍數2"; utf16 "weekdayrate2"; utf16 "wkr2"]
  then utf16 "weekdayRate2"
  else if any_includes kk [utf16 "休息日倍數"; utf16 "restrate"]
  then utf16 "restRate"
  else if any_includes kk [utf16 "假日倍數"; utf16 "holidayrate"]
  then utf16 "holidayRate"
  else kk.

(** [params[key] = val] for the eight own properties of [params]; the
    source assigns only under one of these names. *)
Definition set_field (key : jsstring) (val : jsval) (p : ot_params)
  : ot_params :=
  if str_eqb key (utf16 "hourly") then
    mkParams val (weekday p) (rest p) (holiday p) (weekdayRate1 p)
             (weekdayRate2 p) (restRate p) (holidayRate p)
  else if str_eqb key (utf16 "weekday") then
    mkParams (hourly p) val (rest p) (holiday p) (weekdayRate1 p)
             (weekdayRate2 p) (restRate p) (holidayRate p)
  else if str_eqb key (utf16 "rest") then
    mkParams (hourly p) (weekday p) val (holiday p) (weekdayRate1 p)
             (weekdayRate2 p) (restRate p) (holidayRate p)
  else if str_eqb key (utf16 "holiday") then
    mkParams (hourly p) (weekday p) (rest p) val (weekdayRate1 p)
             (weekdayRate2 p) (restRate p) (holidayRate p)
  else if str_eqb key (utf16 "weekdayRate1") then
    mkParams (hourly p) (weekday p) (rest p) (holiday p) val
             (weekdayRate2 p) (restRate p) (holidayRate p)
  else if str_eqb key (utf16 "weekdayRate2") then
    mkParams (hourly p) (weekday p) (rest p) (holiday p) (weekdayRate1 p)
             val (restRate p) (holidayRate p)
  else if str_eqb key (utf16 "restRate") then
    mkParams (hourly p) (weekday p) (rest p) (holiday p) (weekdayRate1 p)
             (weekdayRate2 p) val (holidayRate p)
  else if str_eqb key (utf16 "holidayRate") then
    mkParams (hourly p) (weekday p) (rest p) (holiday p) (weekdayRate1 p)
             (weekdayRate2 p) (restRate p) val
  else p.

Definition name_in (key : jsstring) (names : list jsstring) : bool :=
  existsb (str_eqb key) names.

(** [String(rawV).replace(/[^\d.]/g, "")]. *)
Definition keep_digits_dot (v : jsstring) : jsstring :=
  filter (fun c => is_digit c || (c =? 46)) v.

(** The body of [tokens.forEach((t) => ...)]. *)
Definition parse_token (params : ot_params) (t : jsstring) : ot_params :=
  match split_unit 61 t with
  | rawK :: rawV :: _ =>
    if is_empty rawK then params
    else
      let key := mapKeys (trim rawK) in
      let val := parseFloat (keep_digits_dot rawV) in
      if name_in key [utf16 "hourly"; utf16 "weekday"; utf16 "rest";
                      utf16 "holiday"]
      then if negb (Number_isNaN val) then set_field key val params else params
      else if name_in key [utf16 "weekdayRate1"; utf16 "weekdayRate2";
                           utf16 "restRate"; utf16 "holidayRate"]
      then if negb (Number_isNaN val) then set_field key val params else params
      else params
  | _ => params
  end.

Definition parseOtArgs (text : jsstring) : ot_params :=
  let parts := trim (strip_command text) in
  let tokens := filter_Boolean (split_ws parts) in
  fold_left parse_token tokens default_params.

(** The numeric locals of [computeOtPay] after the wage check. *)
Record ot_amounts : Type := mkAmounts {
  wk : jsval;
  rs : jsval;
  hd : jsval;
  wk1 : jsval;
  wk2 : jsval;
  wk3 : jsval;
  weekdayPay : jsval;
  restPay : jsval;
  holidayPay : jsval;
  total : jsval
}.

Definition ot_locals (p : ot_params) : ot_amounts :=
  let h := hourly p in
  let wk := Math_max (Num 0) (js_or (weekday p) (Num 0)) in
  let rs := Math_max (Num 0) (js_or (rest p) (Num 0)) in
  let hd := Math_max (Num 0) (js_or (holiday p) (Num 0)) in
  let wk1 := Math_min (Num 2) wk in
  let wk2 := Math_max (Num 0) (Math_min (Num 2) (js_sub wk wk1)) in
  let wk3 := Math_max (Num 0) (js_sub (js_sub wk wk1) wk2) in
  let weekdayPay :=
    js_mul h (js_add (js_add (js_mul wk1 (weekdayRate1 p))
                             (js_mul wk2 (weekdayRate2 p)))
                     (js_mul wk3 (weekdayRate2 p))) in
  let restPay := js_mul h (js_mul rs (restRate p)) in
  let holidayPay := js_mul h (js_mul hd (holidayRate p)) in
  let total := js_add (js_add weekdayPay restPay) holidayPay in
  mkAmounts wk rs hd wk1 wk2 wk3 weekdayPay restPay holidayPay total.

(** The lines pushed onto [lines], with the numbers each one interpolates
    (the text of a line is fixed by its kind). *)
Inductive ot_line : Type :=
| LineTitle
| LineRule
| LineWage (h : jsval)
| LineWeekday (wk r1 r2 : jsval)
| LineRest (rs r : jsval)
| LineHoliday (hd r : jsval)
| LineBlank
| LineSubtotals
| LineWeekdayPay (rounded : jsval)
| LineRestPay (rounded : jsval)
| LineHolidayPay (rounded : jsval)
| LineTotal (rounded : jsval)
| LineOverFourWarning (r2 : jsval)
| LineDisclaimer.

Inductive ot_result : Type :=
| OtFailure (message : jsstring)
| OtSuccess (message : list ot_line).

Definition ok (r : ot_result) : bool :=
  match r with OtSuccess _ => true | OtFailure _ => false end.

Definition invalid_wage_message : jsstring :=
  utf16 "請提供正確的時薪（例如：時薪=183）".

Definition computeOtPay (p : ot_params) : ot_result :=
  let h := hourly p in
  let a := ot_locals p in
  if negb (truthy h) || Number_isNaN h || js_le h (Num 0) then
    OtFailure invalid_wage_message
  else
    OtSuccess
      ([ LineTitle; LineRule; LineWage h;
         LineWeekday (wk a) (weekdayRate1 p) (weekdayRate2 p);
         LineRest (rs a) (restRate p);
         LineHoliday (hd a) (holidayRate p);
         LineBlank; LineSubtotals;
         LineWeekdayPay (Math_round (weekdayPay a));
         LineRestPay (Math_round (restPay a));
         LineHolidayPay (Math_round (holidayPay a));
         LineBlank;
         LineTotal (Math_round (total a)) ]
       ++ (if js_gt (wk a) (Num 4)
           then [LineBlank; LineOverFourWarning (weekdayRate2 p)] else [])
       ++ [LineBlank; LineDisclaimer]).


Definition nonneg_or_NaN (v : jsval) : Prop :=
  match v with Num q => (0 <= q)%Q | NaN => True | Undefined => False end.

Definition nonneg_num (v : jsval) : Prop :=
  match v with Num q => (0 <= q)%Q | _ => False end.

(** No field of a parameter set is negative (the wage may still be NaN). *)
Definition params_nonneg (p : ot_params) : Prop :=
  nonneg_or_NaN (hourly p)
  /\ nonneg_num (weekday p) /\ nonneg_num (rest p) /\ nonneg_num (holiday p)
  /\ nonneg_num (weekdayRate1 p) /\ nonneg_num (weekdayRate2 p)
  /\ nonneg_num (restRate p) /\ nonneg_num (holidayRate p).

Definition digit_or_dot (c : Z) : bool := is_digit c || (c =? 46).

(** Five weekday hours and an hour and a half on a rest day at the default
    rates. *)
Definition sample_params : ot_params :=
  mkParams (Num 183) (Num 5) (Num (3 # 2)) (Num 0)
           (Num (133 # 100)) (Num (166 # 100)) (Num 2) (Num 2).

(* ================================================================== *)
(** ** Regular expressions as backtracking matchers

    A matcher consumes a prefix of the input and hands the rest to its
    continuation; when the continuation fails the matcher tries its next,
    shorter alternative, which is the greedy backtracking of the engine. *)

Section Matchers.
Context {R : Type}.

(** A literal. *)
Definition re_lit (p : jsstring) (s : jsstring)
           (k : jsstring -> option R) : option R :=
  match strip_prefix p s with
  | Some r => k r
  | None => None
  end.

(** [c?] for one unit [c]. *)
Definition re_opt (c : Z) (s : jsstring)
           (k : jsstring -> option R) : option R :=
  match s with
  | x :: s' =>
    if unit_eqb x c then
      match k s' with
      | Some r => Some r
      | None => k s
      end
    else k s
  | [] => k s
  end.

(** [[class]*]. *)
Fixpoint re_star (cls : Z -> bool) (s : jsstring)
         (k : jsstring -> option R) : option R :=
  match s with
  | x :: s' =>
    if cls x then
      match re_star cls s' k with
      | Some r => Some r
      | None => k s
      end
    else k s
  | [] => k s
  end.

(** After the units [acc] of a capture group, up to [n] more of the class,
    as many as the continuation accepts. *)
Fixpoint re_more (cls : Z -> bool) (n : nat) (acc : jsstring) (s : jsstring)
         (k : jsstring -> jsstring -> option R) : option R :=
  match n with
  | O => k acc s
  | S n' =>
    match s with
    | x :: s' =>
      if cls x then
        match re_more cls n' (acc ++ [x]) s' k with
        | Some r => Some r
        | None => k acc s
        end
      else k acc s
    | [] => k acc s
    end
  end.

(** The capture group [([class]{1,3})]. *)
Definition re_group_1_3 (cls : Z -> bool) (s : jsstring)
           (k : jsstring -> jsstring -> option R) : option R :=
  match s with
  | x :: s' => if cls x then re_more cls 2 [x] s' k else None
  | [] => None
  end.

(** The leftmost index at which a pattern matches. *)
Fixpoint re_search (m : jsstring -> option R) (s : jsstring) : option R :=
  match m s with
  | Some r => Some r
  | None =>
    match s with
    | [] => None
    | _ :: s' => re_search m s'
    end
  end.
End Matchers.

Definition is_any_digit (c : Z) : bool := is_digit c || is_fullwidth_digit c.

Definition u_di : Z := 31532.  (* 第 *)
Definition u_tiao : Z := 26781.  (* 條 *)

(* ================================================================== *)
(** ** Article references in user text ([extractArticleNumber]) *)

(** [/NAME第?([0-9０-９]{1,3})條?/] at the head of [s]; the result is group 1. *)
Definition pat_statute_di (name : jsstring) (s : jsstring) : option jsstring :=
  re_lit name s (fun s1 =>
  re_opt u_di s1 (fun s2 =>
  re_group_1_3 is_any_digit s2 (fun g s3 =>
  re_opt u_tiao s3 (fun _ => Some g)))).

(** [/NAME([0-9０-９]{1,3})條?/]. *)
Definition pat_statute (name : jsstring) (s : jsstring) : option jsstring :=
  re_lit name s (fun s1 =>
  re_group_1_3 is_any_digit s1 (fun g s2 =>
  re_opt u_tiao s2 (fun _ => Some g))).

(** [/第([0-9０-９]{1,3})條/]. *)
Definition pat_bare (s : jsstring) : option jsstring :=
  re_lit [u_di] s (fun s1 =>
  re_group_1_3 is_any_digit s1 (fun g s2 =>
  re_lit [u_tiao] s2 (fun _ => Some g))).

Definition patterns : list (jsstring -> option jsstring) :=
  [ pat_statute_di (utf16 "勞動基準法");
    pat_statute_di (utf16 "勞基法");
    pat_statute (utf16 "勞動基準法");
    pat_statute (utf16 "勞基法");
    pat_bare ].

(** [m[1].replace(/[０-９]/g, (d) => String.fromCharCode(d.charCodeAt(0) - 65248))]. *)
Definition to_halfwidth (g : jsstring) : jsstring :=
  map (fun d => if is_fullwidth_digit d then d - 65248 else d) g.

(** The loop [for (const re of patterns)]. *)
Fixpoint first_pattern (ps : list (jsstring -> option jsstring))
         (s : jsstring) : option Z :=
  match ps with
  | [] => None
  | re :: ps' =>
    match re_search re s with
    | Some g =>
      if is_empty g then first_pattern ps' s
      else
        match parseInt10 (to_halfwidth g) with
        | Some n => Some n
        | None => first_pattern ps' s
        end
    | None => first_pattern ps' s
    end
  end.

Definition extractArticleNumber (text : jsstring) : option Z :=
  if is_empty text then None
  else first_pattern patterns (remove_ws text).

Definition statute_names : list jsstring :=
  [utf16 "勞動基準法"; utf16 "勞基法"].

(** A phrase that names an article: a statute name and a number, with or
    without [第], or [第], one to three digits and [條]. *)
Inductive article_phrase : jsstring -> Prop :=
| phrase_statute (name pre post : jsstring) (d : Z) :
    In name statute_names -> is_any_digit d = true ->
    article_phrase (pre ++ name ++ d :: post)
| phrase_statute_di (name pre post : jsstring) (d : Z) :
    In name statute_names -> is_any_digit d = true ->
    article_phrase (pre ++ name ++ u_di :: d :: post)
| phrase_bare (pre ds post : jsstring) :
    ds <> [] -> (length ds <= 3)%nat -> forallb is_any_digit ds = true ->
    article_phrase (pre ++ u_di :: ds ++ u_tiao :: post).

(** What group 1 of any of the patterns holds. *)
Definition good_group (g : jsstring) : Prop :=
  g <> [] /\ (length g <= 3)%nat /\ forallb is_any_digit g = true.

(* ================================================================== *)
(** ** Article references in generated prose ([extractLawNumbers]) *)

(** [/第\s*([0-9]{1,3})\s*條/] at the head of [s]: group 1 and the input after
    the match. *)
Definition pat_law (s : jsstring) : option (jsstring * jsstring) :=
  re_lit [u_di] s (fun s1 =>
  re_star is_ws s1 (fun s2 =>
  re_group_1_3 is_digit s2 (fun g s3 =>
  re_star is_ws s3 (fun s4 =>
  re_lit [u_tiao] s4 (fun s5 => Some (g, s5)))))).

(** [nums.add(n)] on a [Set]: insertion order, no repetition. *)
Definition set_add (n : Z) (nums : list Z) : list Z :=
  if existsb (Z.eqb n) nums then nums else nums ++ [n].

(** The loop [while ((m = re.exec(text)) !== null)] of a global expression:
    each search resumes where the last match ended. A match consumes at
    least three units, so [fuel] above the length of the text never runs
    out. *)
Fixpoint law_loop (fuel : nat) (s : jsstring) (nums : list Z) : list Z :=
  match fuel with
  | O => nums
  | S fuel' =>
    match re_search pat_law s with
    | None => nums
    | Some (g, s') =>
      match parseInt10 g with
      | Some n =>
        if (0 <? n) && (n <? 1000) then law_loop fuel' s' (set_add n nums)
        else law_loop fuel' s' nums
      | None => law_loop fuel' s' nums
      end
    end
  end.

Definition extractLawNumbers (text : jsstring) : list Z :=
  law_loop (S (length text)) text [].

(** An occurrence of [第N條] at the head of [s]: [第], white space, one to
    three digits that read [n], white space, [條]. *)
Definition law_reference_at (s : jsstring) (n : Z) : Prop :=
  exists ws1 ds ws2 post,
    s = u_di :: ws1 ++ ds ++ ws2 ++ u_tiao :: post
    /\ forallb is_ws ws1 = true /\ forallb is_ws ws2 = true
    /\ ds <> [] /\ (length ds <= 3)%nat /\ forallb is_digit ds = true
    /\ digits_value ds = n.

(** [第N條] occurs somewhere in [text]. *)
Definition law_reference (text : jsstring) (n : Z) : Prop :=
  exists pre t, text = pre ++ t /\ law_reference_at t n.

(** [String(n)] for an integer. *)
Definition decimal (n : Z) : jsstring :=
  utf16 (NilZero.string_of_int (Z.to_int n)).

(** [lawUrl(no)] for a number [no]. *)
Definition lawUrl (n : Z) : jsstring :=
  if (n =? 0) || (n <=? 0) then
    utf16 "https://law.moj.gov.tw/LawClass/LawAll.aspx?pcode=N0030001"
  else
    utf16 "https://law.moj.gov.tw/LawClass/LawSingle.aspx?pcode=N0030001&flno="
    ++ decimal n.

(** [nums.sort((a, b) => a - b)]. *)
Fixpoint insert_sorted (n : Z) (l : list Z) : list Z :=
  match l with
  | [] => [n]
  | m :: l' => if n <=? m then n :: l else m :: insert_sorted n l'
  end.

Definition sort_ascending (l : list Z) : list Z :=
  fold_right insert_sorted [] l.

(** [parts.join(sep)]. *)
Fixpoint join (sep : jsstring) (parts : list jsstring) : jsstring :=
  match parts with
  | [] => []
  | [x] => x
  | x :: rest => x ++ sep ++ join sep rest
  end.

Definition appendLawLinks (answer : jsstring) : jsstring :=
  let nums := extractLawNumbers answer in
  if (length nums =? 0)%nat then answer
  else
    let links :=
      join [10]
           (map (fun n => utf16 "• 第 " ++ decimal n ++ utf16 " 條：" ++ lawUrl n)
                (sort_ascending nums)) in
    answer ++ [10; 10] ++ utf16 "🔗 參考條文：" ++ [10] ++ links.

(* ================================================================== *)
(** ** Article and FAQ indexes ([src/articles.js], [src/faqs.js]) *)

(** An entry of [articles.json]; [keywords] is [None] when the property is
    not an array. *)
Record article : Type := mkArticle {
  no : Z;
  title : jsstring;
  summary : jsstring;
  keywords : option (list jsstring)
}.

Record faq : Type := mkFaq {
  question : jsstring;
  answer : jsstring;
  faq_keywords : option (list jsstring)
}.

(** [normalize(text)]: lower case, white space removed. *)
Definition normalize (text : jsstring) : jsstring :=
  if is_empty text then [] else remove_ws (toLowerCase text).

(** [findArticleByNumber(no)] for a number [no]. *)
Definition findArticleByNumber (articles : list article) (n : Z)
  : option article :=
  find (fun a => no a =? n) articles.

(** The inner loop [for (const kwRaw of art.keywords)]: one point for each
    keyword whose normal form is not empty and occurs in the query. *)
Definition keyword_score (normalized : jsstring)
           (kws : option (list jsstring)) : nat :=
  match kws with
  | Some l =>
    fold_left
      (fun score kwRaw =>
         let kw := normalize kwRaw in
         if is_empty kw then score
         else if includes normalized kw then S score else score)
      l O
  | None => O
  end.

(** The outer loop, on the pair [(best, bestScore)]. *)
Definition best_step {A : Type} (kws : A -> option (list jsstring))
           (normalized : jsstring) (st : option A * nat) (rec : A)
  : option A * nat :=
  let score := keyword_score normalized (kws rec) in
  if (snd st <? score)%nat then (Some rec, score) else st.

Definition best_match {A : Type} (kws : A -> option (list jsstring))
           (records : list A) (text : jsstring) : option A :=
  if is_empty text then None
  else
    let normalized := normalize text in
    let '(best, bestScore) :=
      fold_left (best_step kws normalized) records (None, O) in
    match best with
    | None => None
    | Some b => if (bestScore =? 0)%nat then None else Some b
    end.

Definition findArticleByKeyword (articles : list article) (text : jsstring)
  : option article :=
  best_match keywords articles text.

(** Modelled from the spec: [findBestFaq] of [src/faqs.js], which is not
    among the sources. Section 4.3 gives it the scoring algorithm of the
    article keyword lookup, with the same tie-break and the same answer for
    a zero score, applied to the FAQ records. *)
Definition findBestFaq (faqs : list faq) (text : jsstring) : option faq :=
  best_match faq_keywords faqs text.

(** The scoring as section 4.1 words it: the count of the record's
    normalized keywords that occur as a substring of the normalized text. *)
Definition spec_score (normalized : jsstring) (kws : list jsstring) : nat :=
  length (filter (fun kwRaw => includes normalized (normalize kwRaw)) kws).

Definition keyword_list (kws : option (list jsstring)) : list jsstring :=
  match kws with Some l => l | None => [] end.

(** The lookup as sections 4.1 and 4.3 word it, over [spec_score]: the
    first record of strictly highest score, none when that score is zero. *)
Definition spec_lookup_step {A : Type} (score : A -> nat)
           (best : option A) (rec : A) : option A :=
  match best with
  | None => if (0 <? score rec)%nat then Some rec else None
  | Some b => if (score b <? score rec)%nat then Some rec else best
  end.

Definition spec_lookup {A : Type} (kws : A -> option (list jsstring))
           (records : list A) (text : jsstring) : option A :=
  fold_left
    (spec_lookup_step
       (fun r => spec_score (normalize text) (keyword_list (kws r))))
    records None.

(** A keyword that the source counts: its normal form is not empty and
    occurs in the query. *)
Definition counted (normalized kwRaw : jsstring) : bool :=
  negb (is_empty (normalize kwRaw)) && includes normalized (normalize kwRaw).

(** [res] is the answer of a lookup: the first record of the highest score,
    which is above zero, or nothing when every score is zero. *)
Definition lookup_result {A : Type} (kws : A -> option (list jsstring))
           (records : list A) (text : jsstring) (res : option A) : Prop :=
  let score := fun r => keyword_score (normalize text) (kws r) in
  match res with
  | Some b =>
    exists before after,
      records = before ++ b :: after
      /\ (0 < score b)%nat
      /\ Forall (fun r => (score r < score b)%nat) before
      /\ Forall (fun r => (score r <= score b)%nat) after
  | None => Forall (fun r => score r = O) records
  end.

(** What the pair [(best, bestScore)] knows after the records [seen]. *)
Definition state_ok {A : Type} (kws : A -> option (list jsstring))
           (n : jsstring) (seen : list A) (st : option A * nat) : Prop :=
  let score := fun r => keyword_score n (kws r) in
  match fst st with
  | None => snd st = O /\ Forall (fun r => score r = O) seen
  | Some b =>
    snd st = score b /\ (0 < score b)%nat
    /\ exists before after,
        seen = before ++ b :: after
        /\ Forall (fun r => (score r < score b)%nat) before
        /\ Forall (fun r => (score r <= score b)%nat) after
  end.

(** Two articles that share a keyword. *)
Definition overtime_article : article :=
  mkArticle 24 (utf16 "延長工時工資") (utf16 "加班費")
            (Some [utf16 "延長工時"; utf16 "加班費"]).

Definition leave_article : article :=
  mkArticle 38 (utf16 "特別休假") (utf16 "特休")
            (Some [utf16 "特休"; utf16 "加班費"]).

(** An article whose only keyword is blank. *)
Definition blank_keyword_article : article :=
  mkArticle 24 (utf16 "延長工時工資") (utf16 "加班費") (Some [utf16 " "]).

(* ================================================================== *)
(** ** The world outside: OpenAI, the clock, the LINE client

    The remote completion call and [Math.random] are oracles indexed by the
    number of calls made so far; what the bot does to the outside is
    recorded, in order, in a trace. *)

Inductive ai_mode : Type := Concise | Detailed.

(** The first argument of [openai.chat.completions.create]: the system
    prompt is [systemPromptFor(system_prompt)], the user message is
    [user_content]. *)
Record chat_payload : Type := mkPayload {
  system_prompt : ai_mode;
  user_content : jsstring;
  max_tokens : Z;
  temperature : Q
}.

(** A rejection of the call: [err.message] and [err.status]. *)
Record api_error : Type := mkError {
  err_message : jsstring;
  err_status : option Z
}.

(** [content] is [completion.choices?.[0]?.message?.content]. *)
Inductive api_outcome : Type :=
| Resolved (content : option jsstring)
| Rejected (err : api_error).

Inductive flex_kind : Type := FunctionMenu | OtFlex.

(** The texts the handler sends, by template, with the values each one
    interpolates. *)
Inductive body : Type :=
| WelcomeText
| AiUsageText
| AiThinkingText
| AiNoKeyText (aiQuestion : jsstring)
| AiAnswerText (isDetailed : bool) (aiAnswer : jsstring)
| AiFailedText (aiQuestion : jsstring)
| OtHelpText
| OtErrorText (message : jsstring)
| OtResultText (message : list ot_line)
| OvertimeExamplesText
| LeaveExamplesText
| ResignExamplesText
| ArticleText (articleNo : Z) (articleData : article)
| ArticleAiText (articleNo : Z) (aiAnswer : jsstring)
| ArticleMissingText (articleNo : Z)
| FaqText (matchedFaq : faq)
| AiFallbackText (aiAnswer : jsstring)
| GuidanceText (userText : jsstring).

(** What the bot does to the outside: a completion call, a pause, a
    message through [client.replyMessage] or [client.pushMessage]. *)
Inductive io_event : Type :=
| Call (label : jsstring) (payload : chat_payload) (timeout : Z)
| Sleep (delay : Z)
| ReplyText (replyToken : jsstring) (text : body)
| PushText (to : jsstring) (text : body)
| ReplyFlex (replyToken : jsstring) (flex : flex_kind).

(** What the process holds and meets: the loaded records, whether the
    OpenAI client exists ([openai] is not [null]), the outcome of the call
    number [i] for a payload and a timeout, and the draw number [i] of
    [Math.random]. *)
Record env : Type := mkEnv {
  articles : list article;
  faqs : list faq;
  openai : bool;
  chat_completions_create : nat -> chat_payload -> Z -> api_outcome;
  Math_random : nat -> Q
}.

(** The calls and draws made so far, and what was done, oldest first. *)
Record world : Type := mkWorld {
  calls : nat;
  draws : nat;
  trace : list io_event
}.

Definition initial_world : world := mkWorld O O [].

Definition M (A : Type) : Type := world -> A * world.

Definition ret {A : Type} (a : A) : M A := fun w => (a, w).

Definition bind {A B : Type} (m : M A) (f : A -> M B) : M B :=
  fun w => let (a, w') := m w in f a w'.

Notation "x <- m ;; k" := (bind m (fun x => k))
  (at level 61, m at next level, right associativity).
Notation "m ;;; k" := (bind m (fun _ => k))
  (at level 61, right associativity).

Definition emit (e : io_event) : M unit :=
  fun w => (tt, mkWorld (calls w) (draws w) (trace w ++ [e])).

(** [await openai.chat.completions.create(payload, { timeout })]. *)
Definition create (E : env) (label : jsstring) (payload : chat_payload)
           (timeout : Z) : M api_outcome :=
  fun w =>
    (chat_completions_create E (calls w) payload timeout,
     mkWorld (S (calls w)) (draws w) (trace w ++ [Call label payload timeout])).

(** [Math.random()]. *)
Definition random (E : env) : M Q :=
  fun w => (Math_random E (draws w), mkWorld (calls w) (S (draws w)) (trace w)).

(** [await new Promise((r) => setTimeout(r, delay))]. *)
Definition sleep (delay : Z) : M unit := emit (Sleep delay).

(* ================================================================== *)
(** ** The OpenAI gateway ([openaiChatWithRetry], [askOpenAIForLaborHelp]) *)

Record retry_options : Type := mkOptions {
  timeout : Z;
  retries : nat;
  label : jsstring
}.

(** The classification [retriable] of a caught error. *)
Definition retriable (err : api_error) : bool :=
  let msg := err_message err in
  includes msg (utf16 "Request timed out")
  || includes msg (utf16 "APIConnectionTimeoutError")
  || includes msg (utf16 "ETIMEDOUT")
  || includes msg (utf16 "ECONNRESET")
  || includes msg (utf16 "ENOTFOUND")
  || match err_status err with
     | Some status => (500 <=? status) && (status <? 600)
     | None => false
     end.

Definition baseDelay : Z := 1000.

(** The loop [while (true)] of [openaiChatWithRetry]. [attempt] is the
    counter of the source and [left] is [retries - attempt], so that the
    test [attempt >= retries] reads [left = 0]. The result is the completion
    content, or the error the source throws. *)
Fixpoint retry_loop (E : env) (payload : chat_payload) (tmo : Z)
         (lbl : jsstring) (left attempt : nat)
  : M (api_error + option jsstring) :=
  out <- create E lbl payload tmo ;;
  match out with
  | Resolved res => ret (inr res)
  | Rejected err =>
    if negb (retriable err) then ret (inl err)
    else
      match left with
      | O => ret (inl err)
      | S left' =>
        r <- random E ;;
        let delay :=
          baseDelay * 2 ^ Z.of_nat attempt + Qfloor (r * 200) in
        sleep delay ;;;
        retry_loop E payload tmo lbl left' (S attempt)
      end
  end.

Definition openaiChatWithRetry (E : env) (payload : chat_payload)
           (opts : retry_options) : M (api_error + option jsstring) :=
  retry_loop E payload (timeout opts) (label opts) (retries opts) O.

Definition question_prefix : jsstring :=
  utf16 "以下是使用者的問題，請依上面格式回答，且只談台灣勞基法情境：" ++ [10; 10].

(** [return choice ? appendLawLinks(choice.trim()) : null]. *)
Definition answer_of (choice : option jsstring) : option jsstring :=
  match choice with
  | Some c => if is_empty c then None else Some (appendLawLinks (trim c))
  | None => None
  end.

Definition first_payload (mode : ai_mode) (userText : jsstring) : chat_payload :=
  mkPayload mode (question_prefix ++ userText)
            (match mode with Detailed => 900 | Concise => 360 end) (25 # 100).

Definition first_options (mode : ai_mode) : retry_options :=
  match mode with
  | Detailed => mkOptions 12000 1 (utf16 "detailed#1")
  | Concise => mkOptions 10000 1 (utf16 "concise#1")
  end.

Definition reduced_payload (userText : jsstring) : chat_payload :=
  mkPayload Detailed (question_prefix ++ userText) 600 (25 # 100).

Definition reduced_options : retry_options :=
  mkOptions 10000 1 (utf16 "detailed#2").

Definition fallback_payload (userText : jsstring) : chat_payload :=
  mkPayload Concise (question_prefix ++ userText) 320 (25 # 100).

Definition fallback_options : retry_options :=
  mkOptions 9000 1 (utf16 "concise#fallback").

(** The last [try] of [askOpenAIForLaborHelp]. *)
Definition concise_fallback (E : env) (userText : jsstring)
  : M (option jsstring) :=
  r3 <- openaiChatWithRetry E (fallback_payload userText) fallback_options ;;
  match r3 with
  | inr choice => ret (answer_of choice)
  | inl _ => ret None
  end.

Definition askOpenAIForLaborHelp (E : env) (userText : jsstring)
           (mode : ai_mode) : M (option jsstring) :=
  if negb (openai E) then ret None
  else
    r1 <- openaiChatWithRetry E (first_payload mode userText)
                              (first_options mode) ;;
    match r1 with
    | inr choice => ret (answer_of choice)
    | inl _ =>
      match mode with
      | Detailed =>
        r2 <- openaiChatWithRetry E (reduced_payload userText)
                                  reduced_options ;;
        match r2 with
        | inr choice => ret (answer_of choice)
        | inl _ => concise_fallback E userText
        end
      | Concise => concise_fallback E userText
      end
    end.

(** The delay before the retry that follows attempt number [attempt], with
    random draw number [draw]. *)
Definition backoff_delay (E : env) (attempt draw : nat) : Z :=
  baseDelay * 2 ^ Z.of_nat attempt + Qfloor (Math_random E draw * 200).

(** What a chain that retries [k] times does, from attempt number [attempt]
    and random draw number [draw] on. *)
Fixpoint chain_events (E : env) (lbl : jsstring) (payload : chat_payload)
         (tmo : Z) (attempt draw k : nat) : list io_event :=
  Call lbl payload tmo ::
  match k with
  | O => []
  | S k' =>
    Sleep (backoff_delay E attempt draw)
    :: chain_events E lbl payload tmo (S attempt) (S draw) k'
  end.

Definition after_chain (E : env) (payload : chat_payload)
           (opts : retry_options) (w : world) (k : nat) : world :=
  mkWorld (calls w + S k) (draws w + k)
          (trace w ++ chain_events E (label opts) payload (timeout opts)
                                   O (draws w) k).

(** A chain of [k] retries with result [r]: the first [k] calls fail with a
    retriable error, and the next call succeeds, or fails for good because
    the error is not retriable or no retry is left. *)
Definition chain_run (E : env) (payload : chat_payload) (tmo : Z)
           (budget : nat) (w : world) (k : nat)
           (r : api_error + option jsstring) : Prop :=
  (k <= budget)%nat
  /\ (forall i, (i < k)%nat ->
        exists err, chat_completions_create E (calls w + i) payload tmo
                    = Rejected err /\ retriable err = true)
  /\ match chat_completions_create E (calls w + k) payload tmo with
     | Resolved res => r = inr res
     | Rejected err => r = inl err /\ (retriable err = false \/ k = budget)
     end.

(** An OpenAI that times out on every call. *)
Definition timeouts_env : env :=
  mkEnv [] [] true
        (fun _ _ _ => Rejected (mkError (utf16 "Request timed out.") None))
        (fun _ => 1 # 2)%Q.

(* ================================================================== *)
(** ** The webhook handler ([app.post("/webhook", ...)], one event)

    Quick-reply suggestions ride along with a message and do not decide
    which message is sent; they are left out. [replyText] and [pushText]
    send [ensureLineLength(text)]; a failed send is caught and logged there,
    so the handler goes on in the same way. *)

Inductive message : Type :=
| TextMessage (text : jsstring)
| OtherMessage.

Inductive event_type : Type :=
| Follow
| MessageEvent (message : message)
| OtherEvent.

Record source : Type := mkSource {
  userId : option jsstring;
  groupId : option jsstring;
  roomId : option jsstring
}.

Record event : Type := mkEvent {
  replyToken : jsstring;
  type : event_type;
  event_source : option source
}.

Definition verify_token : jsstring := utf16 "00000000000000000000000000000000".

Definition nonempty (o : option jsstring) : option jsstring :=
  match o with
  | Some s => if is_empty s then None else Some s
  | None => None
  end.

Definition or_else (a b : option jsstring) : option jsstring :=
  match nonempty a with Some s => Some s | None => b end.

(** [s.userId || s.groupId || s.roomId || null]. *)
Definition getSourceId (ev : event) : option jsstring :=
  match event_source ev with
  | Some s => or_else (userId s) (or_else (groupId s) (nonempty (roomId s)))
  | None => None
  end.

Definition replyText (replyToken : jsstring) (text : body) : M unit :=
  emit (ReplyText replyToken text).

Definition pushText (to : jsstring) (text : body) : M unit :=
  emit (PushText to text).

Definition sendFunctionMenu (replyToken : jsstring) : M unit :=
  emit (ReplyFlex replyToken FunctionMenu).

Definition sendOtFlex (replyToken : jsstring) : M unit :=
  emit (ReplyFlex replyToken OtFlex).

Definition is_text (s : jsstring) (lit : string) : bool := str_eqb s (utf16 lit).
Arguments is_text s lit%_string.

(** The prompt built when an article has no local record. *)
Definition article_prompt (articleNo : Z) : jsstring :=
  utf16 "請用簡短白話說明台灣《勞動基準法》第 " ++ decimal articleNo
  ++ utf16 " 條的大意與保護重點，約 3~5 句即可。".

(** [raw.replace(/^(詳細|進階)/, "")]. *)
Definition strip_detail_marker (raw : jsstring) : jsstring :=
  match strip_prefix (utf16 "詳細") raw with
  | Some r => r
  | None =>
    match strip_prefix (utf16 "進階") raw with
    | Some r => r
    | None => raw
    end
  end.

(** The test [lowerTrimmed.startsWith("ai/") || lowerTrimmed.startsWith("ai+")]. *)
Definition has_ai_prefix (userText : jsstring) : bool :=
  let lowerTrimmed := toLowerCase (trim userText) in
  startsWith lowerTrimmed (utf16 "ai/") || startsWith lowerTrimmed (utf16 "ai+").

(** The constants [raw], [isDetailed] and [aiQuestion] of the AI branch. *)
Definition ai_raw (trimmed : jsstring) : jsstring :=
  trim (slice_from trimmed 3).

Definition ai_isDetailed (trimmed : jsstring) : bool :=
  startsWith (ai_raw trimmed) (utf16 "詳細")
  || startsWith (ai_raw trimmed) (utf16 "進階").

Definition ai_aiQuestion (trimmed : jsstring) : jsstring :=
  if ai_isDetailed trimmed then trim (strip_detail_marker (ai_raw trimmed))
  else ai_raw trimmed.

(** The text pushed after the acknowledgement. *)
Definition ai_body (E : env) (isDetailed : bool) (aiQuestion : jsstring)
  : M body :=
  if negb (openai E) then ret (AiNoKeyText aiQuestion)
  else
    aiAnswer <- askOpenAIForLaborHelp E aiQuestion
                  (if isDetailed then Detailed else Concise) ;;
    match nonempty aiAnswer with
    | Some a => ret (AiAnswerText isDetailed a)
    | None => ret (AiFailedText aiQuestion)
    end.

(** The branch of the commands [ai/] and [ai+]. *)
Definition ai_branch (E : env) (ev : event) (trimmed : jsstring) : M unit :=
  let isDetailed := ai_isDetailed trimmed in
  let aiQuestion := ai_aiQuestion trimmed in
  if is_empty aiQuestion then replyText (replyToken ev) AiUsageText
  else
    replyText (replyToken ev) AiThinkingText ;;;
    let to := getSourceId ev in
    text <- ai_body E isDetailed aiQuestion ;;
    match to with
    | Some id => pushText id text
    | None => replyText (replyToken ev) text
    end.

(** The end of the handler: FAQ, article keyword, and OpenAI as the last
    resort. *)
Definition fuzzy_branches (E : env) (ev : event) (userText : jsstring)
  : M unit :=
  match findBestFaq (faqs E) userText with
  | Some matchedFaq => replyText (replyToken ev) (FaqText matchedFaq)
  | None =>
    match findArticleByKeyword (articles E) userText with
    | Some matchedArticle =>
      replyText (replyToken ev) (ArticleText (no matchedArticle) matchedArticle)
    | None =>
      aiAnswer <- askOpenAIForLaborHelp E userText Concise ;;
      match nonempty aiAnswer with
      | Some a => replyText (replyToken ev) (AiFallbackText a)
      | None => replyText (replyToken ev) (GuidanceText userText)
      end
    end
  end.

(** [if (articleNo) { ... return; }]: a number that is not zero. *)
Definition article_branch (E : env) (ev : event) (userText : jsstring)
  : M unit :=
  match extractArticleNumber userText with
  | Some n =>
    if n =? 0 then fuzzy_branches E ev userText
    else
      match findArticleByNumber (articles E) n with
      | Some articleData => replyText (replyToken ev) (ArticleText n articleData)
      | None =>
        aiAnswer <- askOpenAIForLaborHelp E (article_prompt n) Concise ;;
        match nonempty aiAnswer with
        | Some a => replyText (replyToken ev) (ArticleAiText n a)
        | None => replyText (replyToken ev) (ArticleMissingText n)
        end
      end
  | None => fuzzy_branches E ev userText
  end.

(** The calculator commands and the function and category commands. *)
Definition command_branches (E : env) (ev : event) (userText : jsstring)
  : M unit :=
  let normalized := normalize userText in
  if is_text normalized "試算加班費" then sendOtFlex (replyToken ev)
  else if startsWith normalized (utf16 "試算加班費")
          && includes normalized (utf16 "說明")
  then replyText (replyToken ev) OtHelpText
  else if startsWith normalized (utf16 "試算加班費 ") then
    let params := parseOtArgs userText in
    match computeOtPay params with
    | OtFailure message => replyText (replyToken ev) (OtErrorText message)
    | OtSuccess message => replyText (replyToken ev) (OtResultText message)
    end
  else if is_text normalized "再試一筆" then sendOtFlex (replyToken ev)
  else if is_text normalized "功能" || is_text normalized "help"
          || is_text normalized "使用說明"
  then sendFunctionMenu (replyToken ev)
  else if is_text normalized "加班相關"
  then replyText (replyToken ev) OvertimeExamplesText
  else if is_text normalized "特休相關" || is_text normalized "休假相關"
  then replyText (replyToken ev) LeaveExamplesText
  else if is_text normalized "離職相關" || is_text normalized "資遣相關"
          || is_text normalized "離職資遣相關"
  then replyText (replyToken ev) ResignExamplesText
  else article_branch E ev userText.

(** A text message. *)
Definition handle_text (E : env) (ev : event) (userText : jsstring) : M unit :=
  let trimmed := trim userText in
  if has_ai_prefix userText then ai_branch E ev trimmed
  else command_branches E ev userText.

(** The callback of [events.map]. *)
Definition handle_event (E : env) (ev : event) : M unit :=
  if str_eqb (replyToken ev) verify_token then ret tt
  else
    match type ev with
    | Follow => replyText (replyToken ev) WelcomeText
    | MessageEvent (TextMessage userText) => handle_text E ev userText
    | _ => ret tt
    end.

(** What one event makes the bot send. *)
Definition is_send (e : io_event) : bool :=
  match e with
  | ReplyText _ _ | PushText _ _ | ReplyFlex _ _ => true
  | _ => false
  end.

Definition sends (E : env) (ev : event) : list io_event :=
  filter is_send (trace (snd (handle_event E ev initial_world))).

(** The commands with a fixed template and what each is answered. *)
Definition exact_command_reply (normalized : jsstring) (tok : jsstring)
  : option io_event :=
  if is_text normalized "功能" || is_text normalized "help"
     || is_text normalized "使用說明"
  then Some (ReplyFlex tok FunctionMenu)
  else if is_text normalized "加班相關"
  then Some (ReplyText tok OvertimeExamplesText)
  else if is_text normalized "特休相關" || is_text normalized "休假相關"
  then Some (ReplyText tok LeaveExamplesText)
  else if is_text normalized "離職相關" || is_text normalized "資遣相關"
          || is_text normalized "離職資遣相關"
  then Some (ReplyText tok ResignExamplesText)
  else None.

(** The calculator commands without arguments and what each is answered. *)
Definition calculator_command_reply (normalized : jsstring) (tok : jsstring)
  : option io_event :=
  if is_text normalized "試算加班費" then Some (ReplyFlex tok OtFlex)
  else if startsWith normalized (utf16 "試算加班費")
          && includes normalized (utf16 "說明")
  then Some (ReplyText tok OtHelpText)
  else if is_text normalized "再試一筆" then Some (ReplyFlex tok OtFlex)
  else None.

(** No calculator command and no function or category command applies. *)
Definition no_command (normalized : jsstring) : bool :=
  negb (is_text normalized "試算加班費")
  && negb (startsWith normalized (utf16 "試算加班費")
           && includes normalized (utf16 "說明"))
  && negb (startsWith normalized (utf16 "試算加班費 "))
  && negb (is_text normalized "再試一筆")
  && negb (is_text normalized "功能" || is_text normalized "help"
           || is_text normalized "使用說明")
  && negb (is_text normalized "加班相關")
  && negb (is_text normalized "特休相關" || is_text normalized "休假相關")
  && negb (is_text normalized "離職相關" || is_text normalized "資遣相關"
           || is_text normalized "離職資遣相關").

Definition exact_commands : list string :=
  ["功能"; "help"; "使用說明"; "加班相關"; "特休相關"; "休假相關";
   "離職相關"; "資遣相關"; "離職資遣相關"]%string.

(** [m], run in [w], sends exactly [out]. *)
Definition grows {A : Type} (m : M A) (w : world) (out : list io_event) : Prop :=
  filter is_send (trace (snd (m w))) = filter is_send (trace w) ++ out.

(** The text that [fuzzy_branches] replies with. *)
Definition fuzzy_reply (E : env) (userText : jsstring) (w : world) : body :=
  match findBestFaq (faqs E) userText with
  | Some matchedFaq => FaqText matchedFaq
  | None =>
    match findArticleByKeyword (articles E) userText with
    | Some matchedArticle => ArticleText (no matchedArticle) matchedArticle
    | None =>
      match nonempty (fst (askOpenAIForLaborHelp E userText Concise w)) with
      | Some a => AiFallbackText a
      | None => GuidanceText userText
      end
    end
  end.

(** The text that [article_branch] replies with. *)
Definition article_reply (E : env) (userText : jsstring) (w : world) : body :=
  match extractArticleNumber userText with
  | Some n =>
    if n =? 0 then fuzzy_reply E userText w
    else
      match findArticleByNumber (articles E) n with
      | Some articleData => ArticleText n articleData
      | None =>
        match nonempty (fst (askOpenAIForLaborHelp E (article_prompt n)
                                                   Concise w)) with
        | Some a => ArticleAiText n a
        | None => ArticleMissingText n
        end
      end
  | None => fuzzy_reply E userText w
  end.

(** How the AI branch delivers its answer. *)
Definition ai_send (ev : event) (text : body) : io_event :=
  match getSourceId ev with
  | Some id => PushText id text
  | None => ReplyText (replyToken ev) text
  end.

(** An OpenAI that answers every call, and one article on file. *)
Definition answering_env : env :=
  mkEnv [mkArticle 24 (utf16 "延長工時工資") (utf16 "加班費") (Some [utf16 "加班費"])]
        []
        true
        (fun _ _ _ => Resolved (Some (utf16 "平日加班前兩小時加給三分之一。")))
        (fun _ => 1 # 2)%Q.

Definition text_event (src : option source) (text : string) : event :=
  mkEvent (utf16 "token") (MessageEvent (TextMessage (utf16 text))) src.
Arguments text_event src text%_string.

Definition user_source : source := mkSource (Some (utf16 "U1")) None None.

(* ================================================================== *)
(** ** Names used by the properties of the calculator and of the links *)

(** The four fields of hours and wage, and the rate aliases in Chinese. *)
Definition hour_fields : list jsstring :=
  [utf16 "hourly"; utf16 "weekday"; utf16 "rest"; utf16 "holiday"].

Definition chinese_rate_aliases : list jsstring :=
  [utf16 "平日倍數1"; utf16 "平日倍數2"; utf16 "休息日倍數"; utf16 "假日倍數"].

(** The page of one article. *)
Definition single_article_url : jsstring :=
  utf16 "https://law.moj.gov.tw/LawClass/LawSingle.aspx?pcode=N0030001&flno=".

(** The line of one link. *)
Definition link_line (n : Z) : jsstring :=
  utf16 "• 第 " ++ decimal n ++ utf16 " 條：" ++ single_article_url ++ decimal n.

(* ================================================================== *)
(** ** What a run costs: completion calls and pauses *)

Definition is_call (e : io_event) : bool :=
  match e with Call _ _ _ => true | _ => false end.

Definition is_sleep (e : io_event) : bool :=
  match e with Sleep _ => true | _ => false end.

(** The pause before a first retry: a second and a jitter below 200. *)
Definition short_pause (e : io_event) : Prop :=
  match e with Sleep d => 1000 <= d < 1200 | _ => True end.

Definition sleep_time (e : io_event) : Z :=
  match e with Sleep d => d | _ => 0 end.

Definition total_sleep (out : list io_event) : Z :=
  fold_right (fun e acc => sleep_time e + acc) 0 out.

(** At most [max_calls] completion calls and [max_sleeps] pauses, each of
    them short. *)
Definition within_budget (max_calls max_sleeps : nat) (out : list io_event)
  : Prop :=
  (length (filter is_call out) <= max_calls)%nat
  /\ (length (filter is_sleep out) <= max_sleeps)%nat
  /\ Forall short_pause out.

(** [m], run in [w], appends exactly [out] to the trace. *)
Definition adds {A : Type} (m : M A) (w : world) (out : list io_event) : Prop :=
  trace (snd (m w)) = trace w ++ out.

(** The calls of a concise request: the concise prompt, 360 or 320 tokens. *)
Definition concise_call (e : io_event) : Prop :=
  match e with
  | Call _ payload _ =>
    system_prompt payload = Concise
    /\ (max_tokens payload = 360 \/ max_tokens payload = 320)
  | _ => True
  end.

Definition call_budget (mode : ai_mode) : nat :=
  match mode with Detailed => 6%nat | Concise => 4%nat end.

Definition sleep_budget (mode : ai_mode) : nat :=
  match mode with Detailed => 3%nat | Concise => 2%nat end.

(** Whatever the world [m] starts in, the events it appends stay within the
    budget. *)
Definition costs {A : Type} (max_calls max_sleeps : nat) (m : M A) : Prop :=
  forall w, exists out, adds m w out /\ within_budget max_calls max_sleeps out.

(** Every draw of [Math.random] lies in [[0, 1)]. *)
Definition random_in_unit (E : env) : Prop :=
  forall i, (0 <= Math_random E i)%Q /\ (Math_random E i < 1)%Q.

(* ================================================================== *)
(** ** What the handler may send *)

(** The replies of the commands that need no lookup. *)
Definition menu_events (tok : jsstring) : list io_event :=
  [ReplyFlex tok OtFlex; ReplyText tok OtHelpText; ReplyFlex tok FunctionMenu;
   ReplyText tok OvertimeExamplesText; ReplyText tok LeaveExamplesText;
   ReplyText tok ResignExamplesText].

(** The result or the refusal of the calculator. *)
Definition is_calculation (b : body) : bool :=
  match b with
  | OtErrorText _ | OtResultText _ => true
  | _ => false
  end.

(** A text that agrees with the data it is built from: an article text
    shows a record on file under the number of that record, a reply about
    an article without record names an article from 1 to 999, and an answer
    of the model is not empty. *)
Definition consistent_body (E : env) (b : body) : Prop :=
  match b with
  | ArticleText n a => In a (articles E) /\ no a = n
  | ArticleAiText n a => 1 <= n <= 999 /\ a <> []
  | ArticleMissingText n => 1 <= n <= 999
  | AiAnswerText _ a => a <> []
  | AiFallbackText a => a <> []
  | _ => True
  end.

Definition sound_body (E : env) (b : body) : Prop :=
  is_calculation b = false /\ consistent_body E b.

Definition body_of (e : io_event) : option body :=
  match e with
  | ReplyText _ b => Some b
  | PushText _ b => Some b
  | _ => None
  end.

Definition sound_event (E : env) (e : io_event) : Prop :=
  match body_of e with
  | Some b => sound_body E b
  | None => True
  end.

(* ================================================================== *)
(** ** Quick replies ([toQuickReplyItems], [buildSuggestions]) *)

(** An element of [suggestions]: a string, or an object whose properties
    [label] and [text] may be absent. *)
Inductive suggestion : Type :=
| SuggestionString (s : jsstring)
| SuggestionObject (lbl txt : option jsstring).

(** [{ type: "action", action: { type: "message", label, text } }]. *)
Record quick_reply_item : Type := mkItem {
  action_label : jsstring;
  action_text : jsstring
}.

(** The body of the loop of [toQuickReplyItems]: the items one suggestion
    contributes. *)
Definition item_of (s : suggestion) : list quick_reply_item :=
  let lbl :=
    match s with
    | SuggestionString x => Some x
    | SuggestionObject l _ => l
    end in
  let txt :=
    match s with
    | SuggestionString x => Some x
    | SuggestionObject l t => or_else t l
    end in
  match nonempty lbl, nonempty txt with
  | Some l, Some t => [mkItem l t]
  | _, _ => []
  end.

Definition toQuickReplyItems (suggestions : list suggestion)
  : list quick_reply_item :=
  flat_map item_of (firstn 4 suggestions).

(** An object [{ label, text }] that [buildSuggestions] pushes. *)
Record labelled : Type := mkLabelled {
  label_of : jsstring;
  text_of : jsstring
}.

Definition labelled_text (l t : string) : labelled :=
  mkLabelled (utf16 l) (utf16 t).
Arguments labelled_text (l t)%_string.

Definition as_suggestion (x : labelled) : suggestion :=
  SuggestionObject (Some (label_of x)) (Some (text_of x)).

(** The argument [ctx]: [ai] holds [forced] and [mode]. *)
Record suggestion_context : Type := mkContext {
  ctx_articleNo : option Z;
  ctx_matchedArticle : option article;
  ctx_matchedFaq : option faq;
  ctx_ai : option (bool * ai_mode)
}.

Definition no_context : suggestion_context := mkContext None None None None.

(** [ctx.articleNo || ctx.matchedArticle?.no], when it is truthy. *)
Definition context_no (ctx : suggestion_context) : option Z :=
  let second := option_map no (ctx_matchedArticle ctx) in
  let first :=
    match ctx_articleNo ctx with
    | Some n => if n =? 0 then second else Some n
    | None => second
    end in
  match first with
  | Some n => if n =? 0 then None else Some n
  | None => None
  end.

(** [userText.replace(/^ai\/|^ai\+/i, "")]. *)
Definition strip_ai_prefix (userText : jsstring) : jsstring :=
  if startsWith (toLowerCase userText) (utf16 "ai/")
     || startsWith (toLowerCase userText) (utf16 "ai+")
  then slice_from userText 3
  else userText.

(** The texts that ask for an article: [查勞基法第${no}條] and
    [ai/白話解釋 勞基法第${no}條]. *)
Definition official_query (n : Z) : jsstring :=
  utf16 "查勞基法第" ++ decimal n ++ utf16 "條".

Definition explain_query (n : Z) : jsstring :=
  utf16 "ai/白話解釋 勞基法第" ++ decimal n ++ utf16 "條".

(** [`${item.label}|${item.text}`]. *)
Definition key_of (item : labelled) : jsstring :=
  label_of item ++ utf16 "|" ++ text_of item.

(** The last loop of [buildSuggestions]: the first occurrence of each key,
    until four items are out. *)
Fixpoint dedupe (s : list labelled) (seen : list jsstring)
         (out : list labelled) : list labelled :=
  match s with
  | [] => out
  | item :: s' =>
    if name_in (key_of item) seen then dedupe s' seen out
    else if (4 <=? length (out ++ [item]))%nat then out ++ [item]
         else dedupe s' (seen ++ [key_of item]) (out ++ [item])
  end.

(** The array [s] before the fallback and the loop. *)
Definition pushed (userText : jsstring) (ctx : suggestion_context)
  : list labelled :=
  let t := toLowerCase userText in
  (if any_includes t [utf16 "加班"; utf16 "超時"; utf16 "工時"]
   then [labelled_text "試算加班費" "試算加班費";
         labelled_text "查第24條" "查勞基法第24條"]
   else [])
  ++ (if any_includes t [utf16 "特休"; utf16 "年假"; utf16 "休假"]
      then [labelled_text "查第38條" "查勞基法第38條";
            labelled_text "AI 白話解釋特休" "ai/特休怎麼算"]
      else [])
  ++ (if any_includes t [utf16 "資遣"; utf16 "離職"; utf16 "遣散"]
      then [labelled_text "查資遣條文" "查勞基法第11條";
            labelled_text "AI 問通知期" "ai/公司資遣多久前要通知"]
      else [])
  ++ (if any_includes t [utf16 "薪資"; utf16 "工資"; utf16 "勞保"; utf16 "投保"]
      then [labelled_text "AI 詢問薪資保障" "ai/雇主可否低報薪資"]
      else [])
  ++ match context_no ctx with
     | Some n =>
       [mkLabelled (utf16 "AI 白話解釋這條") (explain_query n);
        mkLabelled (utf16 "看官方條文") (official_query n)]
       ++ (if n + 1 <=? 86
           then [mkLabelled (utf16 "看第" ++ decimal (n + 1) ++ utf16 "條")
                            (official_query (n + 1))]
           else [])
     | None => []
     end
  ++ match ctx_matchedFaq ctx, context_no ctx with
     | Some _, None =>
       [mkLabelled (utf16 "AI 換個說法") (utf16 "ai/" ++ userText);
        labelled_text "試試條文搜尋" "第 24 條"]
     | _, _ => []
     end
  ++ match ctx_ai ctx with
     | Some (true, Detailed) =>
       [mkLabelled (utf16 "改簡短版") (utf16 "ai/" ++ strip_ai_prefix userText)]
     | Some (true, Concise) =>
       [mkLabelled (utf16 "看進階解析")
                   (utf16 "ai/詳細 " ++ strip_ai_prefix userText)]
     | _ => [mkLabelled (utf16 "交給 AI 試試") (utf16 "ai/" ++ userText)]
     end.

Definition buildSuggestions (userText : jsstring) (ctx : suggestion_context)
  : list labelled :=
  let s := pushed userText ctx in
  let s :=
    if (length s <? 3)%nat then s ++ [labelled_text "功能選單" "功能"] else s in
  dedupe s [] [].

(** Both strings of an item are non-empty. *)
Definition filled (x : labelled) : bool :=
  negb (is_empty (label_of x)) && negb (is_empty (text_of x)).

(** The message that [replyText] and [pushText] hand to the client:
    [{ type: "text", text: ensureLineLength(text) }], with [quickReply] set
    when there is an item. *)
Record text_message : Type := mkMessage {
  message_text : jsstring;
  quickReply : option (list quick_reply_item)
}.

Definition text_message_of (text : jsstring) (suggestions : list suggestion)
  : text_message :=
  let items := toQuickReplyItems suggestions in
  mkMessage (ensureLineLength text)
            (if (length items =? 0)%nat then None else Some items).

(* ================================================================== *)
(** ** The buttons of the two Flex cards ([sendFunctionMenu], [sendOtFlex]) *)

(** The message actions of the function menu, in order: label and text. *)
Definition function_menu_buttons : list labelled :=
  [labelled_text "加班問題" "加班相關";
   labelled_text "特休 / 請假" "特休相關";
   labelled_text "離職 / 資遣" "離職相關";
   labelled_text "AI 一般解析" "ai/我想問加班的問題";
   labelled_text "AI 進階解析" "ai/詳細 公司資遣多久前要通知？";
   labelled_text "加班費試算器" "試算加班費"].

(** The message actions of the calculator card. *)
Definition ot_flex_buttons : list labelled :=
  [labelled_text "範例一（時薪183，平日2hr）" "試算加班費 時薪=183 平日=2";
   labelled_text "範例二（時薪200，休息日4hr）" "試算加班費 時薪=200 休息日=4";
   labelled_text "看文字說明" "試算加班費 說明"].

(* ================================================================== *)
(** * Properties *)

(* ================================================================== *)
(** ** The reply-length guard *)

Lemma marker_length : length truncation_marker = 7%nat.
Proof. reflexivity. Qed.

(** C9. A text longer than the limit of 4500 units is cut to its first 4500
    units followed by the truncation marker: the result ends with the
    marker, is 4507 units long and keeps the head of the original. A text
    at or under the limit passes unchanged. *)
Theorem ensureLineLength_truncates_or_keeps (s : jsstring) :
  ((line_limit < length s)%nat ->
     ensureLineLength s = slice_to s line_limit ++ truncation_marker
     /\ length (ensureLineLength s) = (line_limit + length truncation_marker)%nat
     /\ skipn line_limit (ensureLineLength s) = truncation_marker
     /\ firstn line_limit (ensureLineLength s) = firstn line_limit s)
  /\ ((length s <= line_limit)%nat -> ensureLineLength s = s).
Proof.
  unfold ensureLineLength, ensureLineLength_at, slice_to.
  split; intros H.
  - assert (Hlen : length (firstn line_limit s) = line_limit)
      by (rewrite length_firstn; lia).
    apply Nat.ltb_lt in H as Hb.
    destruct s as [|c s']; [simpl in H; unfold line_limit in H; lia|].
    rewrite Hb.
    repeat split.
    + rewrite length_app, Hlen. reflexivity.
    + rewrite skipn_app, Hlen, Nat.sub_diag.
      rewrite skipn_all2 by lia. reflexivity.
    + rewrite firstn_app, Hlen, Nat.sub_diag.
      rewrite firstn_all2 by lia. simpl. rewrite app_nil_r. reflexivity.
  - destruct s as [|c s']; [reflexivity|].
    apply Nat.ltb_ge in H. rewrite H. reflexivity.
Qed.

(** C9 on a text of 4501 units and on one of 4500. *)
Lemma ensureLineLength_witness :
  (line_limit < length (repeat 97%Z 4501))%nat
  /\ length (ensureLineLength (repeat 97%Z 4501)) = 4507%nat
  /\ (length (repeat 97%Z 4500) <= line_limit)%nat
  /\ ensureLineLength (repeat 97%Z 4500) = repeat 97%Z 4500.
Proof.
  assert (H1 : (line_limit < length (repeat 97%Z 4501))%nat)
    by (apply Nat.ltb_lt; vm_compute; reflexivity).
  assert (H2 : (length (repeat 97%Z 4500) <= line_limit)%nat)
    by (apply Nat.leb_le; vm_compute; reflexivity).
  split; [exact H1|].
  split; [exact (proj1 (proj2 (proj1 (ensureLineLength_truncates_or_keeps _) H1)))|].
  split; [exact H2|].
  exact (proj2 (ensureLineLength_truncates_or_keeps _) H2).
Defined.

(* ================================================================== *)
(** ** The calculator: tiers and the wage check *)

Local Open Scope Q_scope.

Lemma truthy_pos (q : Q) : 0 < q -> truthy (Num q) = true.
Proof.
  intros H. simpl. destruct (Qeq_bool q 0) eqn:E; [|reflexivity].
  apply Qeq_bool_eq in E. lra.
Qed.

Lemma js_le_zero (q : Q) : js_le (Num q) (Num 0) = true <-> q <= 0.
Proof. simpl. apply Qle_bool_iff. Qed.

(** [Math.max(0, x || 0)] on a number. *)
Lemma clamp_num (x : Q) :
  exists a, Math_max (Num 0) (js_or (Num x) (Num 0)) = Num a
            /\ 0 <= a /\ a == Qmax 0 x.
Proof.
  unfold js_or, truthy. destruct (Qeq_bool x 0) eqn:E; simpl.
  - apply Qeq_bool_eq in E. exists (Qmax 0 0). split; [reflexivity|].
    split; [apply Q.le_max_l|]. rewrite E. reflexivity.
  - exists (Qmax 0 x). split; [reflexivity|].
    split; [apply Q.le_max_l|reflexivity].
Qed.





(** The example of the specification: 183 * 2 * 1.33 = 486.78 is shown as
    487. *)
Example weekday_two_hours_rounds_to_487 :
  computeOtPay (parseOtArgs (utf16 "試算加班費 時薪=183 平日=2"))
  = OtSuccess
      [LineTitle; LineRule; LineWage (Num 183);
       LineWeekday (Num 2) (Num (133 # 100)) (Num (166 # 100));
       LineRest (Num 0) (Num 2); LineHoliday (Num 0) (Num 2);
       LineBlank; LineSubtotals;
       LineWeekdayPay (Num 487); LineRestPay (Num 0); LineHolidayPay (Num 0);
       LineBlank; LineTotal (Num 487); LineBlank; LineDisclaimer].
Proof. vm_compute. reflexivity. Qed.



(* ================================================================== *)
(** ** The calculator: what [parseOtArgs] can produce *)

Lemma take_while_split (p : Z -> bool) (s a r : jsstring) :
  take_while p s = (a, r) -> s = a ++ r /\ forallb p a = true.
Proof.
  revert a r. induction s as [|c s IH]; intros a r H; simpl in H.
  - injection H as <- <-. split; reflexivity.
  - destruct (p c) eqn:Pc.
    + destruct (take_while p s) as [a' r'] eqn:T.
      injection H as <- <-. destruct (IH a' r' eq_refl) as [-> Hf].
      split; [reflexivity|]. simpl. rewrite Pc, Hf. reflexivity.
    + injection H as <- <-. split; reflexivity.
Qed.

Lemma digits_value_acc_nonneg (ds : jsstring) (acc : Z) :
  forallb is_digit ds = true -> (0 <= acc)%Z ->
  (0 <= fold_left (fun a d => a * 10 + (d - 48)) ds acc)%Z.
Proof.
  revert acc. induction ds as [|d ds IH]; intros acc Hd Ha; simpl; [exact Ha|].
  simpl in Hd. apply andb_true_iff in Hd as [Hd1 Hd2].
  apply IH; [exact Hd2|].
  unfold is_digit in Hd1. lia.
Qed.

Lemma digits_value_nonneg (ds : jsstring) :
  forallb is_digit ds = true -> (0 <= digits_value ds)%Z.
Proof. intros H. apply digits_value_acc_nonneg; [exact H|lia]. Qed.

Lemma forallb_app_l {A} (p : A -> bool) (a b : list A) :
  forallb p (a ++ b) = true -> forallb p a = true /\ forallb p b = true.
Proof. rewrite forallb_app. apply andb_true_iff. Qed.

(** Without a sign and without an exponent letter the value read is not
    negative. *)
Lemma parseFloat_digits_dot (s : jsstring) :
  forallb digit_or_dot s = true -> nonneg_or_NaN (parseFloat s).
Proof.
  intros Hs. unfold parseFloat.
  assert (Ht : trimStart s = s).
  { destruct s as [|c s']; [reflexivity|]. simpl in *.
    apply andb_true_iff in Hs as [Hc _].
    replace (is_ws c) with false; [reflexivity|].
    unfold digit_or_dot, is_digit in Hc. unfold is_ws. lia. }
  rewrite Ht.
  assert (Hsign : read_sign s = (false, s)).
  { destruct s as [|c s']; [reflexivity|]. simpl in *.
    apply andb_true_iff in Hs as [Hc _].
    unfold digit_or_dot, is_digit in Hc.
    replace (c =? 45)%Z with false by lia.
    replace (c =? 43)%Z with false by lia. reflexivity. }
  rewrite Hsign.
  destruct (take_while is_digit s) as [ip r1] eqn:T1.
  apply take_while_split in T1 as [-> Hip].
  apply forallb_app_l in Hs as [_ Hr1].
  assert (F : exists fp r2, read_fraction r1 = (fp, r2)
                            /\ forallb is_digit fp = true
                            /\ forallb digit_or_dot r2 = true).
  { unfold read_fraction. destruct r1 as [|c r]; [exists [], []; auto|].
    destruct (c =? 46)%Z.
    - destruct (take_while is_digit r) as [fp r2] eqn:T2.
      apply take_while_split in T2 as [-> Hfp].
      simpl in Hr1. apply andb_true_iff in Hr1 as [_ Hr1].
      apply forallb_app_l in Hr1 as [_ Hr2].
      exists fp, r2. auto.
    - exists [], (c :: r). auto. }
  destruct F as (fp & r2 & -> & Hfp & Hr2).
  destruct (is_empty ip && is_empty fp); [exact I|].
  assert (He : read_exponent r2 = 0%Z).
  { unfold read_exponent. destruct r2 as [|c r]; [reflexivity|].
    simpl in Hr2. apply andb_true_iff in Hr2 as [Hc _].
    unfold digit_or_dot, is_digit in Hc.
    replace ((c =? 101) || (c =? 69))%Z with false by lia. reflexivity. }
  rewrite He. simpl.
  apply Qmult_le_0_compat.
  - change 0 with (inject_Z 0). rewrite <- Zle_Qle.
    apply digits_value_nonneg. rewrite forallb_app, Hip, Hfp. reflexivity.
  - apply Qpower_0_le. discriminate.
Qed.

Lemma keep_digits_dot_only (v : jsstring) :
  forallb digit_or_dot (keep_digits_dot v) = true.
Proof.
  unfold keep_digits_dot. apply forallb_forall. intros c Hc.
  apply filter_In in Hc as [_ Hc]. exact Hc.
Qed.

Lemma keep_digits_dot_no_minus (v : jsstring) :
  existsb (Z.eqb 45) (keep_digits_dot v) = false.
Proof.
  destruct (existsb (Z.eqb 45) (keep_digits_dot v)) eqn:E; [|reflexivity].
  apply existsb_exists in E as (c & Hc & Ec).
  apply Z.eqb_eq in Ec. subst c.
  pose proof (keep_digits_dot_only v) as H.
  rewrite forallb_forall in H. specialize (H _ Hc). discriminate.
Qed.

Lemma set_field_nonneg (key : jsstring) (q : Q) (p : ot_params) :
  0 <= q -> params_nonneg p -> params_nonneg (set_field key (Num q) p).
Proof.
  intros Hq (H1 & H2 & H3 & H4 & H5 & H6 & H7 & H8).
  unfold set_field.
  repeat match goal with
         | |- context [if ?b then _ else _] => destruct b
         end;
    unfold params_nonneg; simpl; repeat split; assumption.
Qed.

Lemma parse_token_nonneg (p : ot_params) (t : jsstring) :
  params_nonneg p -> params_nonneg (parse_token p t).
Proof.
  intros Hp. unfold parse_token.
  destruct (split_unit 61 t) as [|rawK [|rawV rest']]; try exact Hp.
  destruct (is_empty rawK); [exact Hp|].
  pose proof (parseFloat_digits_dot _ (keep_digits_dot_only rawV)) as Hv.
  destruct (parseFloat (keep_digits_dot rawV)) as [| |q]; simpl in Hv;
    try contradiction; cbn [Number_isNaN negb];
    repeat match goal with
           | |- context [if ?b then _ else _] => destruct b
           end;
    simpl; try exact Hp; apply set_field_nonneg; assumption.
Qed.

Lemma fold_tokens_nonneg (ts : list jsstring) (p : ot_params) :
  params_nonneg p -> params_nonneg (fold_left parse_token ts p).
Proof.
  revert p. induction ts as [|t ts IH]; intros p Hp; simpl; [exact Hp|].
  apply IH, parse_token_nonneg, Hp.
Qed.

Lemma parseOtArgs_params_nonneg (text : jsstring) :
  params_nonneg (parseOtArgs text).
Proof.
  unfold parseOtArgs. apply fold_tokens_nonneg.
  unfold params_nonneg, default_params; simpl. repeat split; discriminate.
Qed.

Lemma clamp_same (v : jsval) :
  nonneg_num v -> same_value (Math_max (Num 0) (js_or v (Num 0))) v.
Proof.
  destruct v as [| |q]; simpl; try contradiction. intros Hq.
  destruct (clamp_num q) as (a & Ea & _ & Ha).
  rewrite Ea. simpl. rewrite Ha. apply Q.max_r. exact Hq.
Qed.

(** C10. Whatever the command text, no field that [parseOtArgs] returns is
    negative: the coercion keeps digits and the decimal point only, so no
    minus sign reaches [parseFloat]. The clamp of [computeOtPay] therefore
    leaves the parsed hours as they are. *)
Theorem parseOtArgs_never_negative (text rawV : jsstring) :
  params_nonneg (parseOtArgs text)
  /\ same_value (wk (ot_locals (parseOtArgs text))) (weekday (parseOtArgs text))
  /\ same_value (rs (ot_locals (parseOtArgs text))) (rest (parseOtArgs text))
  /\ same_value (hd (ot_locals (parseOtArgs text))) (holiday (parseOtArgs text))
  /\ forallb digit_or_dot (keep_digits_dot rawV) = true
  /\ existsb (Z.eqb 45) (keep_digits_dot rawV) = false
  /\ nonneg_or_NaN (parseFloat (keep_digits_dot rawV)).
Proof.
  pose proof (parseOtArgs_params_nonneg text) as H.
  split; [exact H|].
  destruct H as (_ & H2 & H3 & H4 & _).
  split; [apply clamp_same, H2|].
  split; [apply clamp_same, H3|].
  split; [apply clamp_same, H4|].
  split; [apply keep_digits_dot_only|].
  split; [apply keep_digits_dot_no_minus|].
  apply parseFloat_digits_dot, keep_digits_dot_only.
Qed.

(** C6. The Chinese rate aliases never reach their rate field: each one
    contains an hour alias ([平日], [休息日], [假日]) that [mapKeys] tests first,
    without anchors. [平日倍數1=1.34] overwrites the weekday hours and leaves
    the rate at its default; the English forms do reach the rate fields. *)
Theorem parseOtArgs_rate_alias_shadowed :
  mapKeys (utf16 "平日倍數1") = utf16 "weekday"
  /\ mapKeys (utf16 "平日倍數2") = utf16 "weekday"
  /\ mapKeys (utf16 "休息日倍數") = utf16 "rest"
  /\ mapKeys (utf16 "假日倍數") = utf16 "holiday"
  /\ mapKeys (utf16 "WeekdayRate1") = utf16 "weekdayRate1"
  /\ mapKeys (utf16 "wkr2") = utf16 "weekdayRate2"
  /\ mapKeys (utf16 "restRate") = utf16 "restRate"
  /\ mapKeys (utf16 "HolidayRate") = utf16 "holidayRate"
  /\ parseOtArgs (utf16 "試算加班費 時薪=183 平日=3 平日倍數1=1.34 平日倍數2=1.67")
     = mkParams (Num 183) (parseFloat (utf16 "1.67")) (Num 0) (Num 0)
                (Num (133 # 100)) (Num (166 # 100)) (Num 2) (Num 2)
  /\ parseOtArgs (utf16 "試算加班費 時薪=183 平日=3 wkr1=1.34 wkr2=1.67")
     = mkParams (Num 183) (Num 3) (Num 0) (Num 0)
                (parseFloat (utf16 "1.34")) (parseFloat (utf16 "1.67"))
                (Num 2) (Num 2).
Proof. repeat split; vm_compute; reflexivity. Qed.

(* ================================================================== *)
(** ** Keyword lookup *)

Local Close Scope Q_scope.
Local Open Scope nat_scope.

(** C5, as worded, fails on a blank keyword: its normal form is the empty
    string, which occurs in every query, so the worded score is 1 and the
    record would be returned; the source skips it and returns nothing. *)
Lemma keyword_lookup_counterexample :
  spec_lookup keywords [blank_keyword_article] (utf16 "加班費")
  = Some blank_keyword_article
  /\ findArticleByKeyword [blank_keyword_article] (utf16 "加班費") = None.
Proof. split; vm_compute; reflexivity. Qed.

Lemma fold_score_acc (n : jsstring) (l : list jsstring) (acc : nat) :
  fold_left
    (fun score kwRaw =>
       let kw := normalize kwRaw in
       if is_empty kw then score
       else if includes n kw then S score else score) l acc
  = acc + length (filter (counted n) l).
Proof.
  revert acc. induction l as [|k l IH]; intros acc; simpl; [lia|].
  rewrite IH. unfold counted at 2.
  destruct (is_empty (normalize k)); simpl; [reflexivity|].
  destruct (includes n (normalize k)); simpl; lia.
Qed.

Lemma keyword_score_count (n : jsstring) (kws : option (list jsstring)) :
  keyword_score n kws = length (filter (counted n) (keyword_list kws)).
Proof.
  destruct kws as [l|]; [|reflexivity].
  unfold keyword_score. rewrite fold_score_acc. reflexivity.
Qed.

Lemma includes_empty_text (kw : jsstring) :
  is_empty kw = false -> includes [] kw = false.
Proof. destruct kw; [discriminate|reflexivity]. Qed.

Lemma counted_empty_text (k : jsstring) : counted [] k = false.
Proof.
  unfold counted. destruct (is_empty (normalize k)) eqn:E; cbn [negb andb].
  - reflexivity.
  - apply includes_empty_text, E.
Qed.

Lemma keyword_score_empty_text (kws : option (list jsstring)) :
  keyword_score [] kws = 0.
Proof.
  rewrite keyword_score_count.
  induction (keyword_list kws) as [|k l IH]; [reflexivity|].
  cbn [filter]. rewrite counted_empty_text. exact IH.
Qed.

Section BestMatch.
Context {A : Type} (kws : A -> option (list jsstring)) (n : jsstring).

Lemma state_ok_bound (seen : list A) (st : option A * nat) :
  state_ok kws n seen st ->
  Forall (fun r => keyword_score n (kws r) <= snd st) seen.
Proof.
  destruct st as [[b|] bs]; unfold state_ok; simpl.
  - intros (-> & _ & before & after & -> & Hb & Ha).
    apply Forall_app. split.
    + eapply Forall_impl; [|exact Hb]. simpl. intros; lia.
    + constructor; [lia|exact Ha].
  - intros (-> & H). eapply Forall_impl; [|exact H]. simpl. intros; lia.
Qed.

Lemma best_step_ok (seen : list A) (st : option A * nat) (r : A) :
  state_ok kws n seen st -> state_ok kws n (seen ++ [r]) (best_step kws n st r).
Proof.
  intros H. pose proof (state_ok_bound _ _ H) as B.
  unfold best_step.
  destruct (snd st <? keyword_score n (kws r)) eqn:C.
  - apply Nat.ltb_lt in C. unfold state_ok. simpl.
    split; [reflexivity|]. split; [lia|].
    exists seen, []. split; [reflexivity|]. split; [|constructor].
    eapply Forall_impl; [|exact B]. simpl. intros; lia.
  - apply Nat.ltb_ge in C.
    destruct st as [[b|] bs]; unfold state_ok in *; simpl in *.
    + destruct H as (-> & Hp & before & after & -> & Hb & Ha).
      split; [reflexivity|]. split; [exact Hp|].
      exists before, (after ++ [r]). split.
      * rewrite <- app_assoc. reflexivity.
      * split; [exact Hb|]. apply Forall_app. split; [exact Ha|].
        constructor; [exact C|constructor].
    + destruct H as (-> & H0). split; [reflexivity|].
      apply Forall_app. split; [exact H0|].
      constructor; [lia|constructor].
Qed.

Lemma fold_best_ok (records seen : list A) (st : option A * nat) :
  state_ok kws n seen st ->
  state_ok kws n (seen ++ records) (fold_left (best_step kws n) records st).
Proof.
  revert seen st. induction records as [|r records IH]; intros seen st H.
  - rewrite app_nil_r. exact H.
  - simpl. replace (seen ++ r :: records) with ((seen ++ [r]) ++ records)
      by (rewrite <- app_assoc; reflexivity).
    apply IH, best_step_ok, H.
Qed.

End BestMatch.

Lemma best_match_result {A : Type} (kws : A -> option (list jsstring))
      (records : list A) (text : jsstring) :
  lookup_result kws records text (best_match kws records text).
Proof.
  unfold best_match.
  destruct (is_empty text) eqn:E.
  - destruct text; [|discriminate]. unfold lookup_result. simpl.
    apply Forall_forall. intros r _. apply keyword_score_empty_text.
  - pose proof (fold_best_ok kws (normalize text) records [] (None, 0)) as H.
    simpl in H.
    destruct (fold_left (best_step kws (normalize text)) records (None, 0))
      as [[b|] bs].
    + unfold state_ok in H. simpl in H.
      destruct H as (-> & Hp & before & after & -> & Hb & Ha);
        [split; [reflexivity|constructor]|].
      replace (keyword_score (normalize text) (kws b) =? 0) with false
        by (symmetry; apply Nat.eqb_neq; lia).
      unfold lookup_result. exists before, after. auto.
    + unfold state_ok in H. simpl in H.
      destruct H as (_ & H); [split; [reflexivity|constructor]|].
      exact H.
Qed.

(** At most one answer fits [lookup_result]. *)
Lemma lookup_result_unique {A : Type} (kws : A -> option (list jsstring))
      (records : list A) (text : jsstring) (r1 r2 : option A) :
  lookup_result kws records text r1 -> lookup_result kws records text r2 ->
  r1 = r2.
Proof.
  unfold lookup_result. cbv zeta.
  set (score := fun r => keyword_score (normalize text) (kws r)).
  assert (Clash : forall b (l : list A),
             0 < score b -> In b l -> Forall (fun r => score r = 0) l -> False).
  { intros b l Hp Hin Hz. rewrite Forall_forall in Hz.
    specialize (Hz b Hin). lia. }
  destruct r1 as [b1|], r2 as [b2|]; try reflexivity.
  - intros (bf1 & af1 & E1 & P1 & L1 & G1) (bf2 & af2 & E2 & P2 & L2 & G2).
    rewrite E1 in E2. rewrite Forall_forall in L1, L2, G1, G2.
    apply app_eq_app in E2 as (l & [[Ea Eb]|[Ea Eb]]).
    + destruct l as [|x l]; simpl in Eb; injection Eb as Hb Eb.
      * congruence.
      * subst x. exfalso.
        assert (I1 : In b2 bf1)
          by (rewrite Ea; apply in_or_app; right; left; reflexivity).
        assert (I2 : In b1 af2)
          by (rewrite Eb; apply in_or_app; right; left; reflexivity).
        specialize (L1 _ I1). specialize (G2 _ I2). simpl in *. lia.
    + destruct l as [|x l]; simpl in Eb; injection Eb as Hb Eb.
      * congruence.
      * subst x. exfalso.
        assert (I1 : In b1 bf2)
          by (rewrite Ea; apply in_or_app; right; left; reflexivity).
        assert (I2 : In b2 af1)
          by (rewrite Eb; apply in_or_app; right; left; reflexivity).
        specialize (L2 _ I1). specialize (G1 _ I2). simpl in *. lia.
  - intros (bf1 & af1 & E1 & P1 & _) Hz. exfalso.
    apply (Clash b1 records P1); [|exact Hz].
    rewrite E1. apply in_or_app. right. left. reflexivity.
  - intros Hz (bf2 & af2 & E2 & P2 & _). exfalso.
    apply (Clash b2 records P2); [|exact Hz].
    rewrite E2. apply in_or_app. right. left. reflexivity.
Qed.

(** C5, amended. The score of a record is the number of its keywords whose
    normal form is not empty and occurs in the normalized query. The lookup
    over the articles, and the one over the FAQ records, returns the first
    record of the highest score when that score is above zero, and nothing
    when every score is zero (in particular for no records). That answer is
    the only one: the same records and the same query always give it. *)
Theorem keyword_lookup_first_best
        (arts : list article) (fqs : list faq) (text : jsstring)
        (kws : option (list jsstring)) :
  keyword_score (normalize text) kws
  = length (filter (counted (normalize text)) (keyword_list kws))
  /\ lookup_result keywords arts text (findArticleByKeyword arts text)
  /\ lookup_result faq_keywords fqs text (findBestFaq fqs text)
  /\ (forall r, lookup_result keywords arts text r ->
                findArticleByKeyword arts text = r)
  /\ (forall r, lookup_result faq_keywords fqs text r ->
                findBestFaq fqs text = r).
Proof.
  split; [apply keyword_score_count|].
  split; [apply best_match_result|].
  split; [apply best_match_result|].
  split; intros r Hr;
    apply (lookup_result_unique _ _ text _ r (best_match_result _ _ _) Hr).
Qed.

(** C5 on a tie: both articles score 1 on the query, the first one is the
    answer. *)
Lemma keyword_lookup_first_best_witness :
  lookup_result keywords [overtime_article; leave_article] (utf16 "加班費 怎麼算")
                (Some overtime_article)
  /\ findArticleByKeyword [overtime_article; leave_article] (utf16 "加班費 怎麼算")
     = Some overtime_article.
Proof.
  assert (H : lookup_result keywords [overtime_article; leave_article]
                            (utf16 "加班費 怎麼算") (Some overtime_article)).
  { exists [], [leave_article]. split; [reflexivity|].
    split; [vm_compute; lia|]. split; [constructor|].
    constructor; [vm_compute; lia|constructor]. }
  split; [exact H|].
  destruct (keyword_lookup_first_best [overtime_article; leave_article] []
                                      (utf16 "加班費 怎麼算") None)
    as (_ & _ & _ & U & _).
  apply U, H.
Defined.

(* ================================================================== *)
(** ** Facts about the matchers *)

Local Open Scope Z_scope.

Lemma unit_eqb_eq (a b : Z) : unit_eqb a b = true <-> a = b.
Proof. apply Z.eqb_eq. Qed.

Lemma strip_prefix_spec (p s r : jsstring) :
  strip_prefix p s = Some r <-> s = p ++ r.
Proof.
  revert s. induction p as [|x p IH]; intros s; simpl.
  - split; [intros [= ->]; reflexivity|intros ->; reflexivity].
  - destruct s as [|y s]; [split; discriminate|].
    destruct (unit_eqb x y) eqn:E.
    + apply unit_eqb_eq in E. subst y. rewrite IH.
      split; [intros ->; reflexivity|intros [= ->]; reflexivity].
    + split; [discriminate|]. intros [= -> _].
      unfold unit_eqb in E. rewrite Z.eqb_refl in E. discriminate.
Qed.

Lemma strip_prefix_app (p r : jsstring) : strip_prefix p (p ++ r) = Some r.
Proof. apply strip_prefix_spec. reflexivity. Qed.

Section MatcherFacts.
Context {R : Type}.

Lemma re_lit_inv (p s : jsstring) (k : jsstring -> option R) (r : R) :
  re_lit p s k = Some r -> exists t, s = p ++ t /\ k t = Some r.
Proof.
  unfold re_lit. destruct (strip_prefix p s) as [t|] eqn:E; [|discriminate].
  apply strip_prefix_spec in E. intros H. exists t. auto.
Qed.

Lemma re_lit_app (p t : jsstring) (k : jsstring -> option R) :
  re_lit p (p ++ t) k = k t.
Proof. unfold re_lit. rewrite strip_prefix_app. reflexivity. Qed.

Lemma re_opt_inv (c : Z) (s : jsstring) (k : jsstring -> option R) (r : R) :
  re_opt c s k = Some r ->
  (exists t, s = c :: t /\ k t = Some r) \/ k s = Some r.
Proof.
  unfold re_opt. destruct s as [|x t]; [auto|].
  destruct (unit_eqb x c) eqn:E; [|auto].
  apply unit_eqb_eq in E. subst x.
  destruct (k t) as [r'|] eqn:K; [|auto].
  intros [= <-]. left. exists t. auto.
Qed.

Lemma re_star_inv (cls : Z -> bool) (s : jsstring)
      (k : jsstring -> option R) (r : R) :
  re_star cls s k = Some r ->
  exists a t, s = a ++ t /\ forallb cls a = true /\ k t = Some r.
Proof.
  induction s as [|x s IH]; simpl; intros H.
  - exists [], []. auto.
  - destruct (cls x) eqn:C.
    + destruct (re_star cls s k) as [r'|] eqn:K.
      * injection H as <-. destruct (IH eq_refl) as (a & t & -> & Ha & Hk).
        exists (x :: a), t. simpl. rewrite C, Ha. auto.
      * exists [], (x :: s). auto.
    + exists [], (x :: s). auto.
Qed.

Lemma re_more_inv (cls : Z -> bool) (n : nat) (acc s : jsstring)
      (k : jsstring -> jsstring -> option R) (r : R) :
  re_more cls n acc s k = Some r ->
  exists g t, s = g ++ t /\ (length g <= n)%nat /\ forallb cls g = true
              /\ k (acc ++ g) t = Some r.
Proof.
  revert acc s. induction n as [|n IH]; intros acc s H; simpl in H.
  - exists [], s. rewrite app_nil_r. auto.
  - assert (D : k acc s = Some r ->
                exists g t, s = g ++ t /\ (length g <= S n)%nat
                            /\ forallb cls g = true
                            /\ k (acc ++ g) t = Some r).
    { intros Hk. exists [], s. rewrite app_nil_r. simpl.
      repeat split; auto. lia. }
    destruct s as [|x s]; [auto|].
    destruct (cls x) eqn:C; [|auto].
    destruct (re_more cls n (acc ++ [x]) s k) as [r'|] eqn:K; [|auto].
    injection H as <-.
    destruct (IH _ _ K) as (g & t & -> & Hl & Hg & Hk).
    exists (x :: g), t. simpl. rewrite C, Hg.
    rewrite <- app_assoc in Hk. simpl in Hk.
    repeat split; auto. lia.
Qed.

Lemma re_group_inv (cls : Z -> bool) (s : jsstring)
      (k : jsstring -> jsstring -> option R) (r : R) :
  re_group_1_3 cls s k = Some r ->
  exists g t, s = g ++ t /\ g <> [] /\ (length g <= 3)%nat
              /\ forallb cls g = true /\ k g t = Some r.
Proof.
  unfold re_group_1_3. destruct s as [|x s]; [discriminate|].
  destruct (cls x) eqn:C; [|discriminate]. intros H.
  apply re_more_inv in H as (g & t & -> & Hl & Hg & Hk).
  exists (x :: g), t. simpl. rewrite C, Hg.
  repeat split; auto; [discriminate|lia].
Qed.

Lemma re_search_inv (m : jsstring -> option R) (s : jsstring) (r : R) :
  re_search m s = Some r -> exists pre t, s = pre ++ t /\ m t = Some r.
Proof.
  induction s as [|x s IH]; simpl; intros H.
  - destruct (m []) eqn:E; [|discriminate]. injection H as <-.
    exists [], []. auto.
  - destruct (m (x :: s)) eqn:E.
    + injection H as <-. exists [], (x :: s). auto.
    + destruct (IH H) as (pre & t & -> & Hm). exists (x :: pre), t. auto.
Qed.

Lemma re_search_found (m : jsstring -> option R) (pre t : jsstring) :
  m t <> None -> re_search m (pre ++ t) <> None.
Proof.
  intros Hm. induction pre as [|x pre IH]; simpl.
  - destruct t; simpl; destruct (m _); congruence.
  - destruct (m (x :: pre ++ t)); [discriminate|exact IH].
Qed.

(** A group whose continuation cannot fail takes what it can. *)
Lemma re_more_total (cls : Z -> bool) (n : nat) (acc s : jsstring)
      (k : jsstring -> jsstring -> option R) :
  (forall g t, k g t <> None) -> re_more cls n acc s k <> None.
Proof.
  intros Hk. revert acc s. induction n as [|n IH]; intros acc s; simpl.
  - apply Hk.
  - destruct s as [|x s]; [apply Hk|].
    destruct (cls x); [|apply Hk].
    destruct (re_more cls n (acc ++ [x]) s k) eqn:E; [discriminate|].
    exfalso. exact (IH _ _ E).
Qed.

Lemma re_group_total (cls : Z -> bool) (x : Z) (s : jsstring)
      (k : jsstring -> jsstring -> option R) :
  cls x = true -> (forall g t, k g t <> None) ->
  re_group_1_3 cls (x :: s) k <> None.
Proof.
  intros C Hk. unfold re_group_1_3. rewrite C. apply re_more_total, Hk.
Qed.
End MatcherFacts.

(* ================================================================== *)
(** ** [extractArticleNumber] *)

Lemma re_opt_total {R : Type} (c : Z) (s : jsstring) (k : jsstring -> option R) :
  (forall t, k t <> None) -> re_opt c s k <> None.
Proof.
  intros Hk. unfold re_opt. destruct s as [|x t]; [apply Hk|].
  destruct (unit_eqb x c); [|apply Hk].
  destruct (k t) eqn:E; [discriminate|]. exfalso. exact (Hk _ E).
Qed.

Lemma re_more_exact {R : Type} (cls : Z -> bool) (n : nat)
      (acc ds : jsstring) (c : Z) (post : jsstring)
      (k : jsstring -> jsstring -> option R) :
  (length ds <= n)%nat -> forallb cls ds = true -> cls c = false ->
  k (acc ++ ds) (c :: post) <> None ->
  re_more cls n acc (ds ++ c :: post) k <> None.
Proof.
  revert n acc. induction ds as [|x ds IH]; intros n acc Hl Hd Hc Hk.
  - rewrite app_nil_r in Hk. destruct n; simpl; [exact Hk|].
    rewrite Hc. exact Hk.
  - destruct n as [|n]; [simpl in Hl; lia|].
    simpl in Hd. apply andb_true_iff in Hd as [Hx Hd].
    simpl. rewrite Hx.
    destruct (re_more cls n (acc ++ [x]) (ds ++ c :: post) k) eqn:E;
      [discriminate|].
    exfalso. revert E. apply IH; auto.
    + simpl in Hl. lia.
    + rewrite <- app_assoc. exact Hk.
Qed.

Lemma tiao_not_digit : is_any_digit u_tiao = false.
Proof. reflexivity. Qed.

Lemma pat_statute_di_inv (name s g : jsstring) :
  pat_statute_di name s = Some g ->
  good_group g
  /\ ((exists post, s = name ++ g ++ post)
      \/ (exists post, s = name ++ u_di :: g ++ post)).
Proof.
  unfold pat_statute_di. intros H.
  apply re_lit_inv in H as (s1 & -> & H).
  assert (G : forall s2,
             re_group_1_3 is_any_digit s2
               (fun g0 s3 => re_opt u_tiao s3 (fun _ => Some g0)) = Some g ->
             good_group g /\ exists post, s2 = g ++ post).
  { intros s2 H2. apply re_group_inv in H2 as (g0 & t & -> & Hn & Hl & Hd & Hk).
    assert (g0 = g).
    { apply re_opt_inv in Hk as [(t' & _ & [= ->])|[= ->]]; reflexivity. }
    subst g0. split; [repeat split; assumption|]. exists t. reflexivity. }
  apply re_opt_inv in H as [(t & -> & H)|H].
  - destruct (G _ H) as (Hg & post & ->). split; [exact Hg|].
    right. exists post. reflexivity.
  - destruct (G _ H) as (Hg & post & ->). split; [exact Hg|].
    left. exists post. reflexivity.
Qed.

Lemma pat_statute_inv (name s g : jsstring) :
  pat_statute name s = Some g ->
  good_group g /\ exists post, s = name ++ g ++ post.
Proof.
  unfold pat_statute. intros H.
  apply re_lit_inv in H as (s1 & -> & H).
  apply re_group_inv in H as (g0 & t & -> & Hn & Hl & Hd & Hk).
  assert (g0 = g).
  { apply re_opt_inv in Hk as [(t' & _ & [= ->])|[= ->]]; reflexivity. }
  subst g0. split; [repeat split; assumption|]. exists t. reflexivity.
Qed.

Lemma pat_bare_inv (s g : jsstring) :
  pat_bare s = Some g ->
  good_group g /\ exists post, s = u_di :: g ++ u_tiao :: post.
Proof.
  unfold pat_bare. intros H.
  apply re_lit_inv in H as (s1 & -> & H).
  apply re_group_inv in H as (g0 & t & -> & Hn & Hl & Hd & Hk).
  apply re_lit_inv in Hk as (post & -> & [= ->]).
  split; [repeat split; assumption|]. exists post. reflexivity.
Qed.

Lemma group_head (g : jsstring) :
  good_group g -> exists d g', g = d :: g' /\ is_any_digit d = true.
Proof.
  intros (Hn & _ & Hd). destruct g as [|d g']; [congruence|].
  simpl in Hd. apply andb_true_iff in Hd as [Hd _]. exists d, g'. auto.
Qed.

Lemma name_dong : In (utf16 "勞動基準法") statute_names.
Proof. left. reflexivity. Qed.

Lemma name_ji : In (utf16 "勞基法") statute_names.
Proof. right. left. reflexivity. Qed.

Lemma statute_di_phrase (name pre s g : jsstring) :
  In name statute_names -> pat_statute_di name s = Some g ->
  good_group g /\ article_phrase (pre ++ s).
Proof.
  intros Hin H. apply pat_statute_di_inv in H as (Hg & [(post & ->)|(post & ->)]);
    (split; [exact Hg|]); destruct (group_head g Hg) as (d & g' & -> & Hd).
  - apply (phrase_statute name pre (g' ++ post) d Hin Hd).
  - apply (phrase_statute_di name pre (g' ++ post) d Hin Hd).
Qed.

Lemma statute_phrase (name pre s g : jsstring) :
  In name statute_names -> pat_statute name s = Some g ->
  good_group g /\ article_phrase (pre ++ s).
Proof.
  intros Hin H. apply pat_statute_inv in H as (Hg & post & ->).
  split; [exact Hg|]. destruct (group_head g Hg) as (d & g' & -> & Hd).
  apply (phrase_statute name pre (g' ++ post) d Hin Hd).
Qed.

Lemma bare_phrase (pre s g : jsstring) :
  pat_bare s = Some g -> good_group g /\ article_phrase (pre ++ s).
Proof.
  intros H. apply pat_bare_inv in H as (Hg & post & ->).
  split; [exact Hg|]. destruct Hg as (Hn & Hl & Hd).
  apply phrase_bare; assumption.
Qed.

Lemma pattern_sound (re : jsstring -> option jsstring) (s g : jsstring) :
  In re patterns -> re_search re s = Some g ->
  good_group g /\ article_phrase s.
Proof.
  intros Hin H. apply re_search_inv in H as (pre & t & -> & H).
  unfold patterns in Hin. simpl in Hin.
  destruct Hin as [<-|[<-|[<-|[<-|[<-|[]]]]]].
  - eapply statute_di_phrase; [|exact H]. apply name_dong.
  - eapply statute_di_phrase; [|exact H]. apply name_ji.
  - eapply statute_phrase; [|exact H]. apply name_dong.
  - eapply statute_phrase; [|exact H]. apply name_ji.
  - apply bare_phrase, H.
Qed.

Lemma pattern_complete (s : jsstring) :
  article_phrase s -> exists re, In re patterns /\ re_search re s <> None.
Proof.
  assert (K : forall (g t : jsstring),
             re_opt u_tiao t (fun _ => Some g) <> None).
  { intros g t. apply re_opt_total. discriminate. }
  intros [name pre post d Hin Hd | name pre post d Hin Hd
          | pre ds post Hn Hl Hd].
  - exists (pat_statute name). split.
    + destruct Hin as [<-|[<-|[]]]; simpl; auto.
    + apply re_search_found. unfold pat_statute. rewrite re_lit_app.
      apply re_group_total; [exact Hd|exact K].
  - exists (pat_statute_di name). split.
    + destruct Hin as [<-|[<-|[]]]; simpl; auto.
    + apply re_search_found. unfold pat_statute_di. rewrite re_lit_app.
      unfold re_opt. unfold unit_eqb. rewrite Z.eqb_refl.
      destruct (re_group_1_3 is_any_digit (d :: post) _) eqn:E; [discriminate|].
      exfalso. revert E. apply re_group_total; [exact Hd|exact K].
  - exists pat_bare. split; [simpl; auto 6|].
    apply re_search_found. unfold pat_bare.
    change (u_di :: ds ++ u_tiao :: post) with ([u_di] ++ ds ++ u_tiao :: post).
    rewrite re_lit_app.
    destruct ds as [|x ds]; [congruence|].
    simpl in Hd. apply andb_true_iff in Hd as [Hx Hd].
    unfold re_group_1_3. cbn [app]. rewrite Hx.
    apply re_more_exact; auto.
    + simpl in Hl. lia.
    + change (u_tiao :: post) with ([u_tiao] ++ post).
      rewrite re_lit_app. discriminate.
Qed.

Lemma take_while_all (p : Z -> bool) (s : jsstring) :
  forallb p s = true -> take_while p s = (s, []).
Proof.
  induction s as [|c s IH]; simpl; [reflexivity|].
  intros H. apply andb_true_iff in H as [Hc Hs].
  rewrite Hc, (IH Hs). reflexivity.
Qed.

Lemma to_halfwidth_digits (g : jsstring) :
  forallb is_any_digit g = true -> forallb is_digit (to_halfwidth g) = true.
Proof.
  induction g as [|d g IH]; simpl; [reflexivity|].
  intros H. apply andb_true_iff in H as [Hd Hg].
  rewrite (IH Hg), andb_true_r.
  unfold is_any_digit, is_digit, is_fullwidth_digit in *.
  destruct ((65296 <=? d) && (d <=? 65305)) eqn:F; lia.
Qed.

Lemma parseInt10_digits (h : jsstring) :
  h <> [] -> forallb is_digit h = true ->
  parseInt10 h = Some (digits_value h).
Proof.
  intros Hn Hd. unfold parseInt10.
  destruct h as [|c h']; [congruence|].
  assert (Hc : is_digit c = true)
    by (simpl in Hd; apply andb_true_iff in Hd as [Hc _]; exact Hc).
  assert (Ht : trimStart (c :: h') = c :: h').
  { simpl. replace (is_ws c) with false; [reflexivity|].
    unfold is_digit in Hc. unfold is_ws. lia. }
  rewrite Ht. unfold read_sign.
  replace (c =? 45) with false by (unfold is_digit in Hc; lia).
  replace (c =? 43) with false by (unfold is_digit in Hc; lia).
  rewrite (take_while_all _ _ Hd). reflexivity.
Qed.

Lemma good_group_number (g : jsstring) :
  good_group g ->
  is_empty g = false
  /\ parseInt10 (to_halfwidth g) = Some (digits_value (to_halfwidth g)).
Proof.
  intros (Hn & _ & Hd). split; [destruct g; [congruence|reflexivity]|].
  apply parseInt10_digits; [destruct g; [congruence|discriminate]|].
  apply to_halfwidth_digits, Hd.
Qed.

Lemma first_pattern_none (ps : list (jsstring -> option jsstring))
      (s : jsstring) :
  (forall re g, In re ps -> re_search re s = Some g -> good_group g) ->
  (first_pattern ps s = None <-> forall re, In re ps -> re_search re s = None).
Proof.
  induction ps as [|re ps IH]; intros Hg; simpl.
  - split; [intros _ re []|reflexivity].
  - destruct (re_search re s) as [g|] eqn:E.
    + destruct (good_group_number g (Hg re g (or_introl eq_refl) E)) as [H1 H2].
      rewrite H1, H2. split; [discriminate|].
      intros H. specialize (H re (or_introl eq_refl)). congruence.
    + rewrite IH by (intros re' g' Hin; apply Hg; right; exact Hin).
      split.
      * intros H re' [<-|Hin]; [exact E|apply H, Hin].
      * intros H re' Hin. apply H. right. exact Hin.
Qed.

Lemma first_pattern_head (re : jsstring -> option jsstring)
      (ps : list (jsstring -> option jsstring)) (s g : jsstring) :
  re_search re s = Some g -> good_group g ->
  first_pattern (re :: ps) s = Some (digits_value (to_halfwidth g)).
Proof.
  intros E Hg. simpl. rewrite E.
  destruct (good_group_number g Hg) as [H1 H2]. rewrite H1, H2. reflexivity.
Qed.

Lemma no_phrase_in_empty : ~ article_phrase [].
Proof.
  intros H. inversion H as [name pre post d Hin Hd E | name pre post d Hin Hd E
                            | pre ds post Hn Hl Hd E].
  - apply app_eq_nil in E as [_ E]. apply app_eq_nil in E as [_ E]. discriminate.
  - apply app_eq_nil in E as [_ E]. apply app_eq_nil in E as [_ E]. discriminate.
  - apply app_eq_nil in E as [_ E]. discriminate.
Qed.

Lemma extractArticleNumber_none (text : jsstring) :
  extractArticleNumber text = None <-> ~ article_phrase (remove_ws text).
Proof.
  unfold extractArticleNumber. destruct (is_empty text) eqn:E.
  - destruct text; [|discriminate]. simpl.
    split; [intros _; exact no_phrase_in_empty|reflexivity].
  - rewrite first_pattern_none
      by (intros re g Hin H; exact (proj1 (pattern_sound re _ g Hin H))).
    split.
    + intros H Hp. destruct (pattern_complete _ Hp) as (re & Hin & Hre).
      exact (Hre (H re Hin)).
    + intros H re Hin. destruct (re_search re (remove_ws text)) as [g|] eqn:S;
        [|reflexivity].
      exfalso. exact (H (proj2 (pattern_sound re _ g Hin S))).
Qed.

(** C7. [extractArticleNumber] reads 24 in "勞基法第24條", 38 in "第 38 條" and
    30 in "勞動基準法30條"; full-width digits count as digits; the patterns are
    tried in order, so that a statute form wins over a bare [第N條] that
    comes earlier in the text; and the result is none exactly when the text,
    white space removed, holds no article phrase. *)
Theorem extractArticleNumber_examples (text g : jsstring) :
  extractArticleNumber (utf16 "勞基法第24條") = Some 24
  /\ extractArticleNumber (utf16 "第 38 條") = Some 38
  /\ extractArticleNumber (utf16 "勞動基準法30條") = Some 30
  /\ extractArticleNumber (utf16 "勞基法第２４條") = Some 24
  /\ extractArticleNumber (utf16 "第5條與勞基法第24條") = Some 24
  /\ extractArticleNumber (utf16 "請問加班費怎麼算") = None
  /\ (extractArticleNumber text = None <-> ~ article_phrase (remove_ws text))
  /\ (re_search (pat_statute_di (utf16 "勞動基準法")) (remove_ws text) = Some g ->
      is_empty text = false ->
      extractArticleNumber text = Some (digits_value (to_halfwidth g))).
Proof.
  do 6 (split; [vm_compute; reflexivity|]).
  split; [apply extractArticleNumber_none|].
  intros H E. unfold extractArticleNumber. rewrite E.
  apply first_pattern_head; [exact H|].
  exact (proj1 (pattern_sound _ _ g (or_introl eq_refl) H)).
Qed.

(** C7 on a text without a phrase and on one with the statute form. *)
Lemma extractArticleNumber_examples_witness :
  ~ article_phrase (remove_ws (utf16 "請問 加班費 怎麼算"))
  /\ extractArticleNumber (utf16 "依 勞動基準法 第 30 條")
     = Some (digits_value (to_halfwidth (utf16 "30"))).
Proof.
  split.
  - destruct (extractArticleNumber_examples (utf16 "請問 加班費 怎麼算") [])
      as (_ & _ & _ & _ & _ & _ & H & _).
    apply H. vm_compute. reflexivity.
  - destruct (extractArticleNumber_examples (utf16 "依 勞動基準法 第 30 條")
                                            (utf16 "30"))
      as (_ & _ & _ & _ & _ & _ & _ & H).
    apply H; vm_compute; reflexivity.
Defined.

(* ================================================================== *)
(** ** [extractLawNumbers] *)

Lemma re_star_exact {R : Type} (cls : Z -> bool) (a : jsstring) (c : Z)
      (t : jsstring) (k : jsstring -> option R) (r : R) :
  forallb cls a = true -> cls c = false -> k (c :: t) = Some r ->
  re_star cls (a ++ c :: t) k = Some r.
Proof.
  intros Ha Hc Hk. induction a as [|x a IH]; simpl.
  - rewrite Hc. exact Hk.
  - simpl in Ha. apply andb_true_iff in Ha as [Hx Ha].
    rewrite Hx, (IH Ha). reflexivity.
Qed.

Lemma re_more_exact_value {R : Type} (cls : Z -> bool) (n : nat)
      (acc ds : jsstring) (c : Z) (post : jsstring)
      (k : jsstring -> jsstring -> option R) (r : R) :
  (length ds <= n)%nat -> forallb cls ds = true -> cls c = false ->
  k (acc ++ ds) (c :: post) = Some r ->
  re_more cls n acc (ds ++ c :: post) k = Some r.
Proof.
  revert n acc. induction ds as [|x ds IH]; intros n acc Hl Hd Hc Hk.
  - rewrite app_nil_r in Hk. destruct n; simpl; [exact Hk|].
    rewrite Hc. exact Hk.
  - destruct n as [|n]; [simpl in Hl; lia|].
    simpl in Hd. apply andb_true_iff in Hd as [Hx Hd].
    simpl. rewrite Hx. rewrite (IH n (acc ++ [x])); auto.
    + simpl in Hl. lia.
    + rewrite <- app_assoc. exact Hk.
Qed.

Lemma ws_then_tiao (ws2 post : jsstring) :
  forallb is_ws ws2 = true ->
  exists c t, ws2 ++ u_tiao :: post = c :: t /\ is_digit c = false.
Proof.
  intros H. destruct ws2 as [|c ws2]; simpl.
  - exists u_tiao, post. split; reflexivity.
  - exists c, (ws2 ++ u_tiao :: post). split; [reflexivity|].
    simpl in H. apply andb_true_iff in H as [Hc _].
    unfold is_ws in Hc. unfold is_digit. lia.
Qed.

Lemma digit_not_ws (c : Z) : is_digit c = true -> is_ws c = false.
Proof. unfold is_digit, is_ws. lia. Qed.

(** The expression matches at an occurrence, with the digits as its group. *)
Lemma pat_law_at (ws1 ds ws2 post : jsstring) :
  forallb is_ws ws1 = true -> forallb is_ws ws2 = true ->
  ds <> [] -> (length ds <= 3)%nat -> forallb is_digit ds = true ->
  pat_law (u_di :: ws1 ++ ds ++ ws2 ++ u_tiao :: post) = Some (ds, post).
Proof.
  intros H1 H2 Hn Hl Hd. unfold pat_law.
  change (u_di :: ws1 ++ ds ++ ws2 ++ u_tiao :: post)
    with ([u_di] ++ ws1 ++ ds ++ ws2 ++ u_tiao :: post).
  rewrite re_lit_app.
  destruct ds as [|d ds]; [congruence|].
  simpl in Hd. apply andb_true_iff in Hd as [Hd0 Hd].
  cbn [app]. apply re_star_exact; [exact H1|apply digit_not_ws, Hd0|].
  unfold re_group_1_3. rewrite Hd0.
  destruct (ws_then_tiao ws2 post H2) as (c & t & E & Hc).
  rewrite E. apply re_more_exact_value; auto.
  - simpl in Hl. lia.
  - rewrite <- E. cbn [app].
    apply re_star_exact; [exact H2|reflexivity|].
    change (u_tiao :: post) with ([u_tiao] ++ post).
    rewrite re_lit_app. reflexivity.
Qed.

(** What a match of the expression looks like. *)
Lemma pat_law_inv (s g s' : jsstring) :
  pat_law s = Some (g, s') ->
  exists ws1 ws2,
    s = u_di :: ws1 ++ g ++ ws2 ++ u_tiao :: s'
    /\ forallb is_ws ws1 = true /\ forallb is_ws ws2 = true
    /\ g <> [] /\ (length g <= 3)%nat /\ forallb is_digit g = true.
Proof.
  unfold pat_law. intros H.
  apply re_lit_inv in H as (s1 & -> & H).
  apply re_star_inv in H as (ws1 & s2 & -> & Hw1 & H).
  apply re_group_inv in H as (g0 & s3 & -> & Hn & Hl & Hd & H).
  apply re_star_inv in H as (ws2 & s4 & -> & Hw2 & H).
  apply re_lit_inv in H as (s5 & -> & [= -> ->]).
  exists ws1, ws2. repeat split; auto.
Qed.

Lemma re_search_leftmost {R : Type} (m : jsstring -> option R)
      (s : jsstring) (r : R) :
  re_search m s = Some r ->
  exists pre t, s = pre ++ t /\ m t = Some r
                /\ forall p1 p2, pre = p1 ++ p2 -> p2 <> [] -> m (p2 ++ t) = None.
Proof.
  induction s as [|x s IH]; simpl; intros H.
  - destruct (m []) eqn:E; [|discriminate]. injection H as <-.
    exists [], []. repeat split; auto.
    intros p1 p2 Hp. symmetry in Hp. apply app_eq_nil in Hp as [_ ->]. congruence.
  - destruct (m (x :: s)) eqn:E.
    + injection H as <-. exists [], (x :: s). repeat split; auto.
      intros p1 p2 Hp. symmetry in Hp. apply app_eq_nil in Hp as [_ ->]. congruence.
    + destruct (IH H) as (pre & t & -> & Hm & Hleft).
      exists (x :: pre), t. repeat split; auto.
      intros p1 p2 Hp Hne. destruct p1 as [|y p1]; simpl in Hp.
      * subst p2. exact E.
      * injection Hp as _ Hp. apply (Hleft p1 p2 Hp Hne).
Qed.

Lemma digits_value_snoc (ds : jsstring) (d : Z) :
  digits_value (ds ++ [d]) = digits_value ds * 10 + (d - 48).
Proof. unfold digits_value. rewrite fold_left_app. reflexivity. Qed.

Lemma digits_value_bound (ds : jsstring) :
  (length ds <= 3)%nat -> forallb is_digit ds = true ->
  0 <= digits_value ds < 1000.
Proof.
  intros Hl Hd.
  destruct ds as [|a [|b [|c [|e ds]]]]; simpl in Hl; try lia;
    unfold digits_value; simpl in *; unfold is_digit in Hd; lia.
Qed.

Lemma set_add_In (n m : Z) (nums : list Z) :
  In n (set_add m nums) <-> n = m \/ In n nums.
Proof.
  unfold set_add. destruct (existsb (Z.eqb m) nums) eqn:E.
  - split; [auto|]. intros [->|H]; [|exact H].
    apply existsb_exists in E as (x & Hx & Ex). apply Z.eqb_eq in Ex.
    subst x. exact Hx.
  - rewrite in_app_iff. simpl. intuition congruence.
Qed.

Lemma set_add_NoDup (m : Z) (nums : list Z) :
  NoDup nums -> NoDup (set_add m nums).
Proof.
  intros H. unfold set_add. destruct (existsb (Z.eqb m) nums) eqn:E; [exact H|].
  apply NoDup_app; [exact H|constructor; [intros []|constructor]|].
  intros a Ha [<-|[]].
  assert (X : existsb (Z.eqb m) nums = true)
    by (apply existsb_exists; exists m; split; [exact Ha|apply Z.eqb_refl]).
  congruence.
Qed.

Lemma law_loop_NoDup (fuel : nat) (s : jsstring) (nums : list Z) :
  NoDup nums -> NoDup (law_loop fuel s nums).
Proof.
  revert s nums. induction fuel as [|fuel IH]; intros s nums H; simpl; [exact H|].
  destruct (re_search pat_law s) as [[g s']|]; [|exact H].
  destruct (parseInt10 g) as [n|]; [|apply IH, H].
  destruct ((0 <? n) && (n <? 1000)); apply IH; [apply set_add_NoDup|]; exact H.
Qed.

Lemma law_loop_keeps (fuel : nat) (s : jsstring) (nums : list Z) (n : Z) :
  In n nums -> In n (law_loop fuel s nums).
Proof.
  revert s nums. induction fuel as [|fuel IH]; intros s nums H; simpl; [exact H|].
  destruct (re_search pat_law s) as [[g s']|]; [|exact H].
  destruct (parseInt10 g) as [m|]; [|apply IH, H].
  destruct ((0 <? m) && (m <? 1000)); apply IH; [|exact H].
  apply set_add_In. right. exact H.
Qed.

Lemma law_reference_later (pre s : jsstring) (n : Z) :
  law_reference s n -> law_reference (pre ++ s) n.
Proof.
  intros (p & t & -> & H). exists (pre ++ p), t.
  rewrite app_assoc. auto.
Qed.

Lemma law_loop_sound (fuel : nat) (s : jsstring) (nums : list Z) (n : Z) :
  In n (law_loop fuel s nums) ->
  In n nums \/ (0 < n /\ law_reference s n).
Proof.
  revert s nums. induction fuel as [|fuel IH]; intros s nums H; simpl in H;
    [auto|].
  destruct (re_search pat_law s) as [[g s']|] eqn:S; [|auto].
  apply re_search_inv in S as (pre & t & -> & S).
  pose proof S as S0.
  apply pat_law_inv in S as (ws1 & ws2 & -> & Hw1 & Hw2 & Hn & Hl & Hd).
  assert (Later : law_reference s' n ->
                  law_reference
                    (pre ++ u_di :: ws1 ++ g ++ ws2 ++ u_tiao :: s') n).
  { intros L.
    replace (pre ++ u_di :: ws1 ++ g ++ ws2 ++ u_tiao :: s')
      with ((pre ++ u_di :: ws1 ++ g ++ ws2 ++ [u_tiao]) ++ s').
    - apply law_reference_later, L.
    - rewrite <- !app_assoc. simpl. rewrite <- !app_assoc. reflexivity. }
  rewrite (parseInt10_digits g Hn Hd) in H.
  destruct ((0 <? digits_value g) && (digits_value g <? 1000)) eqn:C.
  - apply IH in H as [H|[H1 H2]]; [|right; auto].
    apply set_add_In in H as [->|H]; [|auto].
    right. split; [lia|].
    exists pre, (u_di :: ws1 ++ g ++ ws2 ++ u_tiao :: s'). split; [reflexivity|].
    exists ws1, g, ws2, s'. repeat split; auto.
  - apply IH in H as [H|[H1 H2]]; [auto|right; auto].
Qed.

Lemma di_not_in_match (ws1 g ws2 : jsstring) :
  forallb is_ws ws1 = true -> forallb is_ws ws2 = true ->
  forallb is_digit g = true ->
  ~ In u_di (ws1 ++ g ++ ws2 ++ [u_tiao]).
Proof.
  intros H1 H2 Hg Hin.
  rewrite !in_app_iff in Hin.
  rewrite forallb_forall in H1, H2, Hg.
  destruct Hin as [Hin|[Hin|[Hin|[Hin|[]]]]].
  - specialize (H1 _ Hin). discriminate.
  - specialize (Hg _ Hin). discriminate.
  - specialize (H2 _ Hin). discriminate.
  - discriminate.
Qed.

Lemma law_loop_complete (fuel : nat) (s : jsstring) (nums : list Z) (n : Z) :
  (length s < fuel)%nat -> 0 < n -> law_reference s n ->
  In n (law_loop fuel s nums).
Proof.
  revert s nums. induction fuel as [|fuel IH]; intros s nums Hf Hn Href;
    [lia|].
  destruct Href as (pre & t & -> & ws1 & ds & ws2 & post & -> & Hw1 & Hw2
                    & Hne & Hl & Hd & Hv).
  set (t := u_di :: ws1 ++ ds ++ ws2 ++ u_tiao :: post) in *.
  assert (Mt : pat_law t = Some (ds, post)) by (apply pat_law_at; assumption).
  assert (Rt : law_reference_at t n)
    by (exists ws1, ds, ws2, post; repeat split; auto).
  simpl.
  destruct (re_search pat_law (pre ++ t)) as [[g s']|] eqn:S.
  2:{ exfalso. revert S. apply re_search_found. congruence. }
  apply re_search_leftmost in S as (pre' & t' & E & S & Left).
  assert (Same : t' = t ->
                 In n match parseInt10 g with
                      | Some n0 =>
                        if (0 <? n0) && (n0 <? 1000)
                        then law_loop fuel s' (set_add n0 nums)
                        else law_loop fuel s' nums
                      | None => law_loop fuel s' nums
                      end).
  { intros ->. rewrite Mt in S. injection S as <- <-.
    rewrite (parseInt10_digits ds Hne Hd), Hv.
    pose proof (digits_value_bound ds Hl Hd) as B. rewrite Hv in B.
    replace ((0 <? n) && (n <? 1000)) with true by lia.
    apply law_loop_keeps, set_add_In. left. reflexivity. }
  apply app_eq_app in E as (l & [[-> ->]|[-> E2]]).
  - (* the match starts at or before the occurrence *)
    destruct l as [|x l]; [apply Same; reflexivity|].
    pose proof S as S0.
    apply pat_law_inv in S as (ws1' & ws2' & E & Hw1' & Hw2' & Hne' & Hl' & Hd').
    assert (Suffix : exists x', s' = x' ++ t).
    { replace (u_di :: ws1' ++ g ++ ws2' ++ u_tiao :: s')
        with ((u_di :: ws1' ++ g ++ ws2' ++ [u_tiao]) ++ s') in E
        by (simpl; rewrite <- !app_assoc; reflexivity).
      apply app_eq_app in E as (l2 & [[E1 E2]|[E1 E2]]).
      - exists l2. exact E2.
      - destruct l2 as [|y l2].
        + exists []. simpl in E2. symmetry. exact E2.
        + exfalso. unfold t in E2. injection E2 as <- _.
          simpl in E1. injection E1 as _ E1.
          apply (di_not_in_match ws1' g ws2' Hw1' Hw2' Hd').
          rewrite E1. apply in_or_app. right. left. reflexivity. }
    destruct Suffix as (x' & ->).
    assert (Hlen : (length (x' ++ t) < fuel)%nat).
    { apply (f_equal (@length Z)) in E. rewrite !length_app in Hf.
      simpl in E. rewrite !length_app in E. simpl in E.
      rewrite !length_app in E. simpl in E. rewrite !length_app in *.
      simpl in *. lia. }
    assert (Ref : law_reference (x' ++ t) n) by (exists x', t; auto).
    destruct (parseInt10 g) as [m|]; [|apply IH; assumption].
    destruct ((0 <? m) && (m <? 1000)); apply IH; assumption.
  - (* the match cannot start after the occurrence *)
    destruct l as [|x l].
    + apply Same. simpl in E2. symmetry. exact E2.
    + exfalso. specialize (Left pre (x :: l) eq_refl).
      rewrite <- E2 in Left. rewrite Mt in Left.
      discriminate Left. discriminate.
Qed.

Lemma pat_law_shorter (s g s' : jsstring) :
  re_search pat_law s = Some (g, s') -> (length s' < length s)%nat.
Proof.
  intros H. apply re_search_inv in H as (pre & t & -> & H).
  apply pat_law_inv in H as (ws1 & ws2 & -> & _).
  rewrite length_app. simpl. rewrite !length_app. simpl. lia.
Qed.

(** Fuel above the length of the text is never used up. *)
Lemma law_loop_fuel (fuel1 fuel2 : nat) (s : jsstring) (nums : list Z) :
  (length s < fuel1)%nat -> (length s < fuel2)%nat ->
  law_loop fuel1 s nums = law_loop fuel2 s nums.
Proof.
  revert fuel2 s nums. induction fuel1 as [|fuel1 IH];
    intros fuel2 s nums H1 H2; [lia|].
  destruct fuel2 as [|fuel2]; [lia|]. simpl.
  destruct (re_search pat_law s) as [[g s']|] eqn:S; [|reflexivity].
  apply pat_law_shorter in S.
  destruct (parseInt10 g) as [n|]; [|apply IH; lia].
  destruct ((0 <? n) && (n <? 1000)); apply IH; lia.
Qed.

(** C8, as worded, fails on [第0條]: the phrase is matched with number 0, and
    the source does not collect it. *)
Lemma extractLawNumbers_zero_counterexample :
  law_reference (utf16 "依第0條辦理") 0
  /\ extractLawNumbers (utf16 "依第0條辦理") = [].
Proof.
  split; [|vm_compute; reflexivity].
  exists (utf16 "依"), (utf16 "第0條辦理"). split; [vm_compute; reflexivity|].
  exists [], [48], [], (utf16 "辦理").
  repeat split; try (vm_compute; reflexivity); [discriminate|simpl; lia].
Qed.

(** C8, amended. [extractLawNumbers] returns, without repetition, exactly
    the numbers above zero of the phrases [第N條] (white space allowed around
    the one to three digits) that occur in the text, wherever and however
    often they occur; the scan ends within its fuel, and more fuel changes
    nothing. *)
Theorem extractLawNumbers_collects (text : jsstring) (n : Z) (more : nat) :
  NoDup (extractLawNumbers text)
  /\ (In n (extractLawNumbers text) <-> 0 < n /\ law_reference text n)
  /\ law_loop (S (length text) + more) text [] = extractLawNumbers text
  /\ extractLawNumbers (utf16 "依第11條及第17條辦理") = [11; 17]
  /\ extractLawNumbers (utf16 "第17條、第 11 條與第17條") = [17; 11].
Proof.
  split; [apply law_loop_NoDup; constructor|].
  split; [|split; [apply law_loop_fuel; lia|split; vm_compute; reflexivity]].
  unfold extractLawNumbers. split.
  - intros H. apply law_loop_sound in H as [[]|H]. exact H.
  - intros [Hn Href]. apply law_loop_complete; [lia|exact Hn|exact Href].
Qed.

(** C8 on a text with two references. *)
Lemma extractLawNumbers_collects_witness :
  (0 < 17)%Z /\ law_reference (utf16 "依第17條及第 11 條辦理") 17.
Proof.
  apply (proj1 (proj1 (proj2 (extractLawNumbers_collects
                                (utf16 "依第17條及第 11 條辦理") 17 0)))).
  vm_compute. left. reflexivity.
Defined.

(* ================================================================== *)
(** ** The retry loop and the degradation ladder *)

Local Open Scope nat_scope.

Lemma retry_loop_unfold (E : env) (payload : chat_payload) (tmo : Z)
      (lbl : jsstring) (left attempt : nat) (w : world) :
  retry_loop E payload tmo lbl left attempt w
  = let w1 := mkWorld (S (calls w)) (draws w)
                      (trace w ++ [Call lbl payload tmo]) in
    match chat_completions_create E (calls w) payload tmo with
    | Resolved res => (inr res, w1)
    | Rejected err =>
      if retriable err then
        match left with
        | O => (inl err, w1)
        | S left' =>
          retry_loop E payload tmo lbl left' (S attempt)
            (mkWorld (S (calls w)) (S (draws w))
                     (trace w ++ [Call lbl payload tmo]
                              ++ [Sleep (backoff_delay E attempt (draws w))]))
        end
      else (inl err, w1)
    end.
Proof.
  destruct left; cbn [retry_loop]; unfold bind, create, random, sleep, emit, ret;
    cbn [calls draws trace];
    destruct (chat_completions_create E (calls w) payload tmo) as [res|err];
    try reflexivity; destruct (retriable err); cbn [negb]; try reflexivity.
  cbn [calls draws trace]. rewrite <- app_assoc. reflexivity.
Qed.

Lemma retry_loop_run (E : env) (payload : chat_payload) (tmo : Z)
      (lbl : jsstring) (left attempt : nat) (w : world) :
  exists k r,
    retry_loop E payload tmo lbl left attempt w
    = (r, mkWorld (calls w + S k) (draws w + k)
                  (trace w ++ chain_events E lbl payload tmo attempt (draws w) k))
    /\ chain_run E payload tmo left w k r.
Proof.
  revert attempt w. induction left as [|left IH]; intros attempt w;
    rewrite retry_loop_unfold; cbv zeta;
    destruct (chat_completions_create E (calls w) payload tmo) as [res|err] eqn:O.
  - exists 0, (inr res). rewrite !Nat.add_0_r, Nat.add_1_r.
    split; [reflexivity|]. unfold chain_run. rewrite Nat.add_0_r, O.
    repeat split; auto. intros i Hi. lia.
  - exists 0, (inl err). rewrite !Nat.add_0_r, Nat.add_1_r.
    split; [destruct (retriable err); reflexivity|].
    unfold chain_run. rewrite Nat.add_0_r, O.
    repeat split; auto. intros i Hi. lia.
  - exists 0, (inr res). rewrite !Nat.add_0_r, Nat.add_1_r.
    split; [reflexivity|]. unfold chain_run. rewrite Nat.add_0_r, O.
    repeat split; auto; [lia|]. intros i Hi. lia.
  - destruct (retriable err) eqn:Rt.
    + match goal with
      | |- context [retry_loop E payload tmo lbl left (S attempt) ?w1] =>
        destruct (IH (S attempt) w1) as (k & r & Eq & Hk & Hfail & Hlast)
      end.
      cbn [calls draws trace] in *.
      exists (S k), r. split.
      * rewrite Eq. f_equal. f_equal; [lia|lia|].
        rewrite <- !app_assoc. reflexivity.
      * unfold chain_run. split; [lia|]. split.
        -- intros i Hi. destruct i as [|i].
           ++ exists err. rewrite Nat.add_0_r. auto.
           ++ destruct (Hfail i ltac:(lia)) as (e & He & Hr).
              exists e. replace (calls w + S i) with (S (calls w) + i) by lia.
              auto.
        -- replace (calls w + S k) with (S (calls w) + k) by lia.
           destruct (chat_completions_create E (S (calls w) + k) payload tmo);
             [exact Hlast|].
           destruct Hlast as [-> [H|H]]; split; auto.
    + exists 0, (inl err). rewrite !Nat.add_0_r, Nat.add_1_r.
      split; [reflexivity|]. unfold chain_run. rewrite Nat.add_0_r, O.
      repeat split; auto; [lia|]. intros i Hi. lia.
Qed.

Lemma openaiChatWithRetry_run (E : env) (payload : chat_payload)
      (opts : retry_options) (w : world) :
  exists k r,
    openaiChatWithRetry E payload opts w = (r, after_chain E payload opts w k)
    /\ chain_run E payload (timeout opts) (retries opts) w k r.
Proof. apply retry_loop_run. Qed.

Lemma backoff_delay_bounds (E : env) (attempt draw : nat) :
  (0 <= Math_random E draw)%Q -> (Math_random E draw < 1)%Q ->
  (baseDelay * 2 ^ Z.of_nat attempt <= backoff_delay E attempt draw
   < baseDelay * 2 ^ Z.of_nat attempt + 200)%Z.
Proof.
  intros H0 H1. unfold backoff_delay.
  set (x := (Math_random E draw * 200)%Q).
  assert (A : (0 <= Qfloor x)%Z).
  { change 0%Z with (Qfloor 0). apply Qfloor_resp_le. unfold x. lra. }
  assert (B : (Qfloor x < 200)%Z).
  { rewrite Zlt_Qlt. apply Qle_lt_trans with x; [apply Qfloor_le|].
    unfold x. change (inject_Z 200) with 200%Q. lra. }
  lia.
Qed.

Lemma chain_run_permanent (E : env) (payload : chat_payload) (tmo : Z)
      (budget : nat) (w : world) (k : nat) (r : api_error + option jsstring)
      (err : api_error) :
  chain_run E payload tmo budget w k r ->
  chat_completions_create E (calls w) payload tmo = Rejected err ->
  retriable err = false ->
  k = 0 /\ r = inl err.
Proof.
  intros (Hk & Hfail & Hlast) O Rt.
  destruct k as [|k].
  - split; [reflexivity|]. rewrite Nat.add_0_r, O in Hlast. tauto.
  - destruct (Hfail 0 ltac:(lia)) as (e & He & Hr).
    rewrite Nat.add_0_r, O in He. injection He as <-. congruence.
Qed.

Lemma ask_detailed_unfold (E : env) (userText : jsstring) (w : world) :
  openai E = true ->
  askOpenAIForLaborHelp E userText Detailed w
  = let (r1, w1) := openaiChatWithRetry E (first_payload Detailed userText)
                                        (first_options Detailed) w in
    match r1 with
    | inr choice => (answer_of choice, w1)
    | inl _ =>
      let (r2, w2) := openaiChatWithRetry E (reduced_payload userText)
                                          reduced_options w1 in
      match r2 with
      | inr choice => (answer_of choice, w2)
      | inl _ =>
        let (r3, w3) := openaiChatWithRetry E (fallback_payload userText)
                                            fallback_options w2 in
        (match r3 with
         | inr choice => answer_of choice
         | inl _ => None
         end, w3)
      end
    end.
Proof.
  intros H. unfold askOpenAIForLaborHelp. rewrite H. cbn [negb].
  unfold bind at 1.
  destruct (openaiChatWithRetry E (first_payload Detailed userText)
                                (first_options Detailed) w) as [[e1|c1] w1];
    [|reflexivity].
  unfold bind at 1.
  destruct (openaiChatWithRetry E (reduced_payload userText)
                                reduced_options w1) as [[e2|c2] w2];
    [|reflexivity].
  unfold concise_fallback, bind.
  destruct (openaiChatWithRetry E (fallback_payload userText)
                                fallback_options w2) as [[e3|c3] w3];
    reflexivity.
Qed.

(** C3. A detailed request runs the tier of 900 tokens; when that tier is
    exhausted it runs the tier of 600 tokens once, and when that one is
    exhausted the concise tier of 320 tokens once; when the last tier is
    exhausted the answer is none. A tier calls again only after a retriable
    failure and at most [retries] times, so a failure that is not retriable
    ends it with no retry; the delay before retry [attempt + 1] is
    [1000 * 2 ^ attempt] plus a jitter below 200. *)
Theorem gateway_degradation_ladder (E : env) (userText : jsstring) (w : world) :
  openai E = true ->
  (forall i, (0 <= Math_random E i)%Q /\ (Math_random E i < 1)%Q) ->
  (* the ladder of a detailed request *)
  (exists k1 r1,
      chain_run E (first_payload Detailed userText) 12000 1 w k1 r1
      /\ let w1 := after_chain E (first_payload Detailed userText)
                               (first_options Detailed) w k1 in
         match r1 with
         | inr choice =>
           askOpenAIForLaborHelp E userText Detailed w = (answer_of choice, w1)
         | inl _ =>
           exists k2 r2,
             chain_run E (reduced_payload userText) 10000 1 w1 k2 r2
             /\ let w2 := after_chain E (reduced_payload userText)
                                      reduced_options w1 k2 in
                match r2 with
                | inr choice =>
                  askOpenAIForLaborHelp E userText Detailed w
                  = (answer_of choice, w2)
                | inl _ =>
                  exists k3 r3,
                    chain_run E (fallback_payload userText) 9000 1 w2 k3 r3
                    /\ askOpenAIForLaborHelp E userText Detailed w
                       = (match r3 with
                          | inr choice => answer_of choice
                          | inl _ => None
                          end,
                          after_chain E (fallback_payload userText)
                                      fallback_options w2 k3)
                end
         end)
  (* one tier, for any configured retry count *)
  /\ (forall payload opts w0,
         exists k r,
           openaiChatWithRetry E payload opts w0
           = (r, after_chain E payload opts w0 k)
           /\ chain_run E payload (timeout opts) (retries opts) w0 k r)
  (* a failure that is not transient ends the tier at once *)
  /\ (forall payload tmo budget w0 k r err,
         chain_run E payload tmo budget w0 k r ->
         chat_completions_create E (calls w0) payload tmo = Rejected err ->
         retriable err = false ->
         k = 0 /\ r = inl err)
  (* the delay before retry number [attempt + 1] *)
  /\ (forall attempt draw,
         (baseDelay * 2 ^ Z.of_nat attempt <= backoff_delay E attempt draw
          < baseDelay * 2 ^ Z.of_nat attempt + 200)%Z).
Proof.
  intros Hclient Hrandom.
  split; [|split; [|split]].
  - rewrite (ask_detailed_unfold E userText w Hclient).
    destruct (openaiChatWithRetry_run E (first_payload Detailed userText)
                                      (first_options Detailed) w)
      as (k1 & r1 & E1 & R1).
    exists k1, r1. split; [exact R1|]. cbv zeta. rewrite E1.
    destruct r1 as [e1|c1]; [|reflexivity].
    destruct (openaiChatWithRetry_run E (reduced_payload userText)
                reduced_options
                (after_chain E (first_payload Detailed userText)
                             (first_options Detailed) w k1))
      as (k2 & r2 & E2 & R2).
    exists k2, r2. split; [exact R2|]. rewrite E2.
    destruct r2 as [e2|c2]; [|reflexivity].
    destruct (openaiChatWithRetry_run E (fallback_payload userText)
                fallback_options
                (after_chain E (reduced_payload userText) reduced_options
                   (after_chain E (first_payload Detailed userText)
                                (first_options Detailed) w k1) k2))
      as (k3 & r3 & E3 & R3).
    exists k3, r3. split; [exact R3|]. rewrite E3.
    destruct r3; reflexivity.
  - intros payload opts w0. apply openaiChatWithRetry_run.
  - intros payload tmo budget w0 k r err. apply chain_run_permanent.
  - intros attempt draw. destruct (Hrandom draw) as [H0 H1].
    apply backoff_delay_bounds; assumption.
Qed.

(** C3 when every call times out: the three tiers run and the answer is
    none. *)
Lemma gateway_degradation_ladder_witness :
  openai timeouts_env = true
  /\ (forall i, (0 <= Math_random timeouts_env i)%Q
                /\ (Math_random timeouts_env i < 1)%Q)
  /\ fst (askOpenAIForLaborHelp timeouts_env (utf16 "加班費怎麼算") Detailed
                                initial_world) = None.
Proof.
  assert (Hr : forall i, (0 <= Math_random timeouts_env i)%Q
                         /\ (Math_random timeouts_env i < 1)%Q)
    by (intros i; split; vm_compute; congruence).
  split; [reflexivity|]. split; [exact Hr|].
  destruct (gateway_degradation_ladder timeouts_env (utf16 "加班費怎麼算")
              initial_world eq_refl Hr)
    as ((k1 & r1 & (_ & _ & L1) & H1) & _).
  cbn [chat_completions_create timeouts_env] in L1.
  destruct L1 as [-> _]. cbv zeta in H1.
  destruct H1 as (k2 & r2 & (_ & _ & L2) & H2).
  cbn [chat_completions_create timeouts_env] in L2.
  destruct L2 as [-> _]. cbv zeta in H2.
  destruct H2 as (k3 & r3 & (_ & _ & L3) & H3).
  cbn [chat_completions_create timeouts_env] in L3.
  destruct L3 as [-> _].
  rewrite H3. reflexivity.
Defined.

(** Every call timing out: two calls a tier, one second and the jitter
    between them, three tiers in order. *)
Example all_timeouts_trace :
  map (fun e => match e with
                | Call lbl _ _ => inl lbl
                | Sleep d => inr d
                | _ => inr 0%Z
                end)
      (trace (snd (askOpenAIForLaborHelp timeouts_env (utf16 "加班費怎麼算")
                                         Detailed initial_world)))
  = [inl (utf16 "detailed#1"); inr 1100%Z; inl (utf16 "detailed#1");
     inl (utf16 "detailed#2"); inr 1100%Z; inl (utf16 "detailed#2");
     inl (utf16 "concise#fallback"); inr 1100%Z;
     inl (utf16 "concise#fallback")].
Proof. vm_compute. reflexivity. Qed.

(* ================================================================== *)
(** ** The webhook handler *)

Lemma grows_ret {A : Type} (a : A) (w : world) : grows (ret a) w [].
Proof. unfold grows, ret. simpl. rewrite app_nil_r. reflexivity. Qed.

Lemma grows_emit (e : io_event) (w : world) :
  is_send e = true -> grows (emit e) w [e].
Proof.
  intros H. unfold grows, emit. simpl. rewrite filter_app. simpl.
  rewrite H. reflexivity.
Qed.

Lemma grows_bind {A B : Type} (m : M A) (f : A -> M B) (w : world)
      (o1 o2 : list io_event) :
  grows m w o1 -> grows (f (fst (m w))) (snd (m w)) o2 ->
  grows (bind m f) w (o1 ++ o2).
Proof.
  unfold grows, bind. intros H1 H2. destruct (m w) as [a w']. simpl in *.
  rewrite H2, H1, app_assoc. reflexivity.
Qed.

Lemma chain_events_quiet (E : env) (lbl : jsstring) (payload : chat_payload)
      (tmo : Z) (attempt draw k : nat) :
  filter is_send (chain_events E lbl payload tmo attempt draw k) = [].
Proof.
  revert attempt draw. induction k as [|k IH]; intros attempt draw; simpl;
    [reflexivity|apply IH].
Qed.

Lemma grows_retry (E : env) (payload : chat_payload) (opts : retry_options)
      (w : world) :
  grows (openaiChatWithRetry E payload opts) w [].
Proof.
  destruct (openaiChatWithRetry_run E payload opts w) as (k & r & Eq & _).
  unfold grows. rewrite Eq. simpl. rewrite filter_app, chain_events_quiet.
  reflexivity.
Qed.

Lemma grows_concise_fallback (E : env) (q : jsstring) (w : world) :
  grows (concise_fallback E q) w [].
Proof.
  unfold concise_fallback.
  apply (grows_bind _ _ w [] []); [apply grows_retry|].
  destruct (fst _); apply grows_ret.
Qed.

Lemma grows_ask (E : env) (q : jsstring) (mode : ai_mode) (w : world) :
  grows (askOpenAIForLaborHelp E q mode) w [].
Proof.
  unfold askOpenAIForLaborHelp.
  destruct (negb (openai E)); [apply grows_ret|].
  apply (grows_bind _ _ w [] []); [apply grows_retry|].
  destruct (fst _); [|apply grows_ret].
  destruct mode; [apply grows_concise_fallback|].
  apply (grows_bind _ _ _ [] []); [apply grows_retry|].
  destruct (fst _); [apply grows_concise_fallback|apply grows_ret].
Qed.

(** A reply whose text is chosen from the answer of the gateway. *)
Lemma grows_ask_reply (E : env) (q : jsstring) (mode : ai_mode)
      (tok : jsstring) (f : jsstring -> body) (g : body) (w : world) :
  grows (aiAnswer <- askOpenAIForLaborHelp E q mode ;;
         match nonempty aiAnswer with
         | Some a => replyText tok (f a)
         | None => replyText tok g
         end) w
        [ReplyText tok
           match nonempty (fst (askOpenAIForLaborHelp E q mode w)) with
           | Some a => f a
           | None => g
           end].
Proof.
  apply (grows_bind _ _ w [] [_]); [apply grows_ask|].
  destruct (nonempty _); apply grows_emit; reflexivity.
Qed.

Lemma grows_fuzzy (E : env) (ev : event) (userText : jsstring) (w : world) :
  grows (fuzzy_branches E ev userText) w
        [ReplyText (replyToken ev) (fuzzy_reply E userText w)].
Proof.
  unfold fuzzy_branches, fuzzy_reply.
  destruct (findBestFaq (faqs E) userText); [apply grows_emit; reflexivity|].
  destruct (findArticleByKeyword (articles E) userText);
    [apply grows_emit; reflexivity|].
  apply grows_ask_reply.
Qed.

Lemma grows_article (E : env) (ev : event) (userText : jsstring) (w : world) :
  grows (article_branch E ev userText) w
        [ReplyText (replyToken ev) (article_reply E userText w)].
Proof.
  unfold article_branch, article_reply.
  destruct (extractArticleNumber userText) as [n|]; [|apply grows_fuzzy].
  destruct (n =? 0)%Z; [apply grows_fuzzy|].
  destruct (findArticleByNumber (articles E) n);
    [apply grows_emit; reflexivity|].
  apply grows_ask_reply.
Qed.

Lemma grows_commands (E : env) (ev : event) (userText : jsstring) (w : world) :
  exists e, is_send e = true /\ grows (command_branches E ev userText) w [e].
Proof.
  unfold command_branches. cbv zeta.
  destruct (is_text (normalize userText) "試算加班費");
    [eexists; split; [|apply grows_emit]; reflexivity|].
  destruct (startsWith (normalize userText) (utf16 "試算加班費")
            && includes (normalize userText) (utf16 "說明"));
    [eexists; split; [|apply grows_emit]; reflexivity|].
  destruct (startsWith (normalize userText) (utf16 "試算加班費 ")).
  { destruct (computeOtPay _); eexists; (split; [|apply grows_emit]);
      reflexivity. }
  repeat match goal with
         | |- context [if ?b then _ else _] =>
           destruct b;
             [eexists; split; [|apply grows_emit]; reflexivity|]
         end.
  eexists. split; [|apply grows_article]. reflexivity.
Qed.

Lemma grows_ai_body (E : env) (d : bool) (q : jsstring) (w : world) :
  grows (ai_body E d q) w [].
Proof.
  unfold ai_body. destruct (negb (openai E)); [apply grows_ret|].
  apply (grows_bind _ _ w [] []); [apply grows_ask|].
  destruct (nonempty _); apply grows_ret.
Qed.

Lemma grows_ai (E : env) (ev : event) (trimmed : jsstring) (w : world) :
  exists text,
    grows (ai_branch E ev trimmed) w
          (if is_empty (ai_aiQuestion trimmed)
           then [ReplyText (replyToken ev) AiUsageText]
           else [ReplyText (replyToken ev) AiThinkingText; ai_send ev text]).
Proof.
  unfold ai_branch. cbv zeta.
  destruct (is_empty (ai_aiQuestion trimmed)).
  - exists WelcomeText. apply grows_emit. reflexivity.
  - eexists.
    apply (grows_bind _ _ w [_] [_]); [apply grows_emit; reflexivity|].
    apply (grows_bind _ _ _ [] [_]); [apply grows_ai_body|].
    unfold ai_send. destruct (getSourceId ev); apply grows_emit; reflexivity.
Qed.

Lemma sends_of_grows (E : env) (ev : event) (out : list io_event) :
  grows (handle_event E ev) initial_world out -> sends E ev = out.
Proof. unfold grows, sends. simpl. auto. Qed.

Lemma handle_event_text (E : env) (ev : event) (userText : jsstring) :
  str_eqb (replyToken ev) verify_token = false ->
  type ev = MessageEvent (TextMessage userText) ->
  handle_event E ev = handle_text E ev userText.
Proof. intros H1 H2. unfold handle_event. rewrite H1, H2. reflexivity. Qed.

(** The first unit of a text after trimming. *)

Lemma trimStart_decomp (s : jsstring) :
  exists a, s = a ++ trimStart s /\ forallb is_ws a = true.
Proof.
  induction s as [|c s (a & Ea & Ha)]; simpl.
  - exists []. auto.
  - destruct (is_ws c) eqn:W.
    + exists (c :: a). simpl. rewrite W, Ha. split; [congruence|reflexivity].
    + exists []. auto.
Qed.

Lemma trimStart_head (s : jsstring) (c : Z) (r : jsstring) :
  trimStart s = c :: r -> is_ws c = false.
Proof.
  induction s as [|x s IH]; simpl; [discriminate|].
  destruct (is_ws x) eqn:W; [exact IH|]. intros [= <- _]. exact W.
Qed.

Lemma trimEnd_prefix (s : jsstring) : exists b, s = trimEnd s ++ b.
Proof.
  unfold trimEnd. destruct (trimStart_decomp (rev s)) as (a & Ea & _).
  exists (rev a). rewrite <- rev_app_distr, <- Ea, rev_involutive. reflexivity.
Qed.

Lemma lower_ws (c : Z) : is_ws (lower_unit c) = is_ws c.
Proof.
  unfold lower_unit. destruct ((65 <=? c) && (c <=? 90))%Z eqn:U; [|reflexivity].
  unfold is_ws. lia.
Qed.

Lemma remove_ws_lower_ws (a : jsstring) :
  forallb is_ws a = true -> remove_ws (toLowerCase a) = [].
Proof.
  induction a as [|x a IH]; simpl; [reflexivity|].
  intros H. apply andb_true_iff in H as [Hx Ha].
  rewrite lower_ws, Hx. simpl. apply IH, Ha.
Qed.

Lemma normalize_head (s : jsstring) (c : Z) (t : jsstring) :
  trim s = c :: t -> exists rest, normalize s = lower_unit c :: rest.
Proof.
  unfold trim. intros H.
  destruct (trimStart_decomp s) as (a & Ea & Ha).
  destruct (trimEnd_prefix (trimStart s)) as (b & Eb).
  rewrite H in Eb.
  assert (W : is_ws c = false) by (eapply trimStart_head; exact Eb).
  unfold normalize.
  assert (N : is_empty s = false).
  { rewrite Ea, Eb. destruct a; reflexivity. }
  rewrite N, Ea, Eb. unfold toLowerCase, remove_ws.
  rewrite map_app, filter_app.
  fold (toLowerCase a). fold (remove_ws (toLowerCase a)).
  rewrite (remove_ws_lower_ws a Ha). simpl.
  rewrite lower_ws, W. simpl. eexists. reflexivity.
Qed.

Lemma starts_with_head (s : jsstring) (x : Z) (p' : jsstring) :
  startsWith s (x :: p') = true -> exists t, s = x :: t.
Proof.
  unfold startsWith. destruct (strip_prefix (x :: p') s) as [r|] eqn:E;
    [|discriminate].
  apply strip_prefix_spec in E. intros _. exists (p' ++ r). exact E.
Qed.

Lemma ai_prefix_head (s : jsstring) :
  has_ai_prefix s = true -> exists rest, normalize s = 97%Z :: rest.
Proof.
  unfold has_ai_prefix. cbv zeta. intros H.
  assert (T : exists t, toLowerCase (trim s) = 97%Z :: t).
  { apply orb_true_iff in H as [H|H].
    - change (utf16 "ai/") with [97; 105; 47]%Z in H.
      apply starts_with_head in H. exact H.
    - change (utf16 "ai+") with [97; 105; 43]%Z in H.
      apply starts_with_head in H. exact H. }
  destruct T as (t & T).
  destruct (trim s) as [|c r] eqn:Etrim; [discriminate|].
  simpl in T. injection T as Hc _.
  destruct (normalize_head s c r Etrim) as (rest & N).
  exists rest. rewrite N, Hc. reflexivity.
Qed.

Lemma str_eqb_eq (a b : jsstring) : str_eqb a b = true <-> a = b.
Proof.
  revert b. induction a as [|x a IH]; intros [|y b]; simpl;
    try (split; [discriminate|discriminate]); [tauto|].
  rewrite andb_true_iff, IH. unfold unit_eqb. rewrite Z.eqb_eq.
  split; [intros [-> ->]; reflexivity|intros [= -> ->]; auto].
Qed.

Lemma exact_command_literal (n tok : jsstring) (r : io_event) :
  exact_command_reply n tok = Some r ->
  exists lit, In lit exact_commands /\ n = utf16 lit.
Proof.
  unfold exact_command_reply, is_text. intros H.
  repeat match type of H with
         | context [str_eqb ?a ?b] =>
           let Ea := fresh "Ea" in
           destruct (str_eqb a b) eqn:Ea;
             [apply str_eqb_eq in Ea; eexists; split; [|exact Ea];
              simpl; tauto|clear Ea; cbn [orb] in H]
         end.
  discriminate.
Qed.

Ltac eval_test t :=
  let v := eval vm_compute in t in change t with v in *.

Ltac eval_tests :=
  repeat match goal with
         | |- context [is_text (utf16 ?a) ?b] => eval_test (is_text (utf16 a) b)
         | |- context [startsWith (utf16 ?a) (utf16 ?b)] =>
           eval_test (startsWith (utf16 a) (utf16 b))
         | |- context [includes (utf16 ?a) (utf16 ?b)] =>
           eval_test (includes (utf16 a) (utf16 b))
         | H : context [is_text (utf16 ?a) ?b] |- _ =>
           eval_test (is_text (utf16 a) b)
         end.

Lemma exact_command_first (E : env) (ev : event) (userText : jsstring)
      (r : io_event) :
  has_ai_prefix userText = false ->
  exact_command_reply (normalize userText) (replyToken ev) = Some r ->
  forall w, grows (command_branches E ev userText) w [r].
Proof.
  intros Hai H w.
  destruct (exact_command_literal _ _ _ H) as (lit & Hin & Hn).
  unfold command_branches. cbv zeta. rewrite Hn in *. clear Hn.
  unfold exact_command_reply in H.
  unfold exact_commands in Hin. simpl in Hin.
  repeat (destruct Hin as [<-|Hin];
          [eval_tests; cbn [orb andb negb] in *; injection H as <-;
           apply grows_emit; reflexivity|]).
  destruct Hin.
Qed.

Lemma exact_command_not_ai (userText tok : jsstring) (r : io_event) :
  exact_command_reply (normalize userText) tok = Some r ->
  has_ai_prefix userText = false.
Proof.
  intros H. destruct (has_ai_prefix userText) eqn:Hai; [|reflexivity].
  exfalso. destruct (ai_prefix_head _ Hai) as (rest & Hn).
  destruct (exact_command_literal _ _ _ H) as (lit & Hin & Hl).
  rewrite Hn in Hl. unfold exact_commands in Hin. simpl in Hin.
  repeat (destruct Hin as [<-|Hin]; [vm_compute in Hl; discriminate|]).
  destruct Hin.
Qed.

Lemma no_command_article (E : env) (ev : event) (userText : jsstring) :
  no_command (normalize userText) = true ->
  command_branches E ev userText = article_branch E ev userText.
Proof.
  unfold no_command, command_branches. cbv zeta. intros H.
  repeat (apply andb_true_iff in H as [H ?]).
  repeat match goal with
         | X : negb ?b = true |- _ =>
           apply negb_true_iff in X; rewrite X
         end.
  reflexivity.
Qed.

Lemma calculator_command_head (n tok : jsstring) (r : io_event) :
  calculator_command_reply n tok = Some r ->
  exists c t, n = c :: t /\ c <> 97%Z.
Proof.
  unfold calculator_command_reply, is_text. intros H.
  destruct (str_eqb n (utf16 "試算加班費")) eqn:T1.
  { apply str_eqb_eq in T1. subst n. eexists _, _. split; [reflexivity|].
    discriminate. }
  destruct (startsWith n (utf16 "試算加班費")) eqn:T2.
  { change (utf16 "試算加班費") with (35430%Z :: tl (utf16 "試算加班費")) in T2.
    apply starts_with_head in T2 as (t & ->).
    eexists _, _. split; [reflexivity|]. discriminate. }
  cbn [andb] in H.
  destruct (str_eqb n (utf16 "再試一筆")) eqn:T3; [|discriminate].
  apply str_eqb_eq in T3. subst n. eexists _, _. split; [reflexivity|].
  discriminate.
Qed.

Lemma calculator_command_not_ai (userText tok : jsstring) (r : io_event) :
  calculator_command_reply (normalize userText) tok = Some r ->
  has_ai_prefix userText = false.
Proof.
  intros H. destruct (has_ai_prefix userText) eqn:Hai; [|reflexivity].
  exfalso. destruct (ai_prefix_head _ Hai) as (rest & Hn).
  destruct (calculator_command_head _ _ _ H) as (c & t & Hc & Hne).
  rewrite Hn in Hc. injection Hc as <- _. congruence.
Qed.

Lemma calculator_command_first (E : env) (ev : event) (userText : jsstring)
      (r : io_event) (w : world) :
  calculator_command_reply (normalize userText) (replyToken ev) = Some r ->
  grows (command_branches E ev userText) w [r].
Proof.
  unfold calculator_command_reply, command_branches. cbv zeta. intros H.
  destruct (is_text (normalize userText) "試算加班費").
  { injection H as <-. apply grows_emit. reflexivity. }
  destruct (startsWith (normalize userText) (utf16 "試算加班費")
            && includes (normalize userText) (utf16 "說明")).
  { injection H as <-. apply grows_emit. reflexivity. }
  destruct (is_text (normalize userText) "再試一筆") eqn:T; [|discriminate].
  unfold is_text in T. apply str_eqb_eq in T. rewrite T.
  injection H as <-. eval_tests. apply grows_emit. reflexivity.
Qed.

(** C4, as worded, fails on an AI command: the handler sends an
    acknowledgement and then the answer, two messages for one text. *)
Lemma handler_one_reply_counterexample :
  sends answering_env (text_event (Some user_source) "ai/加班費怎麼算")
  = [ReplyText (utf16 "token") AiThinkingText;
     PushText (utf16 "U1")
              (AiAnswerText false (utf16 "平日加班前兩小時加給三分之一。"))]
  /\ sends answering_env (text_event None "ai/加班費怎麼算")
     = [ReplyText (utf16 "token") AiThinkingText;
        ReplyText (utf16 "token")
                  (AiAnswerText false (utf16 "平日加班前兩小時加給三分之一。"))]
  /\ length (sends answering_env (text_event None "ai/加班費怎麼算")) = 2%nat.
Proof. repeat split; vm_compute; reflexivity. Qed.

(** C4, amended. For a text message whose reply token is not the verify
    token: an [ai/] or [ai+] command with a question is answered by an
    acknowledgement followed by the answer, and without a question by the
    usage text; any other text gets exactly one message; a calculator
    command without arguments gets the calculator menu or its help text; a
    text whose normal form is a function or category command gets the
    template of that command, whatever else it holds; and a text that is no
    command is answered by the first of article number, FAQ, article
    keyword and OpenAI that applies. *)
Theorem handler_first_match (E : env) (ev : event) (userText : jsstring) :
  str_eqb (replyToken ev) verify_token = false ->
  type ev = MessageEvent (TextMessage userText) ->
  (has_ai_prefix userText = true ->
   exists text,
     sends E ev
     = if is_empty (ai_aiQuestion (trim userText))
       then [ReplyText (replyToken ev) AiUsageText]
       else [ReplyText (replyToken ev) AiThinkingText; ai_send ev text])
  /\ (has_ai_prefix userText = false ->
      exists e, is_send e = true /\ sends E ev = [e])
  /\ (forall r,
         calculator_command_reply (normalize userText) (replyToken ev) = Some r ->
         sends E ev = [r])
  /\ (forall r,
         exact_command_reply (normalize userText) (replyToken ev) = Some r ->
         sends E ev = [r])
  /\ (has_ai_prefix userText = false ->
      no_command (normalize userText) = true ->
      sends E ev
      = [ReplyText (replyToken ev) (article_reply E userText initial_world)])
  /\ (forall n articleData,
         has_ai_prefix userText = false ->
         no_command (normalize userText) = true ->
         extractArticleNumber userText = Some n -> n <> 0%Z ->
         findArticleByNumber (articles E) n = Some articleData ->
         sends E ev = [ReplyText (replyToken ev) (ArticleText n articleData)])
  /\ (forall matchedFaq,
         has_ai_prefix userText = false ->
         no_command (normalize userText) = true ->
         extractArticleNumber userText = None ->
         findBestFaq (faqs E) userText = Some matchedFaq ->
         sends E ev = [ReplyText (replyToken ev) (FaqText matchedFaq)]).
Proof.
  intros Htok Htype.
  pose proof (handle_event_text E ev userText Htok Htype) as Hev.
  assert (Lookup : has_ai_prefix userText = false ->
                   no_command (normalize userText) = true ->
                   sends E ev
                   = [ReplyText (replyToken ev)
                                (article_reply E userText initial_world)]).
  { intros Hai Hno. apply sends_of_grows. rewrite Hev.
    unfold handle_text. cbv zeta. rewrite Hai.
    rewrite (no_command_article E ev userText Hno).
    apply grows_article. }
  split; [|split; [|split; [|split; [|split; [|split]]]]].
  - intros Hai. destruct (grows_ai E ev (trim userText) initial_world) as (text & G).
    exists text. apply sends_of_grows. rewrite Hev.
    unfold handle_text. cbv zeta. rewrite Hai. exact G.
  - intros Hai.
    destruct (grows_commands E ev userText initial_world) as (e & He & G).
    exists e. split; [exact He|]. apply sends_of_grows. rewrite Hev.
    unfold handle_text. cbv zeta. rewrite Hai. exact G.
  - intros r Hr. apply sends_of_grows. rewrite Hev.
    unfold handle_text. cbv zeta.
    rewrite (calculator_command_not_ai _ _ _ Hr).
    apply calculator_command_first, Hr.
  - intros r Hr. apply sends_of_grows. rewrite Hev.
    unfold handle_text. cbv zeta.
    rewrite (exact_command_not_ai _ _ _ Hr).
    apply exact_command_first; [exact (exact_command_not_ai _ _ _ Hr)|exact Hr].
  - exact Lookup.
  - intros n articleData Hai Hno Hn Hn0 Hfind.
    rewrite (Lookup Hai Hno). unfold article_reply.
    rewrite Hn, Hfind. apply Z.eqb_neq in Hn0. rewrite Hn0. reflexivity.
  - intros matchedFaq Hai Hno Hn Hfaq.
    rewrite (Lookup Hai Hno). unfold article_reply, fuzzy_reply.
    rewrite Hn, Hfaq. reflexivity.
Qed.

(** C4 on a command with stray white space, on an article query and on
    an AI command. *)
Lemma handler_first_match_witness :
  sends answering_env (text_event (Some user_source) " He LP ")
  = [ReplyFlex (utf16 "token") FunctionMenu]
  /\ sends answering_env (text_event (Some user_source) "試算加班費 說明")
     = [ReplyText (utf16 "token") OtHelpText]
  /\ sends answering_env (text_event (Some user_source) "查勞基法第24條")
     = [ReplyText (utf16 "token")
                  (article_reply answering_env (utf16 "查勞基法第24條")
                                 initial_world)]
  /\ exists text,
       sends answering_env (text_event (Some user_source) "ai/詳細 資遣費")
       = [ReplyText (utf16 "token") AiThinkingText;
          ai_send (text_event (Some user_source) "ai/詳細 資遣費") text].
Proof.
  split; [|split; [|split]].
  - destruct (handler_first_match answering_env
                (text_event (Some user_source) " He LP ") (utf16 " He LP ")
                eq_refl eq_refl) as (_ & _ & _ & H & _).
    apply H. vm_compute. reflexivity.
  - destruct (handler_first_match answering_env
                (text_event (Some user_source) "試算加班費 說明")
                (utf16 "試算加班費 說明") eq_refl eq_refl) as (_ & _ & H & _).
    apply H. vm_compute. reflexivity.
  - destruct (handler_first_match answering_env
                (text_event (Some user_source) "查勞基法第24條")
                (utf16 "查勞基法第24條") eq_refl eq_refl)
      as (_ & _ & _ & _ & H & _).
    apply H; vm_compute; reflexivity.
  - destruct (handler_first_match answering_env
                (text_event (Some user_source) "ai/詳細 資遣費")
                (utf16 "ai/詳細 資遣費") eq_refl eq_refl) as (H & _).
    apply H. vm_compute. reflexivity.
Defined.

(** The verify event of the LINE console and events that are no text message
    get no answer from the branches above; a follow event gets the welcome. *)
Remark other_events (E : env) (ev : event) :
  (str_eqb (replyToken ev) verify_token = true -> sends E ev = [])
  /\ (str_eqb (replyToken ev) verify_token = false ->
      type ev = Follow -> sends E ev = [ReplyText (replyToken ev) WelcomeText])
  /\ (str_eqb (replyToken ev) verify_token = false ->
      type ev = OtherEvent \/ type ev = MessageEvent OtherMessage ->
      sends E ev = []).
Proof.
  unfold sends, handle_event. repeat split.
  - intros ->. reflexivity.
  - intros -> ->. reflexivity.
  - intros -> [-> | ->]; reflexivity.
Qed.

(** The calculator branch with arguments is never taken: the normalized
    text holds no white space, so it cannot start with the command followed
    by a space. *)
Lemma remove_ws_no_space (s : jsstring) : ~ In 32%Z (remove_ws s).
Proof.
  unfold remove_ws. intros H. apply filter_In in H as [_ H]. discriminate.
Qed.

Remark calculator_arguments_branch_unreachable (userText : jsstring) :
  startsWith (normalize userText) (utf16 "試算加班費 ") = false.
Proof.
  destruct (startsWith (normalize userText) (utf16 "試算加班費 ")) eqn:H;
    [|reflexivity].
  exfalso. unfold startsWith in H.
  destruct (strip_prefix (utf16 "試算加班費 ") (normalize userText)) as [r|] eqn:S;
    [|discriminate].
  apply strip_prefix_spec in S.
  unfold normalize in S. destruct (is_empty userText); [discriminate|].
  apply (remove_ws_no_space (toLowerCase userText)).
  rewrite S. apply in_or_app. left. vm_compute. tauto.
Qed.

(* ================================================================== *)
(** * Further properties *)

(* ================================================================== *)
Local Open Scope Z_scope.

(** ** Text helpers *)




Lemma remove_ws_lower (s : jsstring) :
  remove_ws (toLowerCase s) = toLowerCase (remove_ws s).
Proof.
  unfold remove_ws, toLowerCase. induction s as [|c s IH]; [reflexivity|].
  simpl. rewrite lower_ws. destruct (is_ws c); simpl; now rewrite IH.
Qed.


Lemma normalize_eq (s : jsstring) : normalize s = remove_ws (toLowerCase s).
Proof. destruct s; reflexivity. Qed.


(** ** Reply-length guard *)

Lemma ensureLineLength_at_cut (s : jsstring) (limit : nat) :
  (limit < length s)%nat ->
  ensureLineLength_at s limit = firstn limit s ++ truncation_marker.
Proof.
  intro H. unfold ensureLineLength_at, slice_to.
  destruct s as [|c s]; [simpl in H; lia|].
  apply Nat.ltb_lt in H. now rewrite H.
Qed.

Lemma ensureLineLength_at_keep (s : jsstring) (limit : nat) :
  (length s <= limit)%nat -> ensureLineLength_at s limit = s.
Proof.
  intro H. unfold ensureLineLength_at.
  destruct s as [|c s]; [reflexivity|].
  apply Nat.ltb_ge in H. now rewrite H.
Qed.

(** X2. Whatever the text and the limit, the guarded text is at most seven
    units longer than the limit, so at most 4507 units at the default limit,
    and guarding a guarded text changes nothing. *)
Theorem ensureLineLength_bounded_idempotent (s : jsstring) (limit : nat) :
  (length (ensureLineLength_at s limit) <= limit + 7)%nat
  /\ (length (ensureLineLength s) <= 4507)%nat
  /\ ensureLineLength_at (ensureLineLength_at s limit) limit
     = ensureLineLength_at s limit
  /\ ensureLineLength (ensureLineLength s) = ensureLineLength s.
Proof.
  assert (bound : forall l,
            (length (ensureLineLength_at s l) <= l + 7)%nat).
  { intro l. destruct (Nat.lt_ge_cases l (length s)) as [H|H].
    - rewrite ensureLineLength_at_cut by exact H.
      rewrite length_app, marker_length, firstn_length_le by lia. lia.
    - rewrite ensureLineLength_at_keep by exact H. lia. }
  assert (idem : forall l,
            ensureLineLength_at (ensureLineLength_at s l) l
            = ensureLineLength_at s l).
  { intro l. destruct (Nat.lt_ge_cases l (length s)) as [H|H].
    - rewrite (ensureLineLength_at_cut s l H).
      assert (Hl : length (firstn l s) = l) by (apply firstn_length_le; lia).
      rewrite ensureLineLength_at_cut
        by (rewrite length_app, marker_length, Hl; lia).
      rewrite firstn_app, Hl, Nat.sub_diag, firstn_O, app_nil_r.
      rewrite <- Hl at 1. now rewrite firstn_all.
    - now rewrite !(ensureLineLength_at_keep s l H). }
  repeat split.
  - apply bound.
  - apply (bound line_limit).
  - apply idem.
  - apply (idem line_limit).
Qed.

(* ================================================================== *)
Local Open Scope Q_scope.

(** ** The calculator: amounts *)













Lemma wage_accepted (h : Q) :
  0 < h ->
  negb (truthy (Num h)) || Number_isNaN (Num h) || js_le (Num h) (Num 0) = false.
Proof.
  intro Hpos. rewrite (truthy_pos h Hpos). cbn [negb orb Number_isNaN].
  destruct (js_le (Num h) (Num 0)) eqn:E; [|reflexivity].
  apply js_le_zero in E. lra.
Qed.

(** X5. With a valid wage the message carries the warning about long
    weekday overtime exactly when the weekday hours exceed four; at four
    hours or fewer it has fifteen lines, above four it has seventeen. *)
Theorem computeOtPay_over_four_warning (p : ot_params) (h w : Q) :
  hourly p = Num h -> 0 < h -> weekday p = Num w ->
  exists lines,
    computeOtPay p = OtSuccess lines
    /\ (In (LineOverFourWarning (weekdayRate2 p)) lines <-> 4 < w)
    /\ (w <= 4 -> length lines = 15%nat)
    /\ (4 < w -> length lines = 17%nat).
Proof.
  intros Hh Hpos Hw.
  destruct (clamp_num w) as (a & Ea & Ha0 & Ha).
  assert (Ewk : wk (ot_locals p) = Num a).
  { unfold ot_locals. cbn [wk]. rewrite Hw. exact Ea. }
  unfold computeOtPay. rewrite Hh, (wage_accepted h Hpos), Ewk.
  eexists. split; [reflexivity|].
  cbn [js_gt ToNumber].
  destruct (Qle_bool a 4) eqn:C; cbn [negb].
  - apply Qle_bool_iff in C.
    assert (Lw : w <= 4).
    { rewrite Ha in C. eapply Qle_trans; [apply Q.le_max_r|exact C]. }
    split; [|split].
    + split; [|lra].
      intro I. exfalso. simpl in I.
      repeat (destruct I as [I|I]; [discriminate|]). exact I.
    + reflexivity.
    + lra.
  - assert (Lw : 4 < w).
    { destruct (Qlt_le_dec 4 w) as [G|G]; [exact G|].
      assert (a <= 4).
      { rewrite Ha. apply Q.max_lub; lra. }
      apply Qle_bool_iff in H. congruence. }
    split; [|split].
    + split; [intros _; exact Lw|].
      intros _. apply in_or_app. right. apply in_or_app. left.
      simpl. tauto.
    + lra.
    + reflexivity.
Qed.

Lemma computeOtPay_over_four_warning_witness :
  exists lines,
    computeOtPay sample_params = OtSuccess lines
    /\ (In (LineOverFourWarning (weekdayRate2 sample_params)) lines <-> 4 < 5)
    /\ (5 <= 4 -> length lines = 15%nat)
    /\ (4 < 5 -> length lines = 17%nat).
Proof.
  apply (computeOtPay_over_four_warning sample_params 183 5);
    [reflexivity|lra|reflexivity].
Defined.

(* ================================================================== *)
Local Close Scope Q_scope.
Local Open Scope Z_scope.

(** ** The calculator: tokens and keys *)

Lemma split_unit_no_sep (sep : Z) (s : jsstring) :
  ~ In sep s -> split_unit sep s = [s].
Proof.
  induction s as [|c s IH]; intro H; [reflexivity|].
  simpl. destruct (unit_eqb c sep) eqn:E.
  - apply unit_eqb_eq in E. exfalso. apply H. left. exact E.
  - rewrite IH; [reflexivity|]. intro I. apply H. right. exact I.
Qed.

Lemma parse_token_no_eq (p : ot_params) (t : jsstring) :
  ~ In 61 t -> parse_token p t = p.
Proof.
  intro H. unfold parse_token. now rewrite (split_unit_no_sep 61 t H).
Qed.

Lemma in_trimStart (c : Z) (s : jsstring) : In c (trimStart s) -> In c s.
Proof.
  destruct (trimStart_decomp s) as (a & E & _).
  intro H. rewrite E. apply in_or_app. right. exact H.
Qed.

Lemma in_trimEnd (c : Z) (s : jsstring) : In c (trimEnd s) -> In c s.
Proof.
  destruct (trimEnd_prefix s) as (b & E).
  intro H. rewrite E. apply in_or_app. left. exact H.
Qed.

Lemma in_trim (c : Z) (s : jsstring) : In c (trim s) -> In c s.
Proof. intro H. apply in_trimStart, in_trimEnd, H. Qed.

Lemma in_strip_command (c : Z) (text : jsstring) :
  In c (strip_command text) -> In c text.
Proof.
  unfold strip_command.
  destruct (strip_prefix ot_command text) as [r|] eqn:E; [|auto].
  apply strip_prefix_spec in E. subst text.
  intro H. apply in_or_app. right. exact H.
Qed.

Lemma in_split_ws_from (s : jsstring) :
  forall (b : bool) (t : jsstring) (c : Z),
    In t (split_ws_from s b) -> In c t -> In c s.
Proof.
  induction s as [|x s IH]; intros b t c Ht Hc.
  - simpl in Ht. destruct Ht as [<-|[]]. destruct Hc.
  - simpl in Ht. destruct (is_ws x).
    + destruct b.
      * right. eapply IH; eassumption.
      * destruct Ht as [<-|Ht]; [destruct Hc|].
        right. eapply IH; eassumption.
    + destruct (split_ws_from s false) as [|t0 ts] eqn:E.
      * destruct Ht as [<-|[]]. destruct Hc as [<-|[]]. now left.
      * destruct Ht as [<-|Ht].
        -- destruct Hc as [<-|Hc]; [now left|].
           right. apply (IH false t0 c); [rewrite E; now left|exact Hc].
        -- right. apply (IH false t c); [rewrite E; now right|exact Hc].
Qed.

Lemma fold_tokens_no_eq (ts : list jsstring) (p : ot_params) :
  (forall t, In t ts -> ~ In 61 t) -> fold_left parse_token ts p = p.
Proof.
  revert p. induction ts as [|t ts IH]; intros p H; [reflexivity|].
  simpl. rewrite parse_token_no_eq by (apply H; now left).
  apply IH. intros t' Ht'. apply H. now right.
Qed.

(** X6. A command text without any [=] sets nothing: the parameters are the
    defaults, whose wage is NaN, and the calculator refuses with the wage
    message. *)
Theorem parseOtArgs_without_assignment (text : jsstring) :
  ~ In 61 text ->
  parseOtArgs text = default_params
  /\ computeOtPay (parseOtArgs text) = OtFailure invalid_wage_message.
Proof.
  intro H.
  assert (E : parseOtArgs text = default_params).
  { unfold parseOtArgs. apply fold_tokens_no_eq.
    intros t Ht I. apply H.
    unfold filter_Boolean in Ht. apply filter_In in Ht as [Ht _].
    apply in_strip_command, in_trim.
    eapply in_split_ws_from; eassumption. }
  rewrite E. split; reflexivity.
Qed.

Lemma parseOtArgs_without_assignment_witness :
  parseOtArgs (utf16 "試算加班費 時薪 183 平日 2") = default_params
  /\ computeOtPay (parseOtArgs (utf16 "試算加班費 時薪 183 平日 2"))
     = OtFailure invalid_wage_message.
Proof.
  apply (parseOtArgs_without_assignment (utf16 "試算加班費 時薪 183 平日 2")).
  vm_compute. intuition discriminate.
Defined.

(** [includes], as the existence of an occurrence. *)
Lemma startsWith_spec (s p : jsstring) :
  startsWith s p = true <-> exists r, s = p ++ r.
Proof.
  unfold startsWith. split.
  - destruct (strip_prefix p s) as [r|] eqn:E; [|discriminate].
    intros _. exists r. now apply strip_prefix_spec.
  - intros [r ->]. now rewrite strip_prefix_app.
Qed.

Lemma includes_spec (s p : jsstring) :
  includes s p = true <-> exists pre post, s = pre ++ p ++ post.
Proof.
  induction s as [|c s IH].
  - simpl. rewrite orb_false_r, startsWith_spec. split.
    + intros [r E]. exists [], r. exact E.
    + intros (pre & post & E). destruct pre; [|discriminate].
      exists post. exact E.
  - simpl. rewrite orb_true_iff, startsWith_spec, IH. split.
    + intros [[r E]|(pre & post & E)].
      * exists [], r. exact E.
      * exists (c :: pre), post. simpl. now rewrite E.
    + intros (pre & post & E). destruct pre as [|x pre].
      * left. exists post. exact E.
      * right. injection E as _ E. exists pre, post. exact E.
Qed.

Lemma includes_prefix (s a b : jsstring) :
  includes s (a ++ b) = true -> includes s a = true.
Proof.
  rewrite !includes_spec. intros (pre & post & E).
  exists pre, (b ++ post). now rewrite E, <- app_assoc.
Qed.

Lemma includes_suffix (s a b : jsstring) :
  includes s (a ++ b) = true -> includes s b = true.
Proof.
  rewrite !includes_spec. intros (pre & post & E).
  exists (pre ++ a), post. now rewrite E, <- !app_assoc.
Qed.



Lemma mapKeys_weekday_word (k : jsstring) :
  includes (toLowerCase k) (utf16 "平日") = true -> In (mapKeys k) hour_fields.
Proof.
  intro H. unfold mapKeys.
  destruct (any_includes (toLowerCase k) _); [simpl; tauto|].
  replace (any_includes (toLowerCase k) [utf16 "平日加班"; utf16 "平日"]) with true.
  - simpl; tauto.
  - symmetry. unfold any_includes. cbn [existsb]. rewrite H.
    now rewrite orb_true_r.
Qed.

Lemma mapKeys_rest_word (k : jsstring) :
  includes (toLowerCase k) (utf16 "休息日") = true -> In (mapKeys k) hour_fields.
Proof.
  intro H. unfold mapKeys.
  destruct (any_includes (toLowerCase k) _); [simpl; tauto|].
  destruct (any_includes (toLowerCase k) _); [simpl; tauto|].
  replace (any_includes (toLowerCase k)
             [utf16 "休息日加班"; utf16 "休息日"; utf16 "休假日"]) with true.
  - simpl; tauto.
  - symmetry. unfold any_includes. cbn [existsb]. rewrite H.
    now rewrite orb_true_r.
Qed.

Lemma mapKeys_holiday_word (k : jsstring) :
  includes (toLowerCase k) (utf16 "假日") = true -> In (mapKeys k) hour_fields.
Proof.
  intro H. unfold mapKeys.
  destruct (any_includes (toLowerCase k) _); [simpl; tauto|].
  destruct (any_includes (toLowerCase k) _); [simpl; tauto|].
  destruct (any_includes (toLowerCase k) _); [simpl; tauto|].
  replace (any_includes (toLowerCase k)
             [utf16 "假日加班"; utf16 "國定假日"; utf16 "國假"; utf16 "假日"])
    with true.
  - simpl; tauto.
  - symmetry. unfold any_includes. cbn [existsb]. rewrite H.
    now rewrite !orb_true_r.
Qed.

Lemma set_hour_field_keeps_rates (key : jsstring) (val : jsval) (p : ot_params) :
  In key hour_fields ->
  weekdayRate1 (set_field key val p) = weekdayRate1 p
  /\ weekdayRate2 (set_field key val p) = weekdayRate2 p
  /\ restRate (set_field key val p) = restRate p
  /\ holidayRate (set_field key val p) = holidayRate p.
Proof.
  intros [<-|[<-|[<-|[<-|[]]]]]; repeat split; reflexivity.
Qed.

Lemma mapKeys_chinese_alias (k alias : jsstring) :
  In alias chinese_rate_aliases ->
  includes (toLowerCase k) alias = true -> In (mapKeys k) hour_fields.
Proof.
  intros [<-|[<-|[<-|[<-|[]]]]] H.
  - apply mapKeys_weekday_word.
    apply (includes_prefix _ (utf16 "平日") (utf16 "倍數1")). exact H.
  - apply mapKeys_weekday_word.
    apply (includes_prefix _ (utf16 "平日") (utf16 "倍數2")). exact H.
  - apply mapKeys_rest_word.
    apply (includes_prefix _ (utf16 "休息日") (utf16 "倍數")). exact H.
  - apply mapKeys_holiday_word.
    apply (includes_prefix _ (utf16 "假日") (utf16 "倍數")). exact H.
Qed.

(** X7. A key that contains one of the Chinese rate aliases is always read
    as one of the four hour fields, because the unanchored tests for the
    hour fields come first; a token with such a key leaves the four rates
    as they were. *)
Theorem chinese_rate_alias_never_sets_rate
        (p : ot_params) (t rawK alias : jsstring) (more : list jsstring) :
  In alias chinese_rate_aliases ->
  split_unit 61 t = rawK :: more ->
  includes (toLowerCase (trim rawK)) alias = true ->
  In (mapKeys (trim rawK)) hour_fields
  /\ weekdayRate1 (parse_token p t) = weekdayRate1 p
  /\ weekdayRate2 (parse_token p t) = weekdayRate2 p
  /\ restRate (parse_token p t) = restRate p
  /\ holidayRate (parse_token p t) = holidayRate p.
Proof.
  intros Ha Hs Hi.
  pose proof (mapKeys_chinese_alias (trim rawK) alias Ha Hi) as Hk.
  split; [exact Hk|].
  unfold parse_token. rewrite Hs.
  destruct more as [|rawV more']; [repeat split; reflexivity|].
  destruct (is_empty rawK); [repeat split; reflexivity|].
  cbv zeta.
  assert (N : name_in (mapKeys (trim rawK))
                      [utf16 "hourly"; utf16 "weekday"; utf16 "rest";
                       utf16 "holiday"] = true).
  { destruct Hk as [<-|[<-|[<-|[<-|[]]]]]; reflexivity. }
  rewrite N.
  destruct (negb (Number_isNaN (parseFloat (keep_digits_dot rawV))));
    [|repeat split; reflexivity].
  apply set_hour_field_keeps_rates. exact Hk.
Qed.

Lemma chinese_rate_alias_never_sets_rate_witness :
  In (mapKeys (trim (utf16 "平日倍數1"))) hour_fields
  /\ weekdayRate1 (parse_token default_params (utf16 "平日倍數1=1.34"))
     = weekdayRate1 default_params
  /\ weekdayRate2 (parse_token default_params (utf16 "平日倍數1=1.34"))
     = weekdayRate2 default_params
  /\ restRate (parse_token default_params (utf16 "平日倍數1=1.34"))
     = restRate default_params
  /\ holidayRate (parse_token default_params (utf16 "平日倍數1=1.34"))
     = holidayRate default_params.
Proof.
  apply (chinese_rate_alias_never_sets_rate
           default_params (utf16 "平日倍數1=1.34") (utf16 "平日倍數1")
           (utf16 "平日倍數1") [utf16 "1.34"]).
  - vm_compute. tauto.
  - vm_compute. reflexivity.
  - vm_compute. reflexivity.
Defined.

(* ================================================================== *)
Local Open Scope Z_scope.

(** ** Article numbers: range and white space *)

Lemma first_pattern_some (ps : list (jsstring -> option jsstring))
      (s : jsstring) (n : Z) :
  (forall re g, In re ps -> re_search re s = Some g -> good_group g) ->
  first_pattern ps s = Some n ->
  exists re g, In re ps /\ re_search re s = Some g
               /\ n = digits_value (to_halfwidth g).
Proof.
  induction ps as [|re ps IH]; intros G H; [discriminate|].
  simpl in H.
  destruct (re_search re s) as [g|] eqn:E.
  - pose proof (G re g (or_introl eq_refl) E) as Gg.
    destruct (good_group_number g Gg) as [Ne Pn].
    rewrite Ne, Pn in H. injection H as <-.
    exists re, g. repeat split; [now left|exact E].
  - destruct IH as (re' & g & I & E' & V); [|exact H|].
    + intros r g' I. apply G. now right.
    + exists re', g. repeat split; [now right|exact E'|exact V].
Qed.

Lemma extractArticleNumber_eq (text : jsstring) :
  extractArticleNumber text = first_pattern patterns (remove_ws text).
Proof. destruct text; reflexivity. Qed.

Lemma halfwidth_value_bound (g : jsstring) :
  good_group g -> 0 <= digits_value (to_halfwidth g) <= 999.
Proof.
  intros (_ & L & D).
  assert (0 <= digits_value (to_halfwidth g) < 1000); [|lia].
  apply digits_value_bound.
  - unfold to_halfwidth. now rewrite length_map.
  - now apply to_halfwidth_digits.
Qed.


Lemma lawUrl_positive (n : Z) : 0 < n -> lawUrl n = single_article_url ++ decimal n.
Proof.
  intro H. unfold lawUrl, single_article_url.
  destruct (n =? 0) eqn:C1; [apply Z.eqb_eq in C1; lia|].
  destruct (n <=? 0) eqn:C2; [apply Z.leb_le in C2; lia|].
  reflexivity.
Qed.

(** X8. An article number taken from user text is the value of a group of
    one to three digits, so it lies between 0 and 999; when it is not zero,
    which is when the handler looks the article up, the official link built
    from it is the page of that single article. White space plays no part:
    any text that is the same once white space is removed gives the same
    number. *)
Theorem extractArticleNumber_range (text other : jsstring) (n : Z) :
  extractArticleNumber text = Some n ->
  0 <= n <= 999
  /\ (exists g, good_group g /\ n = digits_value (to_halfwidth g))
  /\ (n <> 0 -> lawUrl n = single_article_url ++ decimal n)
  /\ (remove_ws other = remove_ws text -> extractArticleNumber other = Some n).
Proof.
  intro H0. pose proof H0 as H.
  rewrite extractArticleNumber_eq in H.
  apply first_pattern_some in H.
  - destruct H as (re & g & I & E & ->).
    destruct (pattern_sound re _ g I E) as [Gg _].
    pose proof (halfwidth_value_bound g Gg) as B.
    split; [exact B|]. split; [exists g; now split|].
    split.
    + intro Nz. apply lawUrl_positive. lia.
    + intro W. rewrite extractArticleNumber_eq, W, <- extractArticleNumber_eq.
      exact H0.
  - intros re g I E. now destruct (pattern_sound re _ g I E).
Qed.

Lemma extractArticleNumber_range_witness :
  0 <= 24 <= 999
  /\ (exists g, good_group g /\ 24 = digits_value (to_halfwidth g))
  /\ lawUrl 24 = single_article_url ++ decimal 24
  /\ extractArticleNumber (utf16 " 查 勞基法 第 ２４ 條 ") = Some 24.
Proof.
  destruct (extractArticleNumber_range (utf16 "查勞基法第２４條")
                                       (utf16 " 查 勞基法 第 ２４ 條 ") 24)
    as (H1 & H2 & H3 & H4); [vm_compute; reflexivity|].
  split; [exact H1|]. split; [exact H2|].
  split; [apply H3; discriminate|apply H4; vm_compute; reflexivity].
Defined.

(** ** The links under an answer *)

Lemma insert_sorted_In (n x : Z) (l : list Z) :
  In x (insert_sorted n l) <-> x = n \/ In x l.
Proof.
  induction l as [|m l IH]; simpl; [intuition|].
  destruct (n <=? m); simpl; [intuition|].
  rewrite IH. intuition.
Qed.

Lemma sort_ascending_In (x : Z) (l : list Z) :
  In x (sort_ascending l) <-> In x l.
Proof.
  induction l as [|n l IH]; simpl; [tauto|].
  rewrite insert_sorted_In, IH. intuition.
Qed.

Lemma insert_sorted_strict (n : Z) (l : list Z) :
  StronglySorted Z.lt l -> ~ In n l -> StronglySorted Z.lt (insert_sorted n l).
Proof.
  induction l as [|m l IH]; intros S N; simpl.
  - constructor; constructor.
  - apply StronglySorted_inv in S as [S F].
    destruct (n <=? m) eqn:C.
    + apply Z.leb_le in C.
      assert (Lt : n < m).
      { destruct (Z.eq_dec n m) as [->|]; [exfalso; apply N; now left|lia]. }
      constructor; [constructor; assumption|].
      constructor; [exact Lt|].
      eapply Forall_impl; [|exact F]. simpl. intros; lia.
    + apply Z.leb_gt in C.
      constructor.
      * apply IH; [exact S|]. intro I. apply N. now right.
      * apply Forall_forall. intros x Hx.
        apply insert_sorted_In in Hx as [->|Hx]; [exact C|].
        rewrite Forall_forall in F. now apply F.
Qed.

Lemma sort_ascending_strict (l : list Z) :
  NoDup l -> StronglySorted Z.lt (sort_ascending l).
Proof.
  induction 1 as [|n l N D IH]; simpl; [constructor|].
  apply insert_sorted_strict; [exact IH|].
  now rewrite sort_ascending_In.
Qed.

Lemma insert_sorted_length (n : Z) (l : list Z) :
  length (insert_sorted n l) = S (length l).
Proof.
  induction l as [|m l IH]; simpl; [reflexivity|].
  destruct (n <=? m); simpl; [reflexivity|now rewrite IH].
Qed.

Lemma sort_ascending_length (l : list Z) :
  length (sort_ascending l) = length l.
Proof.
  induction l as [|n l IH]; simpl; [reflexivity|].
  now rewrite insert_sorted_length, IH.
Qed.

Lemma extractLawNumbers_In (text : jsstring) (n : Z) :
  In n (extractLawNumbers text) <-> 0 < n /\ law_reference text n.
Proof.
  unfold extractLawNumbers. split.
  - intro H. apply law_loop_sound in H as [[]|H]. exact H.
  - intros [P R]. apply law_loop_complete; [lia|exact P|exact R].
Qed.

Lemma law_reference_bound (text : jsstring) (n : Z) :
  law_reference text n -> 0 <= n <= 999.
Proof.
  intros (pre & t & _ & ws1 & ds & ws2 & post & _ & _ & _ & _ & L & D & <-).
  pose proof (digits_value_bound ds L D). lia.
Qed.


(** X9. [appendLawLinks] never alters the answer: the result is the answer
    itself when it names no article, and otherwise the answer followed by a
    header and one link line for each article it names. The articles are
    the numbers 1 to 999 that occur as a reference, each once, in strictly
    ascending order, and every link is the page of a single article. *)
Theorem appendLawLinks_shape (answer : jsstring) :
  exists nums,
    StronglySorted Z.lt nums
    /\ (forall n, In n nums <-> 0 < n /\ law_reference answer n)
    /\ Forall (fun n => 1 <= n <= 999) nums
    /\ length nums = length (extractLawNumbers answer)
    /\ appendLawLinks answer
       = match nums with
         | [] => answer
         | _ =>
           answer ++ [10; 10] ++ utf16 "🔗 參考條文：" ++ [10]
                  ++ join [10] (map link_line nums)
         end.
Proof.
  exists (sort_ascending (extractLawNumbers answer)).
  assert (M : forall n, In n (sort_ascending (extractLawNumbers answer))
                        <-> 0 < n /\ law_reference answer n).
  { intro n. now rewrite sort_ascending_In, extractLawNumbers_In. }
  split.
  { apply sort_ascending_strict. unfold extractLawNumbers.
    apply law_loop_NoDup. constructor. }
  split; [exact M|].
  split.
  { apply Forall_forall. intros n Hn. apply M in Hn as [P R].
    pose proof (law_reference_bound answer n R). lia. }
  split; [apply sort_ascending_length|].
  assert (Hmap : map (fun n => utf16 "• 第 " ++ decimal n ++ utf16 " 條："
                                    ++ lawUrl n)
                     (sort_ascending (extractLawNumbers answer))
                 = map link_line (sort_ascending (extractLawNumbers answer))).
  { apply map_ext_in. intros n Hn. unfold link_line.
    rewrite lawUrl_positive; [reflexivity|]. now apply M in Hn. }
  unfold appendLawLinks. cbv zeta. rewrite Hmap.
  pose proof (sort_ascending_length (extractLawNumbers answer)) as L.
  destruct (extractLawNumbers answer) as [|m l]; [reflexivity|].
  destruct (sort_ascending (m :: l)) as [|a r]; [discriminate|].
  reflexivity.
Qed.

(* ================================================================== *)
Local Open Scope nat_scope.

(** ** The indexes *)

(** X10. [findArticleByNumber] answers with the first record that carries
    the number, and with nothing exactly when no record carries it. *)
Theorem findArticleByNumber_first (arts : list article) (n : Z) :
  match findArticleByNumber arts n with
  | Some a =>
    exists before after,
      arts = before ++ a :: after /\ no a = n
      /\ Forall (fun r => no r <> n) before
  | None => Forall (fun r => no r <> n) arts
  end.
Proof.
  unfold findArticleByNumber.
  induction arts as [|r arts IH]; simpl; [constructor|].
  destruct (Z.eqb_spec (no r) n) as [E|E].
  - exists [], arts. repeat split; [exact E|constructor].
  - destruct (find (fun a => (no a =? n)%Z) arts) as [a|].
    + destruct IH as (before & after & -> & Hn & F).
      exists (r :: before), after. repeat split; [exact Hn|].
      constructor; assumption.
    + constructor; assumption.
Qed.







Lemma best_match_scored {A : Type} (kws : A -> option (list jsstring))
      (records : list A) (text : jsstring) (b : A) :
  best_match kws records text = Some b ->
  In b records /\ 0 < keyword_score (normalize text) (kws b).
Proof.
  intro E. pose proof (best_match_result kws records text) as L.
  rewrite E in L. destruct L as (before & after & -> & P & _).
  split; [|exact P]. apply in_or_app. right. now left.
Qed.



(** X12. A text that is empty once normalized, such as one of blanks and
    line breaks only, matches no article, whatever the keywords on file:
    a keyword that is blank itself is skipped, not counted. *)
Theorem findArticleByKeyword_blank_text (arts : list article) (text : jsstring) :
  normalize text = [] -> findArticleByKeyword arts text = None.
Proof.
  intro H. unfold findArticleByKeyword.
  destruct (best_match keywords arts text) as [b|] eqn:E; [|reflexivity].
  apply best_match_scored in E as [_ P].
  rewrite H, keyword_score_empty_text in P. lia.
Qed.

Lemma findArticleByKeyword_blank_text_witness :
  findArticleByKeyword [blank_keyword_article; overtime_article]
                       [32; 10; 12288]%Z = None.
Proof.
  apply (findArticleByKeyword_blank_text
           [blank_keyword_article; overtime_article] [32; 10; 12288]%Z).
  vm_compute. reflexivity.
Defined.

(* ================================================================== *)
Local Open Scope nat_scope.

(** ** The gateway: concise requests, final answers, budget *)

Lemma ask_concise_unfold (E : env) (userText : jsstring) (w : world) :
  openai E = true ->
  askOpenAIForLaborHelp E userText Concise w
  = let (r1, w1) := openaiChatWithRetry E (first_payload Concise userText)
                                        (first_options Concise) w in
    match r1 with
    | inr choice => (answer_of choice, w1)
    | inl _ =>
      let (r3, w3) := openaiChatWithRetry E (fallback_payload userText)
                                          fallback_options w1 in
      (match r3 with
       | inr choice => answer_of choice
       | inl _ => None
       end, w3)
    end.
Proof.
  intros H. unfold askOpenAIForLaborHelp. rewrite H. cbn [negb].
  unfold bind at 1.
  destruct (openaiChatWithRetry E (first_payload Concise userText)
                                (first_options Concise) w) as [[e1|c1] w1];
    [|reflexivity].
  unfold concise_fallback, bind.
  destruct (openaiChatWithRetry E (fallback_payload userText)
                                fallback_options w1) as [[e3|c3] w3];
    reflexivity.
Qed.

Lemma chain_events_In (E : env) (lbl : jsstring) (payload : chat_payload)
      (tmo : Z) (k : nat) :
  forall (attempt draw : nat) (e : io_event),
    In e (chain_events E lbl payload tmo attempt draw k) ->
    e = Call lbl payload tmo \/ is_sleep e = true.
Proof.
  induction k as [|k IH]; intros attempt draw e H; simpl in H.
  - destruct H as [<-|[]]. now left.
  - destruct H as [<-|[<-|H]]; [now left|now right|].
    eapply IH, H.
Qed.

Lemma adds_after_chain (E : env) (payload : chat_payload)
      (opts : retry_options) (w : world) (k : nat) :
  trace (after_chain E payload opts w k)
  = trace w ++ chain_events E (label opts) payload (timeout opts) 0 (draws w) k.
Proof. reflexivity. Qed.

(** X13. A concise request runs the concise tier of 360 tokens and, when
    that tier is exhausted, the concise tier of 320 tokens once; it never
    runs a detailed tier: every call it makes carries the concise prompt. *)
Theorem concise_request_ladder (E : env) (userText : jsstring) (w : world) :
  openai E = true ->
  (exists k1 r1,
      chain_run E (first_payload Concise userText) 10000 1 w k1 r1
      /\ let w1 := after_chain E (first_payload Concise userText)
                               (first_options Concise) w k1 in
         match r1 with
         | inr choice =>
           askOpenAIForLaborHelp E userText Concise w = (answer_of choice, w1)
         | inl _ =>
           exists k3 r3,
             chain_run E (fallback_payload userText) 9000 1 w1 k3 r3
             /\ askOpenAIForLaborHelp E userText Concise w
                = (match r3 with
                   | inr choice => answer_of choice
                   | inl _ => None
                   end,
                   after_chain E (fallback_payload userText)
                               fallback_options w1 k3)
         end)
  /\ exists out,
       adds (askOpenAIForLaborHelp E userText Concise) w out
       /\ Forall concise_call out.
Proof.
  intros Hclient.
  unfold adds. rewrite (ask_concise_unfold E userText w Hclient).
  destruct (openaiChatWithRetry_run E (first_payload Concise userText)
                                    (first_options Concise) w)
    as (k1 & r1 & E1 & R1).
  rewrite E1.
  assert (C1 : Forall concise_call
                 (chain_events E (label (first_options Concise))
                    (first_payload Concise userText)
                    (timeout (first_options Concise)) 0 (draws w) k1)).
  { apply Forall_forall. intros e He.
    apply chain_events_In in He as [->|He].
    - simpl. auto.
    - destruct e; try discriminate. exact I. }
  destruct r1 as [e1|c1].
  - destruct (openaiChatWithRetry_run E (fallback_payload userText)
                fallback_options
                (after_chain E (first_payload Concise userText)
                             (first_options Concise) w k1))
      as (k3 & r3 & E3 & R3).
    rewrite E3. split.
    + exists k1, (inl e1). split; [exact R1|]. cbv zeta.
      exists k3, r3. split; [exact R3|]. destruct r3; reflexivity.
    + eexists. cbn [snd]. rewrite !adds_after_chain, <- app_assoc.
      split; [reflexivity|].
      apply Forall_app. split; [exact C1|].
      apply Forall_forall. intros e He.
      apply chain_events_In in He as [->|He].
      * simpl. auto.
      * destruct e; try discriminate. exact I.
  - split.
    + exists k1, (inr c1). split; [exact R1|]. reflexivity.
    + eexists. cbn [snd]. rewrite adds_after_chain.
      split; [reflexivity|exact C1].
Qed.

Lemma concise_request_ladder_witness :
  exists out,
    adds (askOpenAIForLaborHelp timeouts_env (utf16 "加班費怎麼算") Concise)
         initial_world out
    /\ Forall concise_call out.
Proof.
  apply (concise_request_ladder timeouts_env (utf16 "加班費怎麼算")
           initial_world).
  reflexivity.
Defined.

(** X14. The first completion that arrives ends the request, whatever it
    holds: one call is made, no pause, no further tier. A completion with
    no content, or with the empty string, gives no answer; the gateway does
    not degrade to look for a better one. *)
Theorem first_completion_is_final
        (E : env) (q : jsstring) (mode : ai_mode) (w : world)
        (content : option jsstring) :
  openai E = true ->
  chat_completions_create E (calls w) (first_payload mode q)
                          (timeout (first_options mode)) = Resolved content ->
  askOpenAIForLaborHelp E q mode w
  = (answer_of content,
     mkWorld (S (calls w)) (draws w)
             (trace w ++ [Call (label (first_options mode))
                               (first_payload mode q)
                               (timeout (first_options mode))]))
  /\ (content = None \/ content = Some [] ->
      fst (askOpenAIForLaborHelp E q mode w) = None).
Proof.
  intros Hclient Hres.
  assert (Eq : askOpenAIForLaborHelp E q mode w
               = (answer_of content,
                  mkWorld (S (calls w)) (draws w)
                          (trace w ++ [Call (label (first_options mode))
                                            (first_payload mode q)
                                            (timeout (first_options mode))]))).
  { unfold askOpenAIForLaborHelp. rewrite Hclient. cbn [negb].
    unfold bind at 1. unfold openaiChatWithRetry.
    rewrite retry_loop_unfold, Hres. reflexivity. }
  split; [exact Eq|].
  rewrite Eq. intros [->| ->]; reflexivity.
Qed.

Lemma first_completion_is_final_witness :
  fst (askOpenAIForLaborHelp
         (mkEnv [] [] true (fun _ _ _ => Resolved (Some [])) (fun _ => 0%Q))
         (utf16 "加班費怎麼算") Detailed initial_world) = None.
Proof.
  apply (first_completion_is_final
           (mkEnv [] [] true (fun _ _ _ => Resolved (Some [])) (fun _ => 0%Q))
           (utf16 "加班費怎麼算") Detailed initial_world (Some []));
    [reflexivity|reflexivity|right; reflexivity].
Defined.

(** *** Budget *)

Lemma adds_ret {A : Type} (a : A) (w : world) : adds (ret a) w [].
Proof. unfold adds, ret. simpl. now rewrite app_nil_r. Qed.

Lemma adds_emit (e : io_event) (w : world) : adds (emit e) w [e].
Proof. reflexivity. Qed.

Lemma adds_bind {A B : Type} (m : M A) (f : A -> M B) (w : world)
      (o1 o2 : list io_event) :
  adds m w o1 -> adds (f (fst (m w))) (snd (m w)) o2 ->
  adds (bind m f) w (o1 ++ o2).
Proof.
  unfold adds, bind. intros H1 H2. destruct (m w) as [a w']. simpl in *.
  now rewrite H2, H1, app_assoc.
Qed.

Lemma within_nil : within_budget 0 0 [].
Proof. repeat split; simpl; auto. Qed.

Lemma within_app (c1 s1 c2 s2 : nat) (a b : list io_event) :
  within_budget c1 s1 a -> within_budget c2 s2 b ->
  within_budget (c1 + c2) (s1 + s2) (a ++ b).
Proof.
  intros (A1 & A2 & A3) (B1 & B2 & B3). unfold within_budget.
  rewrite !filter_app, !length_app. repeat split; [lia|lia|].
  apply Forall_app. now split.
Qed.

Lemma within_weaken (c s c' s' : nat) (out : list io_event) :
  c <= c' -> s <= s' -> within_budget c s out -> within_budget c' s' out.
Proof. intros Hc Hs (A1 & A2 & A3). repeat split; [lia|lia|exact A3]. Qed.

Lemma costs_ret {A : Type} (a : A) : costs 0 0 (ret a).
Proof. intro w. exists []. split; [apply adds_ret|apply within_nil]. Qed.

Lemma costs_send (e : io_event) :
  is_send e = true -> costs 0 0 (emit e).
Proof.
  intros H w. exists [e]. split; [apply adds_emit|].
  destruct e; try discriminate; repeat split; simpl; auto;
    repeat constructor.
Qed.

Lemma costs_bind {A B : Type} (c1 s1 c2 s2 : nat) (m : M A) (f : A -> M B) :
  costs c1 s1 m -> (forall a, costs c2 s2 (f a)) ->
  costs (c1 + c2) (s1 + s2) (bind m f).
Proof.
  intros H1 H2 w.
  destruct (H1 w) as (o1 & A1 & W1).
  destruct (H2 (fst (m w)) (snd (m w))) as (o2 & A2 & W2).
  exists (o1 ++ o2). split; [now apply adds_bind|now apply within_app].
Qed.

Lemma costs_weaken {A : Type} (c s c' s' : nat) (m : M A) :
  c <= c' -> s <= s' -> costs c s m -> costs c' s' m.
Proof.
  intros Hc Hs H w. destruct (H w) as (out & Ao & Wo).
  exists out. split; [exact Ao|]. eapply within_weaken; eassumption.
Qed.

Lemma costs_retry (E : env) (payload : chat_payload) (opts : retry_options) :
  random_in_unit E -> retries opts = 1 ->
  costs 2 1 (openaiChatWithRetry E payload opts).
Proof.
  intros Hr H1 w.
  destruct (openaiChatWithRetry_run E payload opts w) as (k & r & Eq & Hk & _).
  rewrite H1 in Hk.
  exists (chain_events E (label opts) payload (timeout opts) 0 (draws w) k).
  split; [unfold adds; now rewrite Eq|].
  destruct k as [|[|k]]; [| |lia].
  - split; [simpl; lia|]. split; [simpl; lia|]. repeat constructor.
  - split; [simpl; lia|]. split; [simpl; lia|].
    cbn [chain_events].
    constructor; [exact I|]. constructor; [|repeat constructor].
    destruct (Hr (draws w)) as [R0 R1].
    pose proof (backoff_delay_bounds E 0 (draws w) R0 R1) as B.
    change (baseDelay * 2 ^ Z.of_nat 0)%Z with 1000%Z in B.
    unfold short_pause. lia.
Qed.

Lemma costs_concise_fallback (E : env) (q : jsstring) :
  random_in_unit E -> costs 2 1 (concise_fallback E q).
Proof.
  intro Hr. unfold concise_fallback.
  apply (costs_bind 2 1 0 0); [now apply costs_retry|].
  intros [e|c]; apply costs_ret.
Qed.

Lemma costs_ask (E : env) (q : jsstring) (mode : ai_mode) :
  random_in_unit E ->
  costs (call_budget mode) (sleep_budget mode) (askOpenAIForLaborHelp E q mode).
Proof.
  intro Hr. unfold askOpenAIForLaborHelp.
  destruct (negb (openai E)).
  { eapply costs_weaken; [| |apply costs_ret]; lia. }
  destruct mode.
  - apply (costs_bind 2 1 2 1); [apply costs_retry; [exact Hr|reflexivity]|].
    intros [e|c].
    + now apply costs_concise_fallback.
    + eapply costs_weaken; [| |apply costs_ret]; lia.
  - apply (costs_bind 2 1 4 2); [apply costs_retry; [exact Hr|reflexivity]|].
    intros [e|c].
    + apply (costs_bind 2 1 2 1); [apply costs_retry; [exact Hr|reflexivity]|].
      intros [e2|c2].
      * now apply costs_concise_fallback.
      * eapply costs_weaken; [| |apply costs_ret]; lia.
    + eapply costs_weaken; [| |apply costs_ret]; lia.
Qed.

Lemma total_sleep_app (a b : list io_event) :
  total_sleep (a ++ b) = (total_sleep a + total_sleep b)%Z.
Proof. induction a as [|e a IH]; simpl; [reflexivity|]. rewrite IH. lia. Qed.

Lemma total_sleep_bound (out : list io_event) :
  Forall short_pause out ->
  (1000 * Z.of_nat (length (filter is_sleep out)) <= total_sleep out
   <= 1199 * Z.of_nat (length (filter is_sleep out)))%Z.
Proof.
  induction 1 as [|e out P F IH]; [simpl; lia|].
  unfold total_sleep in *. cbn [fold_right filter].
  destruct e; cbn [is_sleep sleep_time length]; rewrite ?Nat2Z.inj_succ;
    unfold short_pause in P; lia.
Qed.

(** X15. One request to the gateway makes at most six completion calls and
    pauses at most three times when it is detailed, four calls and two
    pauses when it is concise; each pause lasts from 1000 to 1199
    milliseconds, so the pauses add up to less than 3.6 seconds, and the
    gateway sends no message of its own. *)
Theorem gateway_budget (E : env) (q : jsstring) (mode : ai_mode) (w : world) :
  random_in_unit E ->
  exists out,
    adds (askOpenAIForLaborHelp E q mode) w out
    /\ within_budget (call_budget mode) (sleep_budget mode) out
    /\ (total_sleep out <= 1199 * Z.of_nat (sleep_budget mode))%Z
    /\ filter is_send out = [].
Proof.
  intro Hr. destruct (costs_ask E q mode Hr w) as (out & Ao & Wo).
  exists out. split; [exact Ao|]. split; [exact Wo|].
  destruct Wo as (_ & S & P). split.
  - pose proof (total_sleep_bound out P). nia.
  - pose proof (grows_ask E q mode w) as G. unfold grows in G.
    unfold adds in Ao. rewrite Ao, filter_app in G.
    rewrite app_nil_r in G.
    apply (f_equal (@length io_event)) in G. rewrite length_app in G.
    destruct (filter is_send out); [reflexivity|simpl in G; lia].
Qed.

Lemma gateway_budget_witness :
  exists out,
    adds (askOpenAIForLaborHelp timeouts_env (utf16 "加班費怎麼算") Detailed)
         initial_world out
    /\ within_budget 6 3 out
    /\ (total_sleep out <= 1199 * 3)%Z
    /\ filter is_send out = [].
Proof.
  apply (gateway_budget timeouts_env (utf16 "加班費怎麼算") Detailed
           initial_world).
  intro i. split; vm_compute; congruence.
Defined.

(* ================================================================== *)
Local Open Scope nat_scope.

(** ** The handler: what it sends and what it costs *)

Lemma command_branches_cases (E : env) (ev : event) (userText : jsstring) :
  command_branches E ev userText = article_branch E ev userText
  \/ exists e, In e (menu_events (replyToken ev))
               /\ command_branches E ev userText = emit e.
Proof.
  unfold command_branches, menu_events, replyText, sendOtFlex, sendFunctionMenu.
  cbv zeta. rewrite calculator_arguments_branch_unreachable.
  repeat match goal with
         | |- context [if ?b then _ else _] =>
           destruct b;
             [right; eexists; split; [|reflexivity]; simpl; tauto|]
         end.
  left. reflexivity.
Qed.

Lemma nonempty_some (o : option jsstring) (a : jsstring) :
  nonempty o = Some a -> a <> [].
Proof.
  destruct o as [s|]; [|discriminate]. simpl.
  destruct s; [discriminate|]. intros [= <-]. discriminate.
Qed.

Lemma fuzzy_reply_sound (E : env) (userText : jsstring) (w : world) :
  sound_body E (fuzzy_reply E userText w).
Proof.
  unfold fuzzy_reply.
  destruct (findBestFaq (faqs E) userText); [split; [reflexivity|exact I]|].
  destruct (findArticleByKeyword (articles E) userText) as [a|] eqn:K.
  - split; [reflexivity|]. simpl.
    apply best_match_scored in K as [K _]. now split.
  - destruct (nonempty _) as [a|] eqn:N; (split; [reflexivity|]); simpl; auto.
    eapply nonempty_some, N.
Qed.

Lemma findArticleByNumber_some (arts : list article) (n : Z) (a : article) :
  findArticleByNumber arts n = Some a -> In a arts /\ no a = n.
Proof.
  unfold findArticleByNumber. intro H. apply find_some in H as [I H].
  split; [exact I|]. now apply Z.eqb_eq.
Qed.

Lemma extractArticleNumber_bound (text : jsstring) (n : Z) :
  extractArticleNumber text = Some n -> (0 <= n <= 999)%Z.
Proof.
  rewrite extractArticleNumber_eq. intro H.
  apply first_pattern_some in H.
  - destruct H as (re & g & I & S & ->).
    apply halfwidth_value_bound. now destruct (pattern_sound re _ g I S).
  - intros re g I S. now destruct (pattern_sound re _ g I S).
Qed.

Lemma article_reply_sound (E : env) (userText : jsstring) (w : world) :
  sound_body E (article_reply E userText w).
Proof.
  unfold article_reply.
  destruct (extractArticleNumber userText) as [n|] eqn:X;
    [|apply fuzzy_reply_sound].
  destruct (Z.eqb_spec n 0) as [|Nz]; [apply fuzzy_reply_sound|].
  pose proof (extractArticleNumber_bound userText n X) as B.
  destruct (findArticleByNumber (articles E) n) as [a|] eqn:F.
  - split; [reflexivity|]. simpl. now apply findArticleByNumber_some.
  - destruct (nonempty _) as [a|] eqn:N; (split; [reflexivity|]); simpl.
    + split; [lia|eapply nonempty_some, N].
    + lia.
Qed.

Lemma ai_body_sound (E : env) (d : bool) (q : jsstring) (w : world) :
  sound_body E (fst (ai_body E d q w)).
Proof.
  unfold ai_body. destruct (negb (openai E)); [split; [reflexivity|exact I]|].
  unfold bind.
  destruct (askOpenAIForLaborHelp E q (if d then Detailed else Concise) w)
    as [a w'].
  destruct (nonempty a) as [x|] eqn:N; (split; [reflexivity|]); simpl; auto.
  eapply nonempty_some, N.
Qed.

Lemma grows_ai_text (E : env) (ev : event) (trimmed : jsstring) (w : world) :
  exists text,
    sound_body E text
    /\ grows (ai_branch E ev trimmed) w
             (if is_empty (ai_aiQuestion trimmed)
              then [ReplyText (replyToken ev) AiUsageText]
              else [ReplyText (replyToken ev) AiThinkingText; ai_send ev text]).
Proof.
  unfold ai_branch. cbv zeta.
  destruct (is_empty (ai_aiQuestion trimmed)).
  - exists WelcomeText. split; [split; [reflexivity|exact I]|].
    apply grows_emit. reflexivity.
  - eexists. split; [apply ai_body_sound|].
    apply (grows_bind _ _ w [_] [_]); [apply grows_emit; reflexivity|].
    apply (grows_bind _ _ _ [] [_]); [apply grows_ai_body|].
    unfold ai_send. destruct (getSourceId ev); apply grows_emit; reflexivity.
Qed.

Lemma menu_event_sound (E : env) (tok : jsstring) (e : io_event) :
  In e (menu_events tok) -> is_send e = true /\ sound_event E e.
Proof.
  unfold menu_events. simpl.
  intros [<-|[<-|[<-|[<-|[<-|[<-|[]]]]]]];
    (split; [reflexivity|]); unfold sound_event; simpl; auto;
    (split; [reflexivity|exact I]).
Qed.

Lemma sound_ai_send (E : env) (ev : event) (text : body) :
  sound_body E text -> sound_event E (ai_send ev text).
Proof. unfold ai_send. destruct (getSourceId ev); auto. Qed.

Lemma sound_reply (E : env) (tok : jsstring) (b : body) :
  is_calculation b = false -> consistent_body E b ->
  sound_event E (ReplyText tok b).
Proof. intros H1 H2. split; assumption. Qed.

Lemma handle_text_sound (E : env) (ev : event) (userText : jsstring)
      (w : world) :
  exists out,
    grows (handle_text E ev userText) w out /\ Forall (sound_event E) out.
Proof.
  unfold handle_text. cbv zeta.
  destruct (has_ai_prefix userText).
  - destruct (grows_ai_text E ev (trim userText) w) as (text & S & G).
    eexists. split; [exact G|].
    destruct (is_empty (ai_aiQuestion (trim userText))).
    + constructor; [|constructor]. now apply sound_reply.
    + constructor; [now apply sound_reply|].
      constructor; [|constructor]. now apply sound_ai_send.
  - destruct (command_branches_cases E ev userText) as [C|(e & I & C)].
    + rewrite C. eexists. split; [apply grows_article|].
      constructor; [|constructor]. apply article_reply_sound.
    + rewrite C. destruct (menu_event_sound E _ e I) as [S1 S2].
      exists [e]. split; [now apply grows_emit|].
      constructor; [exact S2|constructor].
Qed.

(** Every message of the handler is sound. *)
Lemma sends_sound (E : env) (ev : event) : Forall (sound_event E) (sends E ev).
Proof.
  destruct (str_eqb (replyToken ev) verify_token) eqn:V.
  { unfold sends, handle_event. rewrite V. constructor. }
  destruct (type ev) as [|[userText|]|] eqn:T.
  - unfold sends, handle_event. rewrite V, T. simpl.
    constructor; [|constructor]. now apply sound_reply.
  - destruct (handle_text_sound E ev userText initial_world) as (out & G & F).
    rewrite <- (handle_event_text E ev userText V T) in G.
    now rewrite (sends_of_grows E ev out G).
  - unfold sends, handle_event. rewrite V, T. constructor.
  - unfold sends, handle_event. rewrite V, T. constructor.
Qed.

(** X16. The handler never answers with a calculation: whatever the event,
    no message it sends is a result or a refusal of the calculator. The
    test that guards the calculator asks for a space after the command in a
    text from which every space has been removed. *)
Theorem handler_never_sends_a_calculation (E : env) (ev : event) :
  Forall (fun e => match body_of e with
                   | Some b => is_calculation b = false
                   | None => True
                   end) (sends E ev)
  /\ forall userText,
       startsWith (normalize userText) (utf16 "試算加班費 ") = false.
Proof.
  split; [|apply calculator_arguments_branch_unreachable].
  eapply Forall_impl; [|apply sends_sound].
  intros e H. unfold sound_event in H.
  destruct (body_of e); [|exact I]. apply H.
Qed.

(** X17. The texts of the handler agree with the data behind them: an
    article text shows a record that is on file, under the number of that
    record; a reply about an article without record names an article from
    1 to 999; an answer of the model that is sent is never empty. *)
Theorem handler_texts_are_consistent (E : env) (ev : event) :
  Forall (fun e => match body_of e with
                   | Some b => consistent_body E b
                   | None => True
                   end) (sends E ev).
Proof.
  eapply Forall_impl; [|apply sends_sound].
  intros e H. unfold sound_event in H.
  destruct (body_of e); [|exact I]. apply H.
Qed.

(** *** Cost *)

Lemma costs_reply (c s : nat) (tok : jsstring) (b : body) :
  costs c s (replyText tok b).
Proof.
  eapply costs_weaken; [| |apply costs_send]; [lia|lia|reflexivity].
Qed.

Lemma costs_ask_reply (E : env) (c s : nat) (q : jsstring) (mode : ai_mode)
      (tok : jsstring) (f : jsstring -> body) (g : body) :
  costs c s (askOpenAIForLaborHelp E q mode) ->
  costs c s (aiAnswer <- askOpenAIForLaborHelp E q mode ;;
             match nonempty aiAnswer with
             | Some a => replyText tok (f a)
             | None => replyText tok g
             end).
Proof.
  intro H. eapply costs_weaken; [| |apply (costs_bind c s 0 0)];
    [lia|lia|exact H|].
  intro a. destruct (nonempty a); apply costs_reply.
Qed.

Section HandlerCost.
Context (E : env) (cc sc cd sd : nat).
Hypothesis concise_cost :
  forall q, costs cc sc (askOpenAIForLaborHelp E q Concise).
Hypothesis detailed_cost :
  forall q, costs cd sd (askOpenAIForLaborHelp E q Detailed).
Hypothesis calls_le : cc <= cd.
Hypothesis sleeps_le : sc <= sd.

Lemma costs_fuzzy (ev : event) (userText : jsstring) :
  costs cc sc (fuzzy_branches E ev userText).
Proof.
  unfold fuzzy_branches.
  destruct (findBestFaq (faqs E) userText); [apply costs_reply|].
  destruct (findArticleByKeyword (articles E) userText); [apply costs_reply|].
  apply costs_ask_reply, concise_cost.
Qed.

Lemma costs_article (ev : event) (userText : jsstring) :
  costs cc sc (article_branch E ev userText).
Proof.
  unfold article_branch.
  destruct (extractArticleNumber userText) as [n|]; [|apply costs_fuzzy].
  destruct (n =? 0)%Z; [apply costs_fuzzy|].
  destruct (findArticleByNumber (articles E) n); [apply costs_reply|].
  apply costs_ask_reply, concise_cost.
Qed.

Lemma costs_commands (ev : event) (userText : jsstring) :
  costs cc sc (command_branches E ev userText).
Proof.
  destruct (command_branches_cases E ev userText) as [C|(e & I & C)];
    rewrite C; [apply costs_article|].
  eapply costs_weaken; [| |apply costs_send]; [lia|lia|].
  now destruct (menu_event_sound E _ e I).
Qed.

Lemma costs_ai_body (d : bool) (q : jsstring) : costs cd sd (ai_body E d q).
Proof.
  unfold ai_body. destruct (negb (openai E)).
  { eapply costs_weaken; [| |apply costs_ret]; lia. }
  eapply costs_weaken; [| |apply (costs_bind cd sd 0 0)]; [lia|lia| |].
  - destruct d; [apply detailed_cost|].
    eapply costs_weaken; [| |apply concise_cost]; assumption.
  - intro a. destruct (nonempty a); apply costs_ret.
Qed.

Lemma costs_ai_branch (ev : event) (trimmed : jsstring) :
  costs cd sd (ai_branch E ev trimmed).
Proof.
  unfold ai_branch. cbv zeta.
  destruct (is_empty (ai_aiQuestion trimmed)); [apply costs_reply|].
  apply (costs_bind 0 0 cd sd); [apply costs_reply|]. intros _.
  eapply costs_weaken; [| |apply (costs_bind cd sd 0 0)];
    [lia|lia|apply costs_ai_body|].
  intro text. destruct (getSourceId ev);
    apply costs_send; reflexivity.
Qed.

Lemma costs_handle_text (ev : event) (userText : jsstring) :
  costs cd sd (handle_text E ev userText)
  /\ (has_ai_prefix userText = false -> costs cc sc (handle_text E ev userText)).
Proof.
  unfold handle_text. cbv zeta. split.
  - destruct (has_ai_prefix userText); [apply costs_ai_branch|].
    eapply costs_weaken; [| |apply costs_commands]; assumption.
  - intros ->. apply costs_commands.
Qed.

Lemma costs_handle_event (ev : event) : costs cd sd (handle_event E ev).
Proof.
  unfold handle_event.
  destruct (str_eqb (replyToken ev) verify_token).
  { eapply costs_weaken; [| |apply costs_ret]; lia. }
  destruct (type ev) as [|[userText|]|].
  - apply costs_reply.
  - apply costs_handle_text.
  - eapply costs_weaken; [| |apply costs_ret]; lia.
  - eapply costs_weaken; [| |apply costs_ret]; lia.
Qed.
End HandlerCost.

Lemma costs_ask_no_client (E : env) (q : jsstring) (mode : ai_mode) :
  openai E = false -> costs 0 0 (askOpenAIForLaborHelp E q mode).
Proof.
  intro H. unfold askOpenAIForLaborHelp. rewrite H. apply costs_ret.
Qed.

(** X18. Handling one event makes at most six completion calls and pauses
    at most three times, each pause shorter than 1.2 seconds; a text that is
    no AI command stays within four calls and two pauses; without a client
    no call and no pause is made at all. *)
Theorem handler_budget (E : env) (ev : event) :
  random_in_unit E ->
  costs 6 3 (handle_event E ev)
  /\ (forall userText,
         type ev = MessageEvent (TextMessage userText) ->
         has_ai_prefix userText = false ->
         costs 4 2 (handle_event E ev))
  /\ (openai E = false -> costs 0 0 (handle_event E ev)).
Proof.
  intro Hr. split; [|split].
  - apply (costs_handle_event E 4 2 6 3); try lia.
    + intro q. apply (costs_ask E q Concise Hr).
    + intro q. apply (costs_ask E q Detailed Hr).
  - intros userText T Hai. unfold handle_event. rewrite T.
    destruct (str_eqb (replyToken ev) verify_token).
    { eapply costs_weaken; [| |apply costs_ret]; lia. }
    apply (costs_handle_text E 4 2 6 3); try lia; try exact Hai.
    + intro q. apply (costs_ask E q Concise Hr).
    + intro q. apply (costs_ask E q Detailed Hr).
  - intro H. apply (costs_handle_event E 0 0 0 0); try lia;
      intro q; now apply costs_ask_no_client.
Qed.

Lemma handler_budget_witness :
  costs 6 3 (handle_event timeouts_env
                          (text_event (Some user_source) "特休沒休完怎麼辦"))
  /\ costs 4 2 (handle_event timeouts_env
                             (text_event (Some user_source) "特休沒休完怎麼辦")).
Proof.
  destruct (handler_budget timeouts_env
              (text_event (Some user_source) "特休沒休完怎麼辦"))
    as (H1 & H2 & _); [intro i; split; vm_compute; congruence|].
  split; [exact H1|].
  apply (H2 (utf16 "特休沒休完怎麼辦")); [reflexivity|vm_compute; reflexivity].
Defined.

Lemma calculator_command_emit (E : env) (ev : event) (userText : jsstring)
      (r : io_event) :
  calculator_command_reply (normalize userText) (replyToken ev) = Some r ->
  command_branches E ev userText = emit r /\ is_send r = true.
Proof.
  unfold calculator_command_reply, command_branches. cbv zeta. intros H.
  rewrite calculator_arguments_branch_unreachable.
  destruct (is_text (normalize userText) "試算加班費").
  { injection H as <-. split; reflexivity. }
  destruct (startsWith (normalize userText) (utf16 "試算加班費")
            && includes (normalize userText) (utf16 "說明")).
  { injection H as <-. split; reflexivity. }
  destruct (is_text (normalize userText) "再試一筆"); [|discriminate].
  injection H as <-. split; reflexivity.
Qed.

Lemma exact_command_emit (E : env) (ev : event) (userText : jsstring)
      (r : io_event) :
  exact_command_reply (normalize userText) (replyToken ev) = Some r ->
  command_branches E ev userText = emit r /\ is_send r = true.
Proof.
  intros H.
  destruct (exact_command_literal _ _ _ H) as (lit & Hin & Hn).
  unfold command_branches. cbv zeta. rewrite Hn in *. clear Hn.
  unfold exact_command_reply in H.
  unfold exact_commands in Hin. simpl in Hin.
  repeat (destruct Hin as [<-|Hin];
          [eval_tests; cbn [orb andb negb] in *; injection H as <-;
           split; reflexivity|]).
  destruct Hin.
Qed.

(** X19. OpenAI is asked only when nothing on file answers: a calculator
    or menu command, an article number with a record on file, and a text
    that the FAQ or a keyword of an article matches are all answered without
    a completion call and without a pause. *)
Theorem local_answers_need_no_call
        (E : env) (ev : event) (userText : jsstring) :
  type ev = MessageEvent (TextMessage userText) ->
  has_ai_prefix userText = false ->
  (exists r,
      calculator_command_reply (normalize userText) (replyToken ev) = Some r
      \/ exact_command_reply (normalize userText) (replyToken ev) = Some r)
  \/ (exists n a,
         extractArticleNumber userText = Some n /\ n <> 0%Z
         /\ findArticleByNumber (articles E) n = Some a)
  \/ ((extractArticleNumber userText = None
       \/ extractArticleNumber userText = Some 0%Z)
      /\ (findBestFaq (faqs E) userText <> None
          \/ findArticleByKeyword (articles E) userText <> None)) ->
  costs 0 0 (handle_event E ev).
Proof.
  intros T Hai H. unfold handle_event. rewrite T.
  destruct (str_eqb (replyToken ev) verify_token); [apply costs_ret|].
  unfold handle_text. cbv zeta. rewrite Hai.
  assert (fuzzy : findBestFaq (faqs E) userText <> None
                  \/ findArticleByKeyword (articles E) userText <> None ->
                  costs 0 0 (fuzzy_branches E ev userText)).
  { intro L. unfold fuzzy_branches.
    destruct (findBestFaq (faqs E) userText); [apply costs_reply|].
    destruct (findArticleByKeyword (articles E) userText); [apply costs_reply|].
    destruct L as [L|L]; congruence. }
  destruct H as [(r & [C|C])|H].
  - destruct (calculator_command_emit E ev userText r C) as [-> S].
    now apply costs_send.
  - destruct (exact_command_emit E ev userText r C) as [-> S].
    now apply costs_send.
  - destruct (command_branches_cases E ev userText) as [C|(e & I & C)];
      rewrite C.
    2:{ apply costs_send. now destruct (menu_event_sound E _ e I). }
    unfold article_branch.
    destruct H as [(n & a & X & Nz & F)|([X|X] & L)].
    + rewrite X, F. apply Z.eqb_neq in Nz. rewrite Nz. apply costs_reply.
    + rewrite X. now apply fuzzy.
    + rewrite X. now apply fuzzy.
Qed.

Lemma local_answers_need_no_call_witness :
  costs 0 0 (handle_event answering_env
                          (text_event (Some user_source) "查勞基法第24條")).
Proof.
  apply (local_answers_need_no_call answering_env
           (text_event (Some user_source) "查勞基法第24條")
           (utf16 "查勞基法第24條")).
  - reflexivity.
  - vm_compute. reflexivity.
  - right. left. eexists 24%Z, _. split; [vm_compute; reflexivity|].
    split; [discriminate|]. vm_compute. reflexivity.
Defined.

(* ================================================================== *)
Local Open Scope nat_scope.

(** ** Quick replies *)

Lemma item_of_length (s : suggestion) : length (item_of s) <= 1.
Proof.
  unfold item_of. cbv zeta.
  repeat match goal with
         | |- context [nonempty ?a] => destruct (nonempty a)
         end; simpl; lia.
Qed.

Lemma item_of_filled (s : suggestion) (i : quick_reply_item) :
  In i (item_of s) -> action_label i <> [] /\ action_text i <> [].
Proof.
  unfold item_of.
  cbv zeta. intro H.
  repeat match type of H with
         | context [nonempty ?a] => destruct (nonempty a) eqn:?
         end; simpl in H; try contradiction.
  destruct H as [<-|[]]. simpl. split; eapply nonempty_some; eassumption.
Qed.

Lemma flat_map_length_le {A B : Type} (f : A -> list B) (l : list A) :
  (forall a, length (f a) <= 1) -> length (flat_map f l) <= length l.
Proof.
  intro H. induction l as [|a l IH]; simpl; [lia|].
  rewrite length_app. specialize (H a). lia.
Qed.

(** X20. A message carries at most four quick-reply items, built from the
    first four suggestions only; a suggestion without a label or without a
    text is skipped, so every item has a label and a text that are not
    empty. *)
Theorem toQuickReplyItems_at_most_four (suggestions : list suggestion) :
  length (toQuickReplyItems suggestions) <= 4
  /\ Forall (fun i => action_label i <> [] /\ action_text i <> [])
            (toQuickReplyItems suggestions)
  /\ toQuickReplyItems (firstn 4 suggestions) = toQuickReplyItems suggestions
  /\ toQuickReplyItems [] = []
  /\ toQuickReplyItems [SuggestionObject None (Some (utf16 "功能"))] = []
  /\ toQuickReplyItems [SuggestionObject (Some (utf16 "功能")) None]
     = [mkItem (utf16 "功能") (utf16 "功能")].
Proof.
  unfold toQuickReplyItems. repeat split.
  - eapply Nat.le_trans; [apply flat_map_length_le, item_of_length|].
    rewrite length_firstn. lia.
  - apply Forall_forall. intros i Hi. apply in_flat_map in Hi as (s & _ & Hi).
    eapply item_of_filled, Hi.
  - now rewrite firstn_firstn, Nat.min_id.
Qed.

Lemma name_in_In (key : jsstring) (names : list jsstring) :
  name_in key names = true <-> In key names.
Proof.
  unfold name_in. rewrite existsb_exists. split.
  - intros (x & I & E). apply str_eqb_eq in E. now subst.
  - intro I. exists key. split; [exact I|]. now apply str_eqb_eq.
Qed.

Lemma dedupe_inv (s : list labelled) :
  forall (seen : list jsstring) (out : list labelled),
    seen = map key_of out -> NoDup seen -> length out < 4 ->
    NoDup (map key_of (dedupe s seen out))
    /\ length (dedupe s seen out) <= 4
    /\ exists extra, dedupe s seen out = out ++ extra /\ incl extra s.
Proof.
  induction s as [|item s IH]; intros seen out Hs Hn Hl; cbn [dedupe].
  - subst seen. split; [exact Hn|]. split; [lia|].
    exists []. split; [now rewrite app_nil_r|apply incl_nil_l].
  - destruct (name_in (key_of item) seen) eqn:K.
    + destruct (IH seen out Hs Hn Hl) as (A & B & extra & C & D).
      split; [exact A|]. split; [exact B|].
      exists extra. split; [exact C|]. now apply incl_tl.
    + assert (Hnew : NoDup (map key_of (out ++ [item]))).
      { rewrite map_app. simpl. subst seen.
        apply NoDup_app; [exact Hn|repeat constructor; intros []|].
        intros k Hk [<-|[]].
        apply name_in_In in Hk. congruence. }
      destruct (4 <=? length (out ++ [item])) eqn:F.
      * split; [exact Hnew|]. split; [rewrite length_app; simpl; lia|].
        exists [item]. split; [reflexivity|].
        intros x [<-|[]]. now left.
      * apply Nat.leb_gt in F.
        destruct (IH (seen ++ [key_of item]) (out ++ [item]))
          as (A & B & extra & C & D).
        -- subst seen. now rewrite map_app.
        -- subst seen. rewrite map_app in Hnew. exact Hnew.
        -- rewrite length_app in *. simpl in *. lia.
        -- split; [exact A|]. split; [exact B|].
           exists (item :: extra). split.
           ++ rewrite C, <- app_assoc. reflexivity.
           ++ intros x [<-|Hx]; [now left|right; now apply D].
Qed.

Lemma dedupe_nonempty (item : labelled) (s : list labelled) :
  dedupe (item :: s) [] [] <> [].
Proof.
  cbn [dedupe name_in existsb app length Nat.leb].
  destruct (dedupe_inv s [key_of item] [item]) as (_ & _ & extra & C & _);
    [reflexivity|repeat constructor; intros []|simpl; lia|].
  rewrite C. discriminate.
Qed.

Lemma filled_prefixed (lp lr tp tr : jsstring) :
  is_empty lp = false -> is_empty tp = false ->
  filled (mkLabelled (lp ++ lr) (tp ++ tr)) = true.
Proof.
  destruct lp; [discriminate|]. destruct tp; [discriminate|]. reflexivity.
Qed.

Lemma filled_text_prefixed (l tp tr : jsstring) :
  is_empty l = false -> is_empty tp = false ->
  filled (mkLabelled l (tp ++ tr)) = true.
Proof.
  destruct l; [discriminate|]. destruct tp; [discriminate|]. reflexivity.
Qed.

Lemma pushed_filled (userText : jsstring) (ctx : suggestion_context) :
  forallb filled (pushed userText ctx) = true.
Proof.
  unfold pushed. cbv zeta. rewrite !forallb_app.
  repeat (apply andb_true_iff; split).
  - destruct (any_includes _ _); reflexivity.
  - destruct (any_includes _ _); reflexivity.
  - destruct (any_includes _ _); reflexivity.
  - destruct (any_includes _ _); reflexivity.
  - destruct (context_no ctx) as [n|]; [|reflexivity].
    rewrite forallb_app. apply andb_true_iff. split.
    + cbn [forallb]. unfold explain_query, official_query.
      rewrite !filled_text_prefixed; reflexivity.
    + destruct (n + 1 <=? 86)%Z; [|reflexivity].
      cbn [forallb]. unfold official_query.
      rewrite filled_prefixed; reflexivity.
  - destruct (ctx_matchedFaq ctx); [|reflexivity].
    destruct (context_no ctx); [reflexivity|].
    cbn [forallb]. rewrite filled_text_prefixed; reflexivity.
  - destruct (ctx_ai ctx) as [[[|] [|]]|]; cbn [forallb];
      rewrite filled_text_prefixed; reflexivity.
Qed.

Lemma pushed_nonempty (userText : jsstring) (ctx : suggestion_context) :
  pushed userText ctx <> [].
Proof.
  unfold pushed. cbv zeta. intro H.
  repeat (apply app_eq_nil in H as [_ H]).
  destruct (ctx_ai ctx) as [[[|] [|]]|]; discriminate.
Qed.

Lemma item_of_as_suggestion (x : labelled) :
  filled x = true ->
  item_of (as_suggestion x) = [mkItem (label_of x) (text_of x)].
Proof.
  unfold filled, item_of, as_suggestion, or_else. destruct x as [l t]. simpl.
  destruct l; [discriminate|]. destruct t; [discriminate|]. reflexivity.
Qed.

Lemma items_of_filled (l : list labelled) :
  forallb filled l = true ->
  flat_map item_of (map as_suggestion l)
  = map (fun x => mkItem (label_of x) (text_of x)) l.
Proof.
  induction l as [|x l IH]; [reflexivity|].
  cbn [forallb]. intro H. apply andb_true_iff in H as [H1 H2].
  cbn [map flat_map]. rewrite (item_of_as_suggestion x H1), (IH H2).
  reflexivity.
Qed.

(** X21. [buildSuggestions] always offers something and never too much:
    between one and four items, no two with the same label and text, each
    with a label and a text that are not empty, each pushed by one of the
    rules or the fallback. Every one of them becomes a quick-reply item,
    in the same order. *)
Theorem buildSuggestions_shape (userText : jsstring) (ctx : suggestion_context) :
  let out := buildSuggestions userText ctx in
  1 <= length out <= 4
  /\ NoDup (map key_of out)
  /\ forallb filled out = true
  /\ incl out (pushed userText ctx ++ [labelled_text "功能選單" "功能"])
  /\ toQuickReplyItems (map as_suggestion out)
     = map (fun x => mkItem (label_of x) (text_of x)) out.
Proof.
  cbv zeta. unfold buildSuggestions. cbv zeta.
  set (s := if length (pushed userText ctx) <? 3
            then pushed userText ctx ++ [labelled_text "功能選單" "功能"]
            else pushed userText ctx).
  assert (Hs : incl s (pushed userText ctx ++ [labelled_text "功能選單" "功能"])).
  { unfold s. destruct (length (pushed userText ctx) <? 3);
      [apply incl_refl|apply incl_appl, incl_refl]. }
  assert (Hne : s <> []).
  { unfold s. pose proof (pushed_nonempty userText ctx) as P.
    destruct (length (pushed userText ctx) <? 3); [|exact P].
    destruct (pushed userText ctx); [congruence|discriminate]. }
  destruct (dedupe_inv s [] []) as (A & B & extra & C & D);
    [reflexivity|constructor|simpl; lia|].
  simpl in C.
  assert (Hin : incl (dedupe s [] [])
                     (pushed userText ctx ++ [labelled_text "功能選單" "功能"])).
  { rewrite C. eapply incl_tran; eassumption. }
  assert (Hf : forallb filled (dedupe s [] []) = true).
  { apply forallb_forall. intros x Hx. apply Hin in Hx.
    apply in_app_or in Hx as [Hx|[<-|[]]]; [|reflexivity].
    pose proof (pushed_filled userText ctx) as P.
    rewrite forallb_forall in P. now apply P. }
  split.
  { split; [|exact B].
    destruct s as [|item s']; [congruence|].
    pose proof (dedupe_nonempty item s') as N.
    destruct (dedupe (item :: s') [] []); [congruence|simpl; lia]. }
  split; [exact A|]. split; [exact Hf|]. split; [exact Hin|].
  unfold toQuickReplyItems.
  rewrite firstn_all2 by (rewrite length_map; exact B).
  now apply items_of_filled.
Qed.

(* ================================================================== *)
Local Open Scope Z_scope.

(** ** Suggestions that come back as messages *)

(** The texts built for the articles 1 to 999, checked one by one. *)
Lemma article_queries_checked :
  forallb
    (fun i =>
       let n := Z.of_nat i in
       match extractArticleNumber (official_query n) with
       | Some m => m =? n
       | None => false
       end
       && negb (has_ai_prefix (official_query n))
       && no_command (normalize (official_query n))
       && has_ai_prefix (explain_query n)
       && negb (ai_isDetailed (trim (explain_query n)))
       && str_eqb (ai_aiQuestion (trim (explain_query n)))
                  (utf16 "白話解釋 勞基法第" ++ decimal n ++ utf16 "條"))
    (seq 1 999) = true.
Proof. vm_compute. reflexivity. Qed.

Lemma sends_lookup (E : env) (ev : event) (userText : jsstring) :
  str_eqb (replyToken ev) verify_token = false ->
  type ev = MessageEvent (TextMessage userText) ->
  has_ai_prefix userText = false ->
  no_command (normalize userText) = true ->
  sends E ev
  = [ReplyText (replyToken ev) (article_reply E userText initial_world)].
Proof.
  intros V T Hai Hno. apply sends_of_grows.
  rewrite (handle_event_text E ev userText V T).
  unfold handle_text. cbv zeta. rewrite Hai.
  rewrite (no_command_article E ev userText Hno).
  apply grows_article.
Qed.

Lemma sends_ai (E : env) (ev : event) (userText : jsstring) :
  str_eqb (replyToken ev) verify_token = false ->
  type ev = MessageEvent (TextMessage userText) ->
  has_ai_prefix userText = true ->
  is_empty (ai_aiQuestion (trim userText)) = false ->
  exists text,
    sends E ev = [ReplyText (replyToken ev) AiThinkingText; ai_send ev text].
Proof.
  intros V T Hai Hq.
  destruct (grows_ai E ev (trim userText) initial_world) as (text & G).
  rewrite Hq in G. exists text. apply sends_of_grows.
  rewrite (handle_event_text E ev userText V T).
  unfold handle_text. cbv zeta. now rewrite Hai.
Qed.

(** X22. The texts that [buildSuggestions] offers for an article come back
    as intended when the user taps them. For every article from 1 to 999,
    [查勞基法第N條] is no command, names article N again and is answered by
    the lookup of article N; [ai/白話解釋 勞基法第N條] is an AI command in
    concise mode whose question is the text after the prefix. *)
Theorem article_suggestions_round_trip (E : env) (ev : event) (n : Z) :
  1 <= n <= 999 ->
  str_eqb (replyToken ev) verify_token = false ->
  extractArticleNumber (official_query n) = Some n
  /\ (type ev = MessageEvent (TextMessage (official_query n)) ->
      sends E ev
      = [ReplyText (replyToken ev)
           match findArticleByNumber (articles E) n with
           | Some articleData => ArticleText n articleData
           | None =>
             match nonempty (fst (askOpenAIForLaborHelp
                                    E (article_prompt n) Concise
                                    initial_world)) with
             | Some a => ArticleAiText n a
             | None => ArticleMissingText n
             end
           end])
  /\ ai_isDetailed (trim (explain_query n)) = false
  /\ ai_aiQuestion (trim (explain_query n))
     = utf16 "白話解釋 勞基法第" ++ decimal n ++ utf16 "條"
  /\ (type ev = MessageEvent (TextMessage (explain_query n)) ->
      exists text,
        sends E ev
        = [ReplyText (replyToken ev) AiThinkingText; ai_send ev text]).
Proof.
  intros Hn V.
  pose proof article_queries_checked as C.
  rewrite forallb_forall in C.
  specialize (C (Z.to_nat n)). cbv zeta in C.
  rewrite Z2Nat.id in C by lia.
  assert (I : In (Z.to_nat n) (seq 1 999)) by (apply in_seq; lia).
  apply C in I. clear C.
  repeat (apply andb_true_iff in I as [I ?]).
  destruct (extractArticleNumber (official_query n)) as [m|] eqn:X;
    [|discriminate].
  apply Z.eqb_eq in I. subst m.
  repeat match goal with
         | H : negb _ = true |- _ => apply negb_true_iff in H
         end.
  match goal with H : str_eqb _ _ = true |- _ => apply str_eqb_eq in H end.
  split; [reflexivity|]. split; [|split; [assumption|split; [assumption|]]].
  - intro T. rewrite (sends_lookup E ev (official_query n)) by assumption.
    unfold article_reply. rewrite X.
    replace (n =? 0) with false by (symmetry; apply Z.eqb_neq; lia).
    reflexivity.
  - intro T. apply (sends_ai E ev (explain_query n)); try assumption.
    match goal with H : ai_aiQuestion _ = _ |- _ => rewrite H end.
    reflexivity.
Qed.

Lemma article_suggestions_round_trip_witness :
  extractArticleNumber (official_query 24) = Some 24
  /\ ai_aiQuestion (trim (explain_query 24))
     = utf16 "白話解釋 勞基法第" ++ decimal 24 ++ utf16 "條".
Proof.
  destruct (article_suggestions_round_trip
              answering_env (text_event None "第24條") 24)
    as (H1 & _ & _ & H2 & _); [lia|reflexivity|].
  split; [exact H1|exact H2].
Defined.

(** *** [trim] *)

Lemma trimStart_nonws (c : Z) (s : jsstring) :
  is_ws c = false -> trimStart (c :: s) = c :: s.
Proof. intro H. simpl. now rewrite H. Qed.

Lemma trimStart_app (x y : jsstring) :
  trimStart x <> [] -> trimStart (x ++ y) = trimStart x ++ y.
Proof.
  induction x as [|c x IH]; intro H; [now contradiction H|].
  simpl in *. destruct (is_ws c); [now apply IH|reflexivity].
Qed.

Lemma trimEnd_app (a q : jsstring) :
  trimEnd q <> [] -> trimEnd (a ++ q) = a ++ trimEnd q.
Proof.
  unfold trimEnd. intro H. rewrite rev_app_distr.
  rewrite trimStart_app.
  - now rewrite rev_app_distr, rev_involutive.
  - intro E. apply H. now rewrite E.
Qed.

Lemma trimStart_idempotent (s : jsstring) : trimStart (trimStart s) = trimStart s.
Proof.
  destruct (trimStart s) as [|c r] eqn:E; [reflexivity|].
  apply trimStart_nonws. eapply trimStart_head, E.
Qed.

Lemma trimEnd_idempotent (s : jsstring) : trimEnd (trimEnd s) = trimEnd s.
Proof. unfold trimEnd. now rewrite rev_involutive, trimStart_idempotent. Qed.

Lemma trimmed_parts (q : jsstring) :
  trim q = q -> trimStart q = q /\ trimEnd q = q.
Proof.
  intro H. unfold trim in H.
  destruct (trimStart_decomp q) as (a & Ea & _).
  destruct (trimEnd_prefix (trimStart q)) as (b & Eb).
  rewrite H in Eb.
  assert (L : length q = (length a + (length q + length b))%nat).
  { rewrite Ea at 1. rewrite length_app, Eb, length_app. reflexivity. }
  assert (Hb : b = []) by (destruct b; [reflexivity|simpl in L; lia]).
  subst b. rewrite app_nil_r in Eb.
  split; [exact Eb|]. now rewrite Eb in H.
Qed.

Lemma trimEnd_of_trimStart_head (s : jsstring) (c : Z) (r : jsstring) :
  trimEnd (c :: s) = [] \/ exists r', trimEnd (c :: s) = c :: r'.
Proof.
  destruct (trimEnd_prefix (c :: s)) as (b & E).
  destruct (trimEnd (c :: s)) as [|x r'] eqn:T; [now left|].
  right. injection E as <- _. now exists r'.
Qed.

Lemma trim_idempotent (s : jsstring) : trim (trim s) = trim s.
Proof.
  unfold trim.
  destruct (trimStart s) as [|c r] eqn:E; [reflexivity|].
  pose proof (trimStart_head s c r E) as Hc.
  destruct (trimEnd_of_trimStart_head r c r) as [T|(r' & T)].
  - rewrite T. reflexivity.
  - rewrite T, (trimStart_nonws c r' Hc), <- T.
    apply trimEnd_idempotent.
Qed.

Lemma ai_question_trimmed (userText : jsstring) :
  trim (ai_aiQuestion (trim userText)) = ai_aiQuestion (trim userText).
Proof.
  unfold ai_aiQuestion, ai_raw.
  destruct (ai_isDetailed (trim userText)); apply trim_idempotent.
Qed.

Lemma trim_prefixed (c : Z) (a q : jsstring) :
  is_ws c = false -> trim q = q -> q <> [] ->
  trim (c :: a ++ q) = c :: a ++ q.
Proof.
  intros Hc Hq Hne. destruct (trimmed_parts q Hq) as [_ Te].
  unfold trim. rewrite (trimStart_nonws c _ Hc).
  change (c :: a ++ q) with ((c :: a) ++ q).
  rewrite trimEnd_app; [now rewrite Te|]. now rewrite Te.
Qed.

Lemma strip_ai_prefix_plain (q : jsstring) :
  trim q = q -> has_ai_prefix q = false -> strip_ai_prefix q = q.
Proof.
  intros Hq Hai. unfold has_ai_prefix in Hai. rewrite Hq in Hai.
  unfold strip_ai_prefix. now rewrite Hai.
Qed.

(** X23. The suggestions of the AI branch ask the same question again. The
    question the branch works on is always trimmed; when it is not itself an
    AI command, tapping [看進階解析] sends a text that the handler reads as
    the same question in detailed mode, and tapping [改簡短版] one that it
    reads as the same question in concise mode, unless the question begins
    with one of the markers of the detailed mode. *)
Theorem ai_suggestions_round_trip (userText q : jsstring) :
  trim (ai_aiQuestion (trim userText)) = ai_aiQuestion (trim userText)
  /\ (trim q = q -> q <> [] -> has_ai_prefix q = false ->
      let deeper := utf16 "ai/詳細 " ++ strip_ai_prefix q in
      let shorter := utf16 "ai/" ++ strip_ai_prefix q in
      has_ai_prefix deeper = true
      /\ ai_isDetailed (trim deeper) = true
      /\ ai_aiQuestion (trim deeper) = q
      /\ has_ai_prefix shorter = true
      /\ ai_isDetailed (trim shorter)
         = (startsWith q (utf16 "詳細") || startsWith q (utf16 "進階"))
      /\ (ai_isDetailed (trim shorter) = false ->
          ai_aiQuestion (trim shorter) = q)).
Proof.
  split; [apply ai_question_trimmed|].
  intros Hq Hne Hai. cbv zeta.
  rewrite (strip_ai_prefix_plain q Hq Hai).
  destruct (trimmed_parts q Hq) as [Ts Te].
  assert (D : trim (utf16 "ai/詳細 " ++ q) = utf16 "ai/詳細 " ++ q).
  { change (utf16 "ai/詳細 ") with (97 :: [105; 47; 35443; 32048; 32]).
    apply (trim_prefixed 97); [reflexivity|exact Hq|exact Hne]. }
  assert (S : trim (utf16 "ai/" ++ q) = utf16 "ai/" ++ q).
  { change (utf16 "ai/") with (97 :: [105; 47]).
    apply (trim_prefixed 97); [reflexivity|exact Hq|exact Hne]. }
  assert (Rd : ai_raw (utf16 "ai/詳細 " ++ q) = [35443; 32048; 32] ++ q).
  { unfold ai_raw, slice_from.
    change (skipn 3 (utf16 "ai/詳細 " ++ q)) with (35443 :: [32048; 32] ++ q).
    apply (trim_prefixed 35443); [reflexivity|exact Hq|exact Hne]. }
  assert (Rs : ai_raw (utf16 "ai/" ++ q) = q).
  { unfold ai_raw, slice_from.
    change (skipn 3 (utf16 "ai/" ++ q)) with q. exact Hq. }
  split; [unfold has_ai_prefix; rewrite D; reflexivity|].
  split; [unfold ai_isDetailed; rewrite D, Rd; reflexivity|].
  split.
  { unfold ai_aiQuestion, ai_isDetailed. rewrite D, Rd.
    change (startsWith ([35443; 32048; 32] ++ q) (utf16 "詳細")) with true.
    cbn [orb].
    change (strip_detail_marker ([35443; 32048; 32] ++ q)) with (32 :: q).
    unfold trim. cbn [trimStart]. change (is_ws 32) with true. cbv iota.
    exact Hq. }
  split; [unfold has_ai_prefix; rewrite S; reflexivity|].
  split; [unfold ai_isDetailed; now rewrite S, Rs|].
  intro Hd. unfold ai_aiQuestion. rewrite Hd, S. exact Rs.
Qed.

Lemma ai_suggestions_round_trip_witness :
  ai_aiQuestion (trim (utf16 "ai/詳細 " ++ strip_ai_prefix (utf16 "資遣費怎麼算")))
  = utf16 "資遣費怎麼算".
Proof.
  destruct (ai_suggestions_round_trip (utf16 "ai/資遣費怎麼算")
              (utf16 "資遣費怎麼算")) as [_ H].
  destruct H as (_ & _ & H & _);
    [vm_compute; reflexivity|discriminate|vm_compute; reflexivity|].
  exact H.
Defined.

(** ** A blank message *)

Lemma remove_ws_of_normalize (s : jsstring) :
  normalize s = [] -> remove_ws s = [].
Proof.
  rewrite normalize_eq, remove_ws_lower. unfold toLowerCase.
  destruct (remove_ws s); [reflexivity|discriminate].
Qed.

Lemma best_match_blank {A : Type} (kws : A -> option (list jsstring))
      (records : list A) (text : jsstring) :
  normalize text = [] -> best_match kws records text = None.
Proof.
  intro H. destruct (best_match kws records text) as [b|] eqn:E; [|reflexivity].
  apply best_match_scored in E as [_ P].
  rewrite H, keyword_score_empty_text in P. lia.
Qed.

(** X24. A message of white space only, or an empty one, is answered from
    no file: it is no command, names no article and matches no FAQ entry and
    no keyword, so it goes to OpenAI as it is, and the reply is the answer
    of the model or, without one, the guidance text. Without a client the
    guidance text is the reply. *)
Theorem blank_message_goes_to_openai
        (E : env) (ev : event) (userText : jsstring) :
  normalize userText = [] ->
  str_eqb (replyToken ev) verify_token = false ->
  type ev = MessageEvent (TextMessage userText) ->
  sends E ev
  = [ReplyText (replyToken ev)
       match nonempty (fst (askOpenAIForLaborHelp E userText Concise
                                                  initial_world)) with
       | Some a => AiFallbackText a
       | None => GuidanceText userText
       end]
  /\ (openai E = false ->
      sends E ev = [ReplyText (replyToken ev) (GuidanceText userText)]).
Proof.
  intros Hn V T.
  assert (Hai : has_ai_prefix userText = false).
  { destruct (has_ai_prefix userText) eqn:A; [|reflexivity].
    apply ai_prefix_head in A as (rest & A). congruence. }
  assert (Hno : no_command (normalize userText) = true)
    by (rewrite Hn; reflexivity).
  assert (S : sends E ev
              = [ReplyText (replyToken ev)
                   match nonempty (fst (askOpenAIForLaborHelp
                                          E userText Concise initial_world)) with
                   | Some a => AiFallbackText a
                   | None => GuidanceText userText
                   end]).
  { rewrite (sends_lookup E ev userText V T Hai Hno).
    unfold article_reply, fuzzy_reply.
    rewrite extractArticleNumber_eq, (remove_ws_of_normalize userText Hn).
    change (first_pattern patterns []) with (@None Z).
    unfold findBestFaq, findArticleByKeyword.
    now rewrite !best_match_blank. }
  split; [exact S|].
  intro Hc. rewrite S. unfold askOpenAIForLaborHelp. rewrite Hc. reflexivity.
Qed.

Lemma blank_message_goes_to_openai_witness :
  sends answering_env
        (mkEvent (utf16 "token") (MessageEvent (TextMessage [32; 10]))
                 (Some user_source))
  = [ReplyText (utf16 "token")
               (AiFallbackText (utf16 "平日加班前兩小時加給三分之一。"))].
Proof.
  destruct (blank_message_goes_to_openai
              answering_env
              (mkEvent (utf16 "token") (MessageEvent (TextMessage [32; 10]))
                       (Some user_source))
              [32; 10]) as [H _]; [reflexivity|reflexivity|reflexivity|].
  rewrite H. vm_compute. reflexivity.
Defined.

(* ================================================================== *)
Local Open Scope nat_scope.

(** ** The message handed to the client *)

Lemma ensureLineLength_bound (s : jsstring) : length (ensureLineLength s) <= 4507.
Proof.
  unfold ensureLineLength.
  destruct (Nat.lt_ge_cases line_limit (length s)) as [H|H].
  - rewrite ensureLineLength_at_cut by exact H.
    rewrite length_app, marker_length, firstn_length_le by lia.
    unfold line_limit. lia.
  - rewrite ensureLineLength_at_keep by exact H. unfold line_limit in H. lia.
Qed.

(** X25. Every message that [replyText] or [pushText] builds is fit to
    send: its text has at most 4507 units, below the 5000 of the platform,
    and it either carries no quick reply, when no suggestion gives an item,
    or one to four items, each with a label and a text; it never carries an
    empty list of items. *)
Theorem text_message_fit_to_send
        (text : jsstring) (suggestions : list suggestion) :
  length (message_text (text_message_of text suggestions)) <= 4507
  /\ match quickReply (text_message_of text suggestions) with
     | Some items =>
       items = toQuickReplyItems suggestions
       /\ 1 <= length items <= 4
       /\ Forall (fun i => action_label i <> [] /\ action_text i <> []) items
     | None => toQuickReplyItems suggestions = []
     end
  /\ quickReply (text_message_of text []) = None.
Proof.
  split; [apply ensureLineLength_bound|].
  split; [|reflexivity].
  unfold text_message_of. cbv zeta. cbn [quickReply].
  assert (L : length (toQuickReplyItems suggestions) <= 4).
  { unfold toQuickReplyItems.
    eapply Nat.le_trans; [apply flat_map_length_le, item_of_length|].
    rewrite length_firstn. lia. }
  assert (F : Forall (fun i => action_label i <> [] /\ action_text i <> [])
                     (toQuickReplyItems suggestions)).
  { apply Forall_forall. intros x Hx. unfold toQuickReplyItems in Hx.
    apply in_flat_map in Hx as (s & _ & Hx).
    eapply item_of_filled, Hx. }
  destruct (toQuickReplyItems suggestions) as [|i items]; [reflexivity|].
  cbn [length Nat.eqb]. split; [reflexivity|]. split; [|exact F].
  simpl in *. lia.
Qed.

(* ================================================================== *)
Local Open Scope nat_scope.

(** ** The buttons of the Flex cards *)

Lemma sends_command (E : env) (ev : event) (userText : jsstring)
      (r : io_event) :
  str_eqb (replyToken ev) verify_token = false ->
  type ev = MessageEvent (TextMessage userText) ->
  calculator_command_reply (normalize userText) (replyToken ev) = Some r
  \/ exact_command_reply (normalize userText) (replyToken ev) = Some r ->
  sends E ev = [r].
Proof.
  intros V T H. apply sends_of_grows.
  rewrite (handle_event_text E ev userText V T).
  unfold handle_text. cbv zeta.
  destruct H as [H|H].
  - rewrite (calculator_command_not_ai _ _ _ H).
    destruct (calculator_command_emit E ev userText r H) as [-> S].
    now apply grows_emit.
  - rewrite (exact_command_not_ai _ _ _ H).
    destruct (exact_command_emit E ev userText r H) as [-> S].
    now apply grows_emit.
Qed.

(** X26. What the buttons of the two cards lead to. The category buttons of
    the function menu get the category examples and its calculator button
    gets the calculator card; its two AI buttons are read as an AI command,
    the first concise and the second detailed, with the question after the
    marker. On the calculator card the help button gets the help text, but
    the two example buttons, for which the calculator would give a result,
    are answered like any other question, by FAQ, keyword or OpenAI. *)
Theorem flex_buttons_round_trip (E : env) (ev : event) (userText : jsstring) :
  str_eqb (replyToken ev) verify_token = false ->
  type ev = MessageEvent (TextMessage userText) ->
  map text_of function_menu_buttons
  = [utf16 "加班相關"; utf16 "特休相關"; utf16 "離職相關";
     utf16 "ai/我想問加班的問題"; utf16 "ai/詳細 公司資遣多久前要通知？";
     utf16 "試算加班費"]
  /\ map text_of ot_flex_buttons
     = [utf16 "試算加班費 時薪=183 平日=2"; utf16 "試算加班費 時薪=200 休息日=4";
        utf16 "試算加班費 說明"]
  /\ (userText = utf16 "加班相關" ->
      sends E ev = [ReplyText (replyToken ev) OvertimeExamplesText])
  /\ (userText = utf16 "特休相關" ->
      sends E ev = [ReplyText (replyToken ev) LeaveExamplesText])
  /\ (userText = utf16 "離職相關" ->
      sends E ev = [ReplyText (replyToken ev) ResignExamplesText])
  /\ (userText = utf16 "試算加班費" ->
      sends E ev = [ReplyFlex (replyToken ev) OtFlex])
  /\ (userText = utf16 "試算加班費 說明" ->
      sends E ev = [ReplyText (replyToken ev) OtHelpText])
  /\ (userText = utf16 "ai/我想問加班的問題" ->
      ai_isDetailed (trim userText) = false
      /\ ai_aiQuestion (trim userText) = utf16 "我想問加班的問題"
      /\ exists text,
           sends E ev
           = [ReplyText (replyToken ev) AiThinkingText; ai_send ev text])
  /\ (userText = utf16 "ai/詳細 公司資遣多久前要通知？" ->
      ai_isDetailed (trim userText) = true
      /\ ai_aiQuestion (trim userText) = utf16 "公司資遣多久前要通知？"
      /\ exists text,
           sends E ev
           = [ReplyText (replyToken ev) AiThinkingText; ai_send ev text])
  /\ (userText = utf16 "試算加班費 時薪=183 平日=2"
      \/ userText = utf16 "試算加班費 時薪=200 休息日=4" ->
      ok (computeOtPay (parseOtArgs userText)) = true
      /\ sends E ev
         = [ReplyText (replyToken ev) (fuzzy_reply E userText initial_world)]).
Proof.
  intros V T.
  assert (cmd : forall lit r,
             userText = utf16 lit ->
             calculator_command_reply (normalize (utf16 lit)) (replyToken ev)
             = Some r
             \/ exact_command_reply (normalize (utf16 lit)) (replyToken ev)
                = Some r ->
             sends E ev = [r]).
  { intros lit r Hb H. apply (sends_command E ev userText r V T).
    now rewrite Hb. }
  assert (ai : forall lit,
             userText = utf16 lit ->
             has_ai_prefix (utf16 lit) = true ->
             is_empty (ai_aiQuestion (trim (utf16 lit))) = false ->
             exists text,
               sends E ev
               = [ReplyText (replyToken ev) AiThinkingText; ai_send ev text]).
  { intros lit Hb H1 H2. apply (sends_ai E ev userText V T); now rewrite Hb. }
  assert (calc : forall lit,
             userText = utf16 lit ->
             has_ai_prefix (utf16 lit) = false ->
             no_command (normalize (utf16 lit)) = true ->
             extractArticleNumber (utf16 lit) = None ->
             sends E ev
             = [ReplyText (replyToken ev)
                          (fuzzy_reply E userText initial_world)]).
  { intros lit Hb H1 H2 H3.
    rewrite (sends_lookup E ev userText V T); rewrite ?Hb; try assumption.
    unfold article_reply. now rewrite H3. }
  split; [reflexivity|]. split; [reflexivity|].
  split; [intro Hb; apply (cmd _ _ Hb); right; vm_compute; reflexivity|].
  split; [intro Hb; apply (cmd _ _ Hb); right; vm_compute; reflexivity|].
  split; [intro Hb; apply (cmd _ _ Hb); right; vm_compute; reflexivity|].
  split; [intro Hb; apply (cmd _ _ Hb); left; vm_compute; reflexivity|].
  split; [intro Hb; apply (cmd _ _ Hb); left; vm_compute; reflexivity|].
  split.
  { intro Hb. rewrite Hb.
    split; [vm_compute; reflexivity|]. split; [vm_compute; reflexivity|].
    apply (ai _ Hb); vm_compute; reflexivity. }
  split.
  { intro Hb. rewrite Hb.
    split; [vm_compute; reflexivity|]. split; [vm_compute; reflexivity|].
    apply (ai _ Hb); vm_compute; reflexivity. }
  intros [Hb|Hb].
  - split; [rewrite Hb; vm_compute; reflexivity|].
    apply (calc _ Hb); vm_compute; reflexivity.
  - split; [rewrite Hb; vm_compute; reflexivity|].
    apply (calc _ Hb); vm_compute; reflexivity.
Qed.

Lemma flex_buttons_round_trip_witness :
  sends answering_env (text_event (Some user_source) "試算加班費 時薪=183 平日=2")
  = [ReplyText (utf16 "token")
               (fuzzy_reply answering_env (utf16 "試算加班費 時薪=183 平日=2")
                            initial_world)]
  /\ ok (computeOtPay (parseOtArgs (utf16 "試算加班費 時薪=183 平日=2"))) = true.
Proof.
  destruct (flex_buttons_round_trip
              answering_env
              (text_event (Some user_source) "試算加班費 時薪=183 平日=2")
              (utf16 "試算加班費 時薪=183 平日=2"))
    as (_ & _ & _ & _ & _ & _ & _ & _ & _ & H); [reflexivity|reflexivity|].
  destruct H as [H1 H2]; [left; reflexivity|].
  split; [exact H2|exact H1].
Defined.

(* ================================================================== *)
Local Open Scope nat_scope.

(** ** A failure that is not transient *)

Lemma retry_permanent (E : env) (payload : chat_payload)
      (opts : retry_options) (w : world) :
  (forall i p t, exists err,
      chat_completions_create E i p t = Rejected err /\ retriable err = false) ->
  exists err,
    openaiChatWithRetry E payload opts w
    = (inl err,
       mkWorld (S (calls w)) (draws w)
               (trace w ++ [Call (label opts) payload (timeout opts)])).
Proof.
  intro H. destruct (H (calls w) payload (timeout opts)) as (err & C & R).
  exists err. unfold openaiChatWithRetry.
  rewrite retry_loop_unfold, C, R. reflexivity.
Qed.

(** X27. When every completion call fails with an error that is not
    transient, such as a refused key, a request still walks down the whole
    ladder: each tier is called once, with no retry and no pause, and the
    answer is none after three calls in detailed mode and two in concise
    mode. *)
Theorem permanent_failure_runs_each_tier_once
        (E : env) (q : jsstring) (w : world) :
  openai E = true ->
  (forall i p t, exists err,
      chat_completions_create E i p t = Rejected err /\ retriable err = false) ->
  askOpenAIForLaborHelp E q Detailed w
  = (None,
     mkWorld (S (S (S (calls w)))) (draws w)
             (trace w
              ++ [Call (utf16 "detailed#1") (first_payload Detailed q) 12000;
                  Call (utf16 "detailed#2") (reduced_payload q) 10000;
                  Call (utf16 "concise#fallback") (fallback_payload q) 9000]))
  /\ askOpenAIForLaborHelp E q Concise w
     = (None,
        mkWorld (S (S (calls w))) (draws w)
                (trace w
                 ++ [Call (utf16 "concise#1") (first_payload Concise q) 10000;
                     Call (utf16 "concise#fallback") (fallback_payload q) 9000])).
Proof.
  intros Hc H. split.
  - rewrite (ask_detailed_unfold E q w Hc).
    destruct (retry_permanent E (first_payload Detailed q)
                              (first_options Detailed) w H) as (e1 & ->).
    match goal with
    | |- context [openaiChatWithRetry E (reduced_payload q) reduced_options ?w1] =>
      destruct (retry_permanent E (reduced_payload q) reduced_options w1 H)
        as (e2 & ->)
    end.
    match goal with
    | |- context [openaiChatWithRetry E (fallback_payload q) fallback_options ?w2] =>
      destruct (retry_permanent E (fallback_payload q) fallback_options w2 H)
        as (e3 & ->)
    end.
    cbn [calls draws trace label timeout first_options reduced_options
         fallback_options].
    rewrite <- !app_assoc. reflexivity.
  - rewrite (ask_concise_unfold E q w Hc).
    destruct (retry_permanent E (first_payload Concise q)
                              (first_options Concise) w H) as (e1 & ->).
    match goal with
    | |- context [openaiChatWithRetry E (fallback_payload q) fallback_options ?w2] =>
      destruct (retry_permanent E (fallback_payload q) fallback_options w2 H)
        as (e3 & ->)
    end.
    cbn [calls draws trace label timeout first_options fallback_options].
    rewrite <- !app_assoc. reflexivity.
Qed.

Lemma permanent_failure_runs_each_tier_once_witness :
  fst (askOpenAIForLaborHelp
         (mkEnv [] [] true
                (fun _ _ _ => Rejected (mkError (utf16 "Incorrect API key")
                                                (Some 401%Z)))
                (fun _ => 0%Q))
         (utf16 "加班費怎麼算") Detailed initial_world) = None.
Proof.
  destruct (permanent_failure_runs_each_tier_once
              (mkEnv [] [] true
                     (fun _ _ _ => Rejected (mkError (utf16 "Incorrect API key")
                                                     (Some 401%Z)))
                     (fun _ => 0%Q))
              (utf16 "加班費怎麼算") initial_world) as [H _].
  - reflexivity.
  - intros i p t. eexists. split; [reflexivity|]. vm_compute. reflexivity.
  - rewrite H. reflexivity.
Defined.

(** ** The two extractors agree *)

Lemma remove_ws_app (a b : jsstring) :
  remove_ws (a ++ b) = remove_ws a ++ remove_ws b.
Proof. unfold remove_ws. apply filter_app. Qed.

Lemma remove_ws_all (a : jsstring) : forallb is_ws a = true -> remove_ws a = [].
Proof.
  unfold remove_ws. induction a as [|c a IH]; [reflexivity|].
  simpl. intro H. apply andb_true_iff in H as [H1 H2].
  rewrite H1. simpl. now apply IH.
Qed.

Lemma remove_ws_digits (ds : jsstring) :
  forallb is_digit ds = true -> remove_ws ds = ds.
Proof.
  unfold remove_ws. induction ds as [|c ds IH]; [reflexivity|].
  simpl. intro H. apply andb_true_iff in H as [H1 H2].
  rewrite (digit_not_ws c H1). simpl. now rewrite IH.
Qed.

Lemma digits_any (ds : jsstring) :
  forallb is_digit ds = true -> forallb is_any_digit ds = true.
Proof.
  rewrite !forallb_forall. intros H c Hc. unfold is_any_digit.
  now rewrite (H c Hc).
Qed.

Lemma law_reference_phrase (text : jsstring) (n : Z) :
  law_reference text n -> article_phrase (remove_ws text).
Proof.
  intros (pre & t & -> & ws1 & ds & ws2 & post & -> & W1 & W2 & Ne & L & D & _).
  rewrite remove_ws_app.
  change (u_di :: ws1 ++ ds ++ ws2 ++ u_tiao :: post)
    with ([u_di] ++ ws1 ++ ds ++ ws2 ++ [u_tiao] ++ post).
  rewrite !remove_ws_app, (remove_ws_all ws1 W1), (remove_ws_all ws2 W2),
    (remove_ws_digits ds D).
  change (remove_ws [u_di]) with [u_di].
  change (remove_ws [u_tiao]) with [u_tiao].
  cbn [app].
  apply phrase_bare; [exact Ne|exact L|now apply digits_any].
Qed.

(** X28. The two extractors agree on what a reference is: whenever
    [extractLawNumbers] finds a number in a text, [extractArticleNumber]
    finds a number in that text too, since a reference with white space
    inside is a bare article phrase once the white space is removed. *)
Theorem law_numbers_imply_article_number (text : jsstring) (n : Z) :
  In n (extractLawNumbers text) -> extractArticleNumber text <> None.
Proof.
  intros H E. apply extractLawNumbers_In in H as [_ R].
  apply extractArticleNumber_none in E. apply E.
  eapply law_reference_phrase, R.
Qed.

Lemma law_numbers_imply_article_number_witness :
  extractArticleNumber (utf16 "依第 17 條及第11條辦理") <> None.
Proof.
  apply (law_numbers_imply_article_number (utf16 "依第 17 條及第11條辦理") 11%Z).
  vm_compute. tauto.
Defined.
